(** * FileSpec, FileItr and DirTree::ForEach of PKIsensee/File

    A shallow embedding of the path parser of [FileSpec.cpp], the directory
    iterator of [FileItr.cpp] and the recursive walk of [DirTree.h], with the
    properties of the specification stated over it.

    Conventions.
    - A [std::string] is a list of characters, [str].
    - A [size_type] index is a [nat]; [std::string::npos] is [None].
    - A [const_iterator] into [mFileSpec] is its offset from [begin()].
    - Building a string from an iterator pair whose first iterator lies after
      the second one is undefined in C++; a failed [assert] stops the
      program.  Both are the result [None] of a function into [option].
    - What the sources take from headers they do not contain ([CharUtil.h],
      [StrUtil.h]) and from the operating system ([FindFirstFileExA],
      [FindNextFileA]) is a parameter, gathered in the classes [CharUtil]
      and [Win32]. *)

From Stdlib Require Import List Ascii Bool Arith Lia NArith.
From Stdlib Require String.
Import ListNotations String.StringSyntax.

Local Open Scope string_scope.
Local Open Scope list_scope.
Local Open Scope nat_scope.

(** ** Strings *)

Definition str := list ascii.

(** A string literal of the source. *)
Definition lit (s : String.string) : str := String.list_ascii_of_string s.

Definition empty (s : str) : bool :=
  match s with [] => true | _ :: _ => false end.

(** [s[i]]; the source reads it only below [s.length()]. *)
Definition at_ (s : str) (i : nat) : ascii := nth i s zero.

(** [*s.rbegin()], for a string that is not empty. *)
Definition rbegin (s : str) : ascii := last s zero.

(** [s.rfind( c )]: the index of the last [c], or [npos]. *)
Fixpoint rfind (c : ascii) (s : str) : option nat :=
  match s with
  | [] => None
  | x :: t =>
      match rfind c t with
      | Some i => Some (S i)
      | None => if Ascii.eqb x c then Some 0 else None
      end
  end.

(** [s.find_last_of( c )] for a single character is the same search. *)
Definition find_last_of (c : ascii) (s : str) : option nat := rfind c s.

(** [std::string( first, last )] and [assign( first, last )] over offsets into
    [s]; not defined when [first] lies after [last]. *)
Definition range (s : str) (first last : nat) : option str :=
  if first <=? last then Some (firstn (last - first) (skipn first s)) else None.

(** Sequencing of calls that may fail to return. *)
Definition obind {A B : Type} (m : option A) (k : A -> option B) : option B :=
  match m with Some a => k a | None => None end.

Notation "x <- m ;; k" := (obind m (fun x => k))
  (at level 61, m at next level, right associativity).

Notation "' pat <- m ;; k" := (obind m (fun x => match x with pat => k end))
  (at level 61, pat pattern, m at next level, right associativity).

(** [assert( b )]. *)
Definition assert (b : bool) : option unit := if b then Some tt else None.

(** ** FileSpec *)

Record FileSpec := mkFileSpec { mFileSpec : str }.

(** The eight parse points of [ParseSpec], as offsets. *)
Record ParsePoints := mkParsePoints {
  volBegin : nat;  volEnd : nat;
  dirBegin : nat;  dirEnd : nat;
  fileBegin : nat; fileEnd : nat;
  extBegin : nat;  extEnd : nat
}.

Definition firstVolSep (s : str) : option nat :=
  if (1 <? length s) && Ascii.eqb (at_ s 1) ":" then Some 1 else None.

Definition lastDirSep (s : str) : option nat := rfind "\" s.

Definition lastFileSep (s : str) : option nat := rfind "." s.

Definition isSome {A : Type} (o : option A) : bool :=
  match o with Some _ => true | None => false end.

Definition bHaveVolSep (s : str) : bool := isSome (firstVolSep s).

Definition bHaveDirSep (s : str) : bool := isSome (lastDirSep s).

Definition bHaveFileSep (s : str) : bool :=
  match lastFileSep s with
  | None => false
  | Some f =>
      match lastDirSep s with
      | Some d => d <? f
      | None => true
      end
  end.

(** [ParseSpec]; where [bHaveFileSep] holds, [lastFileSep] is an index. *)
Definition ParseSpec (fs : FileSpec) : ParsePoints :=
  let s := mFileSpec fs in
  let vb := 0 in
  let ve := match firstVolSep s with Some v => v + 1 | None => 0 end in
  let db := ve in
  let de := match lastDirSep s with Some d => d + 1 | None => ve end in
  let fb := de in
  let fe := match lastFileSep s with
            | Some f => if bHaveFileSep s then f else length s
            | None => length s
            end in
  let eb := match lastFileSep s with
            | Some f => if bHaveFileSep s then f + 1 else length s
            | None => length s
            end in
  let ee := length s in
  mkParsePoints vb ve db de fb fe eb ee.

(** [Split( vol, dir, file )]: the file keeps its extension. *)
Definition Split3 (fs : FileSpec) : option (str * str * str) :=
  let p := ParseSpec fs in
  vol <- range (mFileSpec fs) (volBegin p) (volEnd p) ;;
  dir <- range (mFileSpec fs) (dirBegin p) (dirEnd p) ;;
  file <- range (mFileSpec fs) (fileBegin p) (extEnd p) ;;
  Some (vol, dir, file).

(** [Split( vol, dir, file, ext )]. *)
Definition Split4 (fs : FileSpec) : option (str * str * str * str) :=
  let p := ParseSpec fs in
  vol <- range (mFileSpec fs) (volBegin p) (volEnd p) ;;
  dir <- range (mFileSpec fs) (dirBegin p) (dirEnd p) ;;
  file <- range (mFileSpec fs) (fileBegin p) (fileEnd p) ;;
  ext <- range (mFileSpec fs) (extBegin p) (extEnd p) ;;
  Some (vol, dir, file, ext).

Definition GetVol (fs : FileSpec) : option str :=
  let p := ParseSpec fs in range (mFileSpec fs) (volBegin p) (volEnd p).

Definition GetDir (fs : FileSpec) : option str :=
  let p := ParseSpec fs in range (mFileSpec fs) (dirBegin p) (dirEnd p).

Definition GetFile (fs : FileSpec) : option str :=
  let p := ParseSpec fs in range (mFileSpec fs) (fileBegin p) (extEnd p).

Definition GetFileNoExtension (fs : FileSpec) : option str :=
  let p := ParseSpec fs in range (mFileSpec fs) (fileBegin p) (fileEnd p).

Definition GetExtension (fs : FileSpec) : option str :=
  let p := ParseSpec fs in range (mFileSpec fs) (extBegin p) (extEnd p).

Definition GetFullPath (fs : FileSpec) : str := mFileSpec fs.

Definition IsFolder (fs : FileSpec) : option bool :=
  '(vol, dir, file) <- Split3 fs ;;
  if negb (empty file) then Some false
  else Some (negb (empty vol) || negb (empty dir)).

Definition IsFile (fs : FileSpec) : option bool :=
  '(vol, dir, file) <- Split3 fs ;;
  Some (negb (empty file)).

(** Equality of strings, [mCompare == mFileSpec]. *)
Definition str_eqb (a b : str) : bool :=
  if list_eq_dec ascii_dec a b then true else false.

(** [CharUtilT< char >::IsAlpha] and
    [StrUtilT< char >::IsGoodFileName( . , AllowWildcards::Yes )] come from
    [CharUtil.h] and [StrUtil.h], which the sources include and do not
    contain. *)
Class CharUtil := {
  IsAlpha : ascii -> bool;
  IsGoodFileName : str -> bool
}.

Section Validation.

Context {CU : CharUtil}.

Definition Validate (fs : FileSpec) : option unit :=
  '(vol, dir, file) <- Split3 fs ;;
  _ <- (if negb (empty vol) then
          _ <- assert (length vol =? 2) ;;
          _ <- assert (IsAlpha (at_ vol 0)) ;;
          assert (Ascii.eqb (at_ vol 1) ":")
        else Some tt) ;;
  _ <- assert (IsGoodFileName dir) ;;
  _ <- assert (IsGoodFileName file) ;;
  let mCompare := vol ++ dir ++ file in
  assert (str_eqb mCompare (mFileSpec fs)).

(** [FileSpec( sFullPath )]. *)
Definition FileSpec1 (sFullPath : str) : option FileSpec :=
  let this := mkFileSpec sFullPath in
  _ <- Validate this ;;
  Some this.

(** The text assembled by [FileSpec( vol, dir, file )] before it is
    validated. *)
Definition join3 (vol dir file : str) : str :=
  let m := vol in
  let m := m ++ dir in
  let m := if negb (empty dir) && negb (Ascii.eqb (rbegin dir) "\")
              && negb (Ascii.eqb (rbegin dir) "/")
           then m ++ ["\"%char] else m in
  m ++ file.

(** [FileSpec( vol, dir, file )]. *)
Definition FileSpec3 (vol dir file : str) : option FileSpec :=
  let this := mkFileSpec (join3 vol dir file) in
  _ <- Validate this ;;
  Some this.

(** The text assembled by [FileSpec( vol, dir, file, ext )] before it is
    validated. *)
Definition join4 (vol dir file ext : str) : str :=
  let m := vol in
  let m := m ++ dir in
  let m := if negb (empty dir) && negb (Ascii.eqb (rbegin dir) "\")
              && negb (Ascii.eqb (rbegin dir) "/")
           then m ++ ["\"%char] else m in
  let m := m ++ file in
  let m := if negb (empty ext) && negb (Ascii.eqb (rbegin ext) ".")
           then m ++ ["."%char] else m in
  m ++ ext.

(** [FileSpec( vol, dir, file, ext )]. *)
Definition FileSpec4 (vol dir file ext : str) : option FileSpec :=
  let this := mkFileSpec (join4 vol dir file ext) in
  _ <- Validate this ;;
  Some this.

(** [Assign( sFullPath )] replaces the buffer and validates it. *)
Definition Assign (this : FileSpec) (sFullPath : str) : option FileSpec :=
  let this := mkFileSpec sFullPath in
  _ <- Validate this ;;
  Some this.

(** [Assign( spec )] is [Assign( spec.mFileSpec )]. *)
Definition AssignSpec (this spec : FileSpec) : option FileSpec :=
  Assign this (mFileSpec spec).

End Validation.

(** ** Notions of the specification *)

(** [i] is the index of the last [c] of [s]. *)
Definition rightmost (c : ascii) (s : str) (i : nat) : Prop :=
  i < length s /\ at_ s i = c /\
  forall j, i < j -> j < length s -> at_ s j <> c.

(** The characters of [s] from offset [a] up to offset [b]. *)
Definition sub (s : str) (a b : nat) : str := firstn (b - a) (skipn a s).

(** The offsets are in order: no iterator pair of [Split] is reversed. *)
Definition ordered (fs : FileSpec) : Prop :=
  volEnd (ParseSpec fs) <= dirEnd (ParseSpec fs) /\
  dirEnd (ParseSpec fs) <= fileEnd (ParseSpec fs).

(** The shape of a volume [v] that heads the string [s]. *)
Definition vol_shape (s v : str) : Prop :=
  (v = [] /\ ~ (1 < length s /\ at_ s 1 = ":"%char)) \/
  (length v = 2 /\ at_ v 1 = ":"%char).

(** The path has a valid extension separator: a last [.] that no directory
    separator follows. *)
Definition has_ext_sep (s : str) : Prop :=
  exists f, rightmost "." s f /\ forall d, rightmost "\" s d -> d < f.

(** The reassembly of section 3 of the specification: the separator is
    written only before an extension that is not empty. *)
Definition reassemble (vol dir stem ext : str) : str :=
  vol ++ dir ++ stem ++ (if empty ext then [] else "."%char :: ext).

(** The path ends in the extension separator. *)
Definition ends_in_dot (s : str) : Prop := exists q, s = q ++ ["."%char].

(** Modelled from the spec: [CharUtil.h] is not among the sources; section 3
    of the specification asks the first character of a volume to be an ASCII
    letter. *)
Definition IsAlpha_ascii (c : ascii) : bool :=
  let n := nat_of_ascii c in
  ((65 <=? n) && (n <=? 90)) || ((97 <=? n) && (n <=? 122)).

(** Modelled from the spec: [StrUtil.h] is not among the sources; section 3
    of the specification asks directory and stem to hold no character that is
    illegal in a file name, the wildcards being allowed.  The check is applied
    to directories, so the separators pass it: the illegal characters are the
    control characters and the quote, the colon, the angle brackets and the
    bar. *)
Definition IsGoodFileName_chars (s : str) : bool :=
  forallb (fun c =>
    let n := nat_of_ascii c in
    (32 <=? n) && negb (n =? 34) && negb (n =? 58) && negb (n =? 60)
      && negb (n =? 62) && negb (n =? 124)) s.

Definition ascii_CharUtil : CharUtil :=
  {| IsAlpha := IsAlpha_ascii; IsGoodFileName := IsGoodFileName_chars |}.

(** ** FileAttrib *)

(** The find record that [FindFirstFileExA] and [FindNextFileA] fill;
    [cFileName] holds the characters before the terminating NUL. *)
Record WIN32_FIND_DATAA := mkFindData {
  dwFileAttributes : N;
  nFileSizeLow : N;
  nFileSizeHigh : N;
  cFileName : str
}.

(** Constants of the Windows headers. *)
Definition FILE_ATTRIBUTE_DIRECTORY : N := 16.
Definition ERROR_BAD_NETPATH : N := 53.

Module FileAttrib.

Record t := mk { mFlags : N; mSize : N }.

(** [FileAttrib( const WIN32_FIND_DATAA& )]; the size is a [uint64_t]. *)
Definition of_find_data (findData : WIN32_FIND_DATAA) : t :=
  mk (dwFileAttributes findData)
     ((nFileSizeLow findData + N.shiftl (nFileSizeHigh findData) 32)
        mod 2 ^ 64)%N.

Definition IsFolder (a : t) : bool :=
  negb (N.land (mFlags a) FILE_ATTRIBUTE_DIRECTORY =? 0)%N.

Definition GetSize (a : t) : N := mSize a.

End FileAttrib.

(** ** The operating system and the record of a run *)

(** What [FindFirstFileExA] answers: the first entry together with the
    entries that [FindNextFileA] will deliver on the handle, in order, or
    [INVALID_HANDLE_VALUE] with the code that [GetLastError] then reports. *)
Inductive FindFirstResult :=
| FindFound (first : WIN32_FIND_DATAA) (rest : list WIN32_FIND_DATAA)
| FindFailed (lastError : N).

Class Win32 := {
  FindFirstFileExA : str -> FindFirstResult
}.

(** A search handle is the list of the entries still to come;
    [INVALID_HANDLE_VALUE] is [None]. *)
Definition HANDLE := option (list WIN32_FIND_DATAA).

Definition INVALID_HANDLE_VALUE : HANDLE := None.

(** [DirTree::Mode]. *)
Inductive Mode := NoSubFolders | YesSubFolders.

(** What a run does that its caller and the operating system can observe:
    a listing is opened on a path, the visitor is called on a spec, [ForEach]
    is entered. *)
Inductive Event :=
| EvFindFirst (path : str)
| EvVisit (spec : FileSpec)
| EvForEach (fs : FileSpec) (mode : Mode).

(** How a run ends: it returns, it is stopped by a failed [assert] or by an
    undefined iterator range, or the model has no fuel left. *)
Inductive outcome (A : Type) :=
| Returned (a : A)
| Stopped
| OutOfFuel.

Arguments Returned {A} a.
Arguments Stopped {A}.
Arguments OutOfFuel {A}.

(** A computation: the events so far and how it ended. *)
Definition M (A : Type) : Type := list Event * outcome A.

Definition ret {A : Type} (a : A) : M A := ([], Returned a).

Definition bind {A B : Type} (m : M A) (k : A -> M B) : M B :=
  match m with
  | (t, Returned a) => let '(t', o) := k a in (t ++ t', o)
  | (t, Stopped) => (t, Stopped)
  | (t, OutOfFuel) => (t, OutOfFuel)
  end.

Definition emit (e : Event) : M unit := ([e], Returned tt).

Definition lift {A : Type} (o : option A) : M A :=
  match o with Some a => ret a | None => ([], Stopped) end.

Definition out_of_fuel {A : Type} : M A := ([], OutOfFuel).

Notation "x <~ m ;; k" := (bind m (fun x => k))
  (at level 61, m at next level, right associativity).

Notation "' pat <~ m ;; k" := (bind m (fun x => match x with pat => k end))
  (at level 61, pat pattern, m at next level, right associativity).

Definition trace {A : Type} (m : M A) : list Event := fst m.

Definition result {A : Type} (m : M A) : outcome A := snd m.

(** ** FileItr *)

Record FileItr := mkFileItr {
  mpFindData : WIN32_FIND_DATAA;
  mFindHandle : HANDLE;
  mVol : str;
  mDir : str;
  mSpec : FileSpec;
  mNetworkAvail : bool
}.

Definition set_mpFindData (d : WIN32_FIND_DATAA) (i : FileItr) : FileItr :=
  mkFileItr d (mFindHandle i) (mVol i) (mDir i) (mSpec i) (mNetworkAvail i).

Definition set_mFindHandle (h : HANDLE) (i : FileItr) : FileItr :=
  mkFileItr (mpFindData i) h (mVol i) (mDir i) (mSpec i) (mNetworkAvail i).

Definition set_mVolDir (vol dir : str) (i : FileItr) : FileItr :=
  mkFileItr (mpFindData i) (mFindHandle i) vol dir (mSpec i) (mNetworkAvail i).

Definition set_mSpec (s : FileSpec) (i : FileItr) : FileItr :=
  mkFileItr (mpFindData i) (mFindHandle i) (mVol i) (mDir i) s (mNetworkAvail i).

Definition set_mNetworkAvail (b : bool) (i : FileItr) : FileItr :=
  mkFileItr (mpFindData i) (mFindHandle i) (mVol i) (mDir i) (mSpec i) b.

(** [ZeroMemory] of a find record, which also stands for a record nothing
    has been written to yet. *)
Definition zero_find_data : WIN32_FIND_DATAA := mkFindData 0 0 0 [].

Module FileItr.

Section Iterator.

Context {CU : CharUtil} {OS : Win32}.

Definition Exists (this : FileItr) : bool := isSome (mFindHandle this).

Definition IsNetworkAvailable (this : FileItr) : bool := mNetworkAvail this.

Definition GetAttrib (this : FileItr) : option FileAttrib.t :=
  _ <- assert (Exists this) ;;
  Some (FileAttrib.of_find_data (mpFindData this)).

(** [operator *] and [operator ->]. *)
Definition deref (this : FileItr) : option FileSpec :=
  _ <- assert (Exists this) ;;
  Some (mSpec this).

Definition Close (this : FileItr) : FileItr :=
  match mFindHandle this with
  | Some _ => set_mNetworkAvail true (set_mFindHandle INVALID_HANDLE_VALUE this)
  | None => this
  end.

(** [SkipSpecialFolders], over the [operator ++] it calls. *)
Definition SkipSpecialFolders (increment : FileItr -> option FileItr)
    (this : FileItr) : option FileItr :=
  _ <- assert (Exists this) ;;
  attrib <- GetAttrib this ;;
  if negb (FileAttrib.IsFolder attrib) then Some this
  else
    let name := cFileName (mpFindData this) in
    if Ascii.eqb (at_ name 0) "." then
      if Ascii.eqb (at_ name 1) zero then increment this
      else if Ascii.eqb (at_ name 1) "." && Ascii.eqb (at_ name 2) zero
           then increment this
           else Some this
    else Some this.

(** [mSpec.Assign( FileSpec( mVol, mDir, std::string( cFileName ) ) )]. *)
Definition store_spec (this : FileItr) : option FileItr :=
  tmp <- FileSpec3 (mVol this) (mDir this) (cFileName (mpFindData this)) ;;
  spec <- AssignSpec (mSpec this) tmp ;;
  Some (set_mSpec spec this).

(** [operator ++] on a handle that still has the entries [pending]:
    [FindNextFileA] delivers the first of them, or fails when there is
    none.  The [operator ++] that [SkipSpecialFolders] calls runs on the
    handle as it then is, with the entries [pending'] to come. *)
Fixpoint advance (pending : list WIN32_FIND_DATAA) (this : FileItr)
    : option FileItr :=
  match pending with
  | [] => Some (Close this)
  | e :: pending' =>
      let this := set_mFindHandle (Some pending') (set_mpFindData e this) in
      this <- SkipSpecialFolders (advance pending') this ;;
      store_spec this
  end.

Definition operator_inc (this : FileItr) : option FileItr :=
  _ <- assert (Exists this) ;;
  match mFindHandle this with
  | Some pending => advance pending this
  | None => None
  end.

(** The path that [Init] hands to [FindFirstFileExA], with the spec it
    belongs to. *)
Definition strip_trailing (fs : FileSpec) : option (str * FileSpec) :=
  let path := GetFullPath fs in
  if negb (empty path) &&
     match find_last_of "\" path with
     | Some i => i =? length path - 1
     | None => false
     end
  then
    let path := firstn (length path - 1) path in
    fs <- Assign fs path ;;
    Some (path, fs)
  else Some (path, fs).

Definition Init (spec : FileSpec) (this : FileItr) : M (bool * FileItr) :=
  let this := set_mpFindData zero_find_data this in
  let this := Close this in
  '(path, fs) <~ lift (strip_trailing spec) ;;
  _ <~ emit (EvFindFirst path) ;;
  match FindFirstFileExA path with
  | FindFailed lastError =>
      let this := set_mFindHandle INVALID_HANDLE_VALUE this in
      let this := set_mpFindData zero_find_data this in
      let this := if (lastError =? ERROR_BAD_NETPATH)%N
                  then set_mNetworkAvail false this else this in
      ret (false, this)
  | FindFound first pending =>
      let this := set_mFindHandle (Some pending) (set_mpFindData first this) in
      this <~ lift (SkipSpecialFolders operator_inc this) ;;
      '(vol, dir, sFile) <~ lift (Split3 fs) ;;
      let this := set_mVolDir vol dir this in
      this <~ lift (store_spec this) ;;
      ret (true, this)
  end.

(** [FileItr( spec )]. *)
Definition ctor (spec : FileSpec) : M FileItr :=
  let this := mkFileItr zero_find_data INVALID_HANDLE_VALUE [] []
                (mkFileSpec []) true in
  '(_, this) <~ Init spec this ;;
  ret this.

(** An upper bound on the calls of [operator ++] that a loop over the
    iterator can still make: each call takes an entry off the handle or
    closes it. *)
Definition remaining (this : FileItr) : nat :=
  match mFindHandle this with
  | Some pending => S (length pending)
  | None => 0
  end.

(** [for( ; i.Exists(); ++i ) body( i )]. *)
Fixpoint iterate (k : nat) (body : FileItr -> M unit) (i : FileItr)
    : M unit :=
  if Exists i then
    match k with
    | 0 => out_of_fuel
    | S k' =>
        _ <~ body i ;;
        i <~ lift (operator_inc i) ;;
        iterate k' body i
    end
  else ret tt.

(** [for( FileItr i( fs ); i.Exists(); ++i ) body( i )]; the loop ends on
    an iterator without a handle, which the destructor leaves as it is. *)
Definition for_each_entry (fs : FileSpec) (body : FileItr -> M unit)
    : M unit :=
  i <~ ctor fs ;;
  iterate (remaining i) body i.

End Iterator.

End FileItr.

(** ** DirTree *)

Module DirTree.

Section Walk.

Context {CU : CharUtil} {OS : Win32}.

(** [fnForEach( *i )]. *)
Definition visit (i : FileItr) : M unit :=
  spec <~ lift (FileItr.deref i) ;;
  emit (EvVisit spec).

(** [ForEach( fs, fnForEach, mode )]; a call of [ForEach] takes one unit
    of [fuel]. *)
Fixpoint ForEach (fuel : nat) (fs : FileSpec) (mode : Mode) : M unit :=
  match fuel with
  | 0 => out_of_fuel
  | S fuel' =>
      _ <~ emit (EvForEach fs mode) ;;
      _ <~ FileItr.for_each_entry fs visit ;;
      match mode with
      | NoSubFolders => ret tt
      | YesSubFolders =>
          '(vol, dir, file) <~ lift (Split3 fs) ;;
          localSpec <~ lift (FileSpec3 vol dir (lit "*")) ;;
          FileItr.for_each_entry localSpec (fun i =>
            attrib <~ lift (FileItr.GetAttrib i) ;;
            if FileAttrib.IsFolder attrib then
              cur <~ lift (FileItr.deref i) ;;
              name <~ lift (GetFile cur) ;;
              subFolder <~ lift (FileSpec3 vol (dir ++ name) file) ;;
              ForEach fuel' subFolder mode
            else ret tt)
      end
  end.

End Walk.

End DirTree.

(** ** Notions of the specification for the iterator and the walk *)

(** The name is [.] or [..]. *)
Definition special_name (name : str) : bool :=
  str_eqb name (lit ".") || str_eqb name (lit "..").

(** The entry is a folder named [.] or [..]. *)
Definition special_folder (d : WIN32_FIND_DATAA) : bool :=
  FileAttrib.IsFolder (FileAttrib.of_find_data d) && special_name (cFileName d).

(** The test of [SkipSpecialFolders] on the name. *)
Definition name_test (name : str) : bool :=
  if Ascii.eqb (at_ name 0) "." then
    if Ascii.eqb (at_ name 1) zero then true
    else Ascii.eqb (at_ name 1) "." && Ascii.eqb (at_ name 2) zero
  else false.

(** The entries of a listing, in the order in which the operating system
    delivers them. *)
Definition listing (r : FindFirstResult) : list WIN32_FIND_DATAA :=
  match r with
  | FindFound first rest => first :: rest
  | FindFailed _ => []
  end.

(** The entries of a listing without the special folders. *)
Definition yielded (r : FindFirstResult) : list WIN32_FIND_DATAA :=
  filter (fun d => negb (special_folder d)) (listing r).

(** The entries from the first one that is not a special folder. *)
Fixpoint skip_special (l : list WIN32_FIND_DATAA) : list WIN32_FIND_DATAA :=
  match l with
  | [] => []
  | e :: l' => if special_folder e then skip_special l' else e :: l'
  end.

(** A name as the file system gives it: it holds no directory separator, no
    volume separator and no NUL. *)
Definition os_name (name : str) : bool :=
  forallb (fun c => negb (Ascii.eqb c "\") && negb (Ascii.eqb c ":")
                    && negb (Ascii.eqb c zero)) name.

(** An entry as the file system gives it, with a name that the name check
    accepts. *)
Definition entry_ok {CU : CharUtil} (d : WIN32_FIND_DATAA) : bool :=
  os_name (cFileName d) && IsGoodFileName (cFileName d).

(** The directory flag of an entry: bit 4 of its attributes, the bit of
    [FILE_ATTRIBUTE_DIRECTORY]. *)
Definition directory_flag (d : WIN32_FIND_DATAA) : bool :=
  N.testbit (dwFileAttributes d) 4.

(** The subfolders of a listing: the entries that carry the directory flag,
    other than [.] and [..]. *)
Definition subfolders (l : list WIN32_FIND_DATAA) : list WIN32_FIND_DATAA :=
  filter (fun d => directory_flag d && negb (special_name (cFileName d))) l.

(** The name of an entry is not empty and holds no forward slash, which the
    file system allows in no name. *)
Definition entry_name (name : str) : bool :=
  negb (empty name) && forallb (fun c => negb (Ascii.eqb c "/")) name.

(** The file system delivers [.] and [..] as directories: in every listing
    an entry with one of these names carries the directory flag. *)
Definition dots_are_directories {OS : Win32} : Prop :=
  forall path d, In d (listing (FindFirstFileExA path)) ->
    special_name (cFileName d) = true -> directory_flag d = true.

(** [body] on every element of [l], in order. *)
Fixpoint for_each {A : Type} (l : list A) (body : A -> M unit) : M unit :=
  match l with
  | [] => ret tt
  | a :: l' => _ <~ body a ;; for_each l' body
  end.

(** The paths on which a run opened a listing. *)
Definition opens (t : list Event) : list str :=
  flat_map (fun e => match e with EvFindFirst p => [p] | _ => [] end) t.

(** The calls of [ForEach] in a run. *)
Definition calls (t : list Event) : list (FileSpec * Mode) :=
  flat_map (fun e => match e with EvForEach fs m => [(fs, m)] | _ => [] end) t.

(** The states of an iterator that a caller can get hold of: the one the
    constructor returns, and the ones [operator ++] returns from them. *)
Inductive reachable {CU : CharUtil} {OS : Win32} : FileItr -> Prop :=
| reach_ctor (spec : FileSpec) (t : list Event) (i : FileItr) :
    FileItr.ctor spec = (t, Returned i) -> reachable i
| reach_inc (i i' : FileItr) :
    reachable i -> FileItr.operator_inc i = Some i' -> reachable i'.

(** ** Small file systems for the examples *)

Definition ERROR_FILE_NOT_FOUND : N := 2.

Definition plain_file (name : str) : WIN32_FIND_DATAA := mkFindData 32 0 0 name.

Definition folder (name : str) : WIN32_FIND_DATAA := mkFindData 16 0 0 name.

(** A folder with [a.txt] and the subfolder [sub], which holds [b.txt];
    the share [n:] is not reachable. *)
Definition small_OS : Win32 :=
  {| FindFirstFileExA := fun path =>
       if str_eqb path (lit "*.txt") then
         FindFound (plain_file (lit "a.txt")) []
       else if str_eqb path (lit "*") then
         FindFound (folder (lit ".")) [folder (lit ".."); plain_file (lit "a.txt");
                                       folder (lit "sub")]
       else if str_eqb path (lit "sub\*.txt") then
         FindFound (plain_file (lit "b.txt")) []
       else if str_eqb path (lit "sub\*") then
         FindFound (folder (lit ".")) [folder (lit ".."); plain_file (lit "b.txt")]
       else if str_eqb path (lit "n:\*") then
         FindFailed ERROR_BAD_NETPATH
       else FindFailed ERROR_FILE_NOT_FOUND |}.

(** ** FileSpec: the queries that ask the operating system *)

(** Constants of the Windows headers. *)
Definition DRIVE_REMOTE : N := 4.
Definition NO_ERROR : N := 0.
Definition ERROR_BAD_DEVICE : N := 1200.
Definition ERROR_CONNECTION_UNAVAIL : N := 1201.
Definition ERROR_NO_NETWORK : N := 1222.
Definition ERROR_NOT_CONNECTED : N := 2250.

(** [GetDriveType] on a root path, and the code that [WNetGetConnectionA]
    returns for a local name. *)
Class Win32Net := {
  GetDriveType : str -> N;
  WNetGetConnectionA : str -> N
}.

Module FileSpecOS.

Section Queries.

Context {CU : CharUtil} {OS : Win32} {NET : Win32Net}.

(** [FileSpec::Exists]. *)
Definition Exists (this : FileSpec) : M bool :=
  fs <~ lift (FileSpec1 (mFileSpec this)) ;;
  let path := GetFullPath fs in
  let path :=
    if negb (empty path) &&
       match find_last_of "\" path with
       | Some i => i =? length path - 1
       | None => false
       end
    then firstn (length path - 1) path
    else path in
  _ <~ emit (EvFindFirst path) ;;
  match FindFirstFileExA path with
  | FindFailed _ => ret false
  | FindFound _ _ => ret true
  end.

(** [FileSpec::IsNetDrive]. *)
Definition IsNetDrive (this : FileSpec) : option bool :=
  vol <- GetVol this ;;
  if empty vol then Some false
  else
    let drivePath := [at_ vol 0; ":"%char; "\"%char] in
    Some (GetDriveType drivePath =? DRIVE_REMOTE)%N.

(** [FileSpec::IsConnectedNetDrive]. *)
Definition IsConnectedNetDrive (this : FileSpec) : M bool :=
  net <~ lift (IsNetDrive this) ;;
  if negb net then ret false
  else
    vol <~ lift (GetVol this) ;;
    let result := WNetGetConnectionA vol in
    if (result =? ERROR_NO_NETWORK)%N || (result =? ERROR_NOT_CONNECTED)%N
       || (result =? ERROR_CONNECTION_UNAVAIL)%N
    then ret false
    else if (result =? NO_ERROR)%N then
      wildVol <~ lift (FileSpec3 vol (lit "\") (lit "*.*")) ;;
      _ <~ emit (EvFindFirst (mFileSpec wildVol)) ;;
      match FindFirstFileExA (mFileSpec wildVol) with
      | FindFailed lastError =>
          if (lastError =? ERROR_BAD_NETPATH)%N then ret false else ret true
      | FindFound _ _ => ret true
      end
    else
      _ <~ lift (assert false) ;;
      ret false.

End Queries.

End FileSpecOS.

(** ** File: the flags of [Create] and [Open] *)

(** [enum class FileFlags : uint32_t], as the value of the underlying type. *)
Module FileFlags.

Definition t := N.

Definition Write : t := 1%N.
Definition Read : t := 2%N.
Definition SharedRead : t := 4%N.
Definition SharedWrite : t := 8%N.
Definition SharedDelete : t := 16%N.
Definition SequentialScan : t := 32%N.
Definition RandomAccess : t := 64%N.

(** [operator |]. *)
Definition or (lhs rhs : t) : t := N.lor lhs rhs.

(** [operator &]: the conjunction of the bits, cast to [bool]. *)
Definition and (lhs rhs : t) : bool := negb (N.land lhs rhs =? 0)%N.

End FileFlags.

(** Constants of the Windows headers. *)
Definition GENERIC_READ : N := 2147483648.
Definition GENERIC_WRITE : N := 1073741824.
Definition FILE_SHARE_READ : N := 1.
Definition FILE_SHARE_WRITE : N := 2.
Definition FILE_SHARE_DELETE : N := 4.
Definition FILE_ATTRIBUTE_NORMAL : N := 128.
Definition FILE_FLAG_SEQUENTIAL_SCAN : N := 134217728.
Definition FILE_FLAG_RANDOM_ACCESS : N := 268435456.

Record CreateFileParams := mkCreateFileParams {
  access : N;
  share : N;
  create : N;
  attribs : N
}.

(** [CreateFileParams( howToOpen, flags )]. *)
Definition CreateFileParams_ctor (howToOpen : N) (flags : FileFlags.t)
    : option CreateFileParams :=
  _ <- assert (negb (FileFlags.and flags FileFlags.SequentialScan
                     && FileFlags.and flags FileFlags.RandomAccess)) ;;
  _ <- assert (FileFlags.and flags FileFlags.Read
               || FileFlags.and flags FileFlags.Write) ;;
  let access := 0%N in
  let share := 0%N in
  let attribs := FILE_ATTRIBUTE_NORMAL in
  let access := if FileFlags.and flags FileFlags.Read
                then N.lor access GENERIC_READ else access in
  let access := if FileFlags.and flags FileFlags.Write
                then N.lor access GENERIC_WRITE else access in
  let share := if FileFlags.and flags FileFlags.SharedRead
               then N.lor share FILE_SHARE_READ else share in
  let share := if FileFlags.and flags FileFlags.SharedWrite
               then N.lor share FILE_SHARE_WRITE else share in
  let share := if FileFlags.and flags FileFlags.SharedDelete
               then N.lor share FILE_SHARE_DELETE else share in
  let attribs := if FileFlags.and flags FileFlags.SequentialScan
                 then N.lor attribs FILE_FLAG_SEQUENTIAL_SCAN else attribs in
  let attribs := if FileFlags.and flags FileFlags.RandomAccess
                 then N.lor attribs FILE_FLAG_RANDOM_ACCESS else attribs in
  Some (mkCreateFileParams access share howToOpen attribs).

(** ** Further notions for the iterator and the walk *)

(** [k] calls of [operator ++]. *)
Fixpoint increments {CU : CharUtil} (k : nat) (i : FileItr)
    : option FileItr :=
  match k with
  | 0 => Some i
  | S k' => i' <- FileItr.operator_inc i ;; increments k' i'
  end.

(** The specs that the visitor was called on, in order. *)
Definition visits (t : list Event) : list FileSpec :=
  flat_map (fun e => match e with EvVisit s => [s] | _ => [] end) t.

(** The spec that the iterator composes for an entry. *)
Definition entry_spec (vol dir : str) (d : WIN32_FIND_DATAA) : FileSpec :=
  mkFileSpec (vol ++ dir ++ cFileName d).

(** A share that is connected and a drive that is local. *)
Definition small_NET : Win32Net :=
  {| GetDriveType := fun root =>
       if str_eqb root (lit "n:\") then DRIVE_REMOTE else 3%N;
     WNetGetConnectionA := fun _ => NO_ERROR |}.

(** ** Facts about strings *)

Arguments ParseSpec : simpl never.
Arguments sub : simpl never.

Lemma rfind_Some (c : ascii) (s : str) (i : nat) :
  rfind c s = Some i -> rightmost c s i.
Proof.
  unfold rightmost, at_. revert i.
  induction s as [|x t IH]; simpl; intros i H; [discriminate|].
  destruct (rfind c t) as [k|] eqn:E.
  - injection H as <-. destruct (IH k eq_refl) as (Hk & Hc & Hlast).
    repeat split; [lia | exact Hc |].
    intros [|j] Hlt Hlen; [lia|]. apply Hlast; lia.
  - destruct (Ascii.eqb x c) eqn:Ex; [|discriminate].
    injection H as <-. apply Ascii.eqb_eq in Ex.
    repeat split; [lia | exact Ex |].
    intros [|j] Hlt Hlen; [lia|].
    clear IH. revert j Hlt Hlen.
    induction t as [|y u IHu]; simpl in *; intros j Hlt Hlen; [lia|].
    destruct (rfind c u) eqn:Eu; [discriminate|].
    destruct (Ascii.eqb y c) eqn:Ey; [discriminate|].
    destruct j as [|j].
    + apply Ascii.eqb_neq. exact Ey.
    + apply IHu; [reflexivity | lia | lia].
Qed.

Lemma rfind_None (c : ascii) (s : str) :
  rfind c s = None -> forall j, j < length s -> at_ s j <> c.
Proof.
  unfold at_. induction s as [|x t IH]; simpl; intros H j Hj; [lia|].
  destruct (rfind c t) eqn:E; [discriminate|].
  destruct (Ascii.eqb x c) eqn:Ex; [discriminate|].
  destruct j as [|j].
  - apply Ascii.eqb_neq. exact Ex.
  - apply IH; [reflexivity | lia].
Qed.

Lemma rightmost_unique (c : ascii) (s : str) (i j : nat) :
  rightmost c s i -> rightmost c s j -> i = j.
Proof.
  intros (Hi & Hci & Hli) (Hj & Hcj & Hlj).
  destruct (Nat.lt_trichotomy i j) as [L|[E|L]]; [|exact E|].
  - exfalso. exact (Hli j L Hj Hcj).
  - exfalso. exact (Hlj i L Hi Hci).
Qed.

Lemma rightmost_rfind (c : ascii) (s : str) (i : nat) :
  rightmost c s i -> rfind c s = Some i.
Proof.
  intros H. destruct (rfind c s) as [k|] eqn:E.
  - f_equal. apply (rightmost_unique c s); [apply rfind_Some; exact E | exact H].
  - exfalso. destruct H as (Hi & Hc & _). exact (rfind_None c s E i Hi Hc).
Qed.

Lemma range_Some (s : str) (a b : nat) :
  a <= b -> range s a b = Some (sub s a b).
Proof.
  intros H. unfold range. apply Nat.leb_le in H. rewrite H. reflexivity.
Qed.

Lemma range_inv (s : str) (a b : nat) (r : str) :
  range s a b = Some r -> a <= b /\ r = sub s a b.
Proof.
  unfold range. destruct (a <=? b) eqn:E; [|discriminate].
  intros H. injection H as <-. apply Nat.leb_le in E. split; [exact E | reflexivity].
Qed.

Lemma sub_app (s : str) (a b c : nat) :
  a <= b -> b <= c -> sub s a b ++ sub s b c = sub s a c.
Proof.
  intros Hab Hbc. unfold sub.
  replace (c - a) with ((b - a) + (c - b)) by lia.
  replace (skipn b s) with (skipn (b - a) (skipn a s)).
  - generalize (skipn a s) as t. generalize (b - a) as n. generalize (c - b) as m.
    intros m n. induction n as [|n IH]; intros [|x t]; simpl; try reflexivity.
    + now rewrite firstn_nil.
    + f_equal. apply IH.
  - rewrite skipn_skipn. f_equal. lia.
Qed.

Lemma sub_full (s : str) : sub s 0 (length s) = s.
Proof.
  unfold sub. rewrite Nat.sub_0_r. simpl. apply firstn_all.
Qed.

Lemma sub_same (s : str) (a : nat) : sub s a a = [].
Proof.
  unfold sub. rewrite Nat.sub_diag. reflexivity.
Qed.

Lemma sub_one (s : str) (a : nat) :
  a < length s -> sub s a (S a) = [at_ s a].
Proof.
  unfold sub, at_. replace (S a - a) with 1 by lia.
  revert a. induction s as [|x t IH]; simpl; intros a H; [lia|].
  destruct a as [|a]; [reflexivity|]. apply IH. lia.
Qed.

Lemma sub_length (s : str) (a b : nat) :
  a <= b -> b <= length s -> length (sub s a b) = b - a.
Proof.
  intros Hab Hb. unfold sub. rewrite length_firstn, length_skipn. lia.
Qed.

Lemma sub_prefix (s : str) (n : nat) : sub s 0 n = firstn n s.
Proof.
  unfold sub. rewrite Nat.sub_0_r. reflexivity.
Qed.

Lemma empty_true (s : str) : empty s = true <-> s = [].
Proof.
  destruct s; simpl; split; intros H; try reflexivity; discriminate.
Qed.

Lemma empty_false (s : str) : empty s = false <-> s <> [].
Proof.
  destruct s; simpl; split; intros H; try discriminate; congruence.
Qed.

Lemma str_eqb_eq (a b : str) : str_eqb a b = true <-> a = b.
Proof.
  unfold str_eqb. destruct (list_eq_dec ascii_dec a b); split; intros H;
    try reflexivity; try assumption; try discriminate; contradiction.
Qed.

(** ** Facts about the parse points *)

Lemma firstVolSep_cases (s : str) :
  (firstVolSep s = Some 1 /\ 1 < length s /\ at_ s 1 = ":"%char) \/
  (firstVolSep s = None /\ ~ (1 < length s /\ at_ s 1 = ":"%char)).
Proof.
  unfold firstVolSep.
  destruct (1 <? length s) eqn:L; simpl.
  - apply Nat.ltb_lt in L. destruct (Ascii.eqb (at_ s 1) ":") eqn:E.
    + left. apply Ascii.eqb_eq in E. auto.
    + right. apply Ascii.eqb_neq in E. split; [reflexivity | tauto].
  - right. apply Nat.ltb_ge in L. split; [reflexivity | lia].
Qed.

(** What always holds of the offsets computed by [ParseSpec]. *)
Lemma ParseSpec_bounds (fs : FileSpec) :
  let p := ParseSpec fs in
  let s := mFileSpec fs in
  volBegin p = 0 /\ dirBegin p = volEnd p /\ fileBegin p = dirEnd p /\
  extEnd p = length s /\
  volEnd p = (if bHaveVolSep s then 2 else 0) /\
  volEnd p <= length s /\ dirEnd p <= length s /\
  fileEnd p <= extBegin p /\ extBegin p <= length s /\
  (if bHaveFileSep s
   then extBegin p = S (fileEnd p) /\ at_ s (fileEnd p) = "."%char /\
        lastFileSep s = Some (fileEnd p) /\
        (bHaveDirSep s = true -> dirEnd p <= fileEnd p)
   else fileEnd p = length s /\ extBegin p = length s).
Proof.
  destruct fs as [s]. simpl.
  unfold bHaveVolSep, bHaveFileSep, bHaveDirSep, lastDirSep, lastFileSep.
  repeat split.
  - destruct (firstVolSep_cases s) as [(-> & _)|(-> & _)]; reflexivity.
  - destruct (firstVolSep_cases s) as [(-> & H & _)|(-> & _)]; simpl; lia.
  - destruct (rfind "\" s) as [d|] eqn:D.
    + apply rfind_Some in D. destruct D as (D & _). lia.
    + destruct (firstVolSep_cases s) as [(-> & H & _)|(-> & _)]; simpl; lia.
  - destruct (rfind "." s) as [f|] eqn:F; [|lia].
    destruct (rfind "\" s) as [d|] eqn:D; [destruct (d <? f)|]; lia.
  - destruct (rfind "." s) as [f|] eqn:F; [|lia].
    apply rfind_Some in F. destruct F as (F & _).
    destruct (rfind "\" s) as [d|] eqn:D; [destruct (d <? f)|]; lia.
  - destruct (rfind "." s) as [f|] eqn:F.
    + pose proof (rfind_Some _ _ _ F) as (Hf & Hc & _).
      destruct (rfind "\" s) as [d|] eqn:D.
      * destruct (d <? f) eqn:L.
        -- apply Nat.ltb_lt in L.
           split; [lia|]. split; [exact Hc|]. split; [reflexivity|].
           intros _. lia.
        -- split; reflexivity.
      * split; [lia|]. split; [exact Hc|]. split; [reflexivity|].
        simpl. discriminate.
    + split; reflexivity.
Qed.

Lemma Split4_ordered (fs : FileSpec) :
  ordered fs ->
  let p := ParseSpec fs in
  let s := mFileSpec fs in
  Split4 fs = Some (sub s 0 (volEnd p), sub s (volEnd p) (dirEnd p),
                    sub s (dirEnd p) (fileEnd p), sub s (extBegin p) (length s)).
Proof.
  intros [H1 H2] p s.
  pose proof (ParseSpec_bounds fs) as (B1 & B2 & B3 & B4 & _ & B5 & B6 & B7 & B8 & _).
  fold p s in B1, B2, B3, B4, B5, B6, B7, B8.
  unfold Split4. fold p s. rewrite B1, B2, B3, B4.
  rewrite (range_Some s 0 (volEnd p)) by lia.
  rewrite (range_Some s (volEnd p) (dirEnd p)) by exact H1.
  rewrite (range_Some s (dirEnd p) (fileEnd p)) by exact H2.
  rewrite (range_Some s (extBegin p) (length s)) by exact B8.
  reflexivity.
Qed.

Lemma Split4_inv (fs : FileSpec) (v d f e : str) :
  Split4 fs = Some (v, d, f, e) -> ordered fs.
Proof.
  pose proof (ParseSpec_bounds fs) as (B1 & B2 & B3 & _).
  unfold Split4, ordered, obind.
  destruct (range _ (volBegin _) _) as [v'|]; [|discriminate].
  destruct (range _ (dirBegin _) _) as [d'|] eqn:D; [|discriminate].
  destruct (range _ (fileBegin _) (fileEnd _)) as [f'|] eqn:F; [|discriminate].
  intros _. apply range_inv in D, F. rewrite B2 in D. rewrite B3 in F.
  split; [apply D | apply F].
Qed.

Lemma Split3_defined (fs : FileSpec) :
  volEnd (ParseSpec fs) <= dirEnd (ParseSpec fs) ->
  let p := ParseSpec fs in
  let s := mFileSpec fs in
  Split3 fs = Some (sub s 0 (volEnd p), sub s (volEnd p) (dirEnd p),
                    sub s (dirEnd p) (length s)).
Proof.
  intros H1 p s.
  pose proof (ParseSpec_bounds fs) as (B1 & B2 & B3 & B4 & _ & B5 & B6 & _).
  fold p s in B1, B2, B3, B4, B5, B6.
  unfold Split3. fold p s. rewrite B1, B2, B3, B4.
  rewrite (range_Some s 0 (volEnd p)) by lia.
  rewrite (range_Some s (volEnd p) (dirEnd p)) by exact H1.
  rewrite (range_Some s (dirEnd p) (length s)) by exact B6.
  reflexivity.
Qed.

Lemma Split3_inv (fs : FileSpec) (v d f : str) :
  Split3 fs = Some (v, d, f) ->
  let p := ParseSpec fs in
  let s := mFileSpec fs in
  volEnd p <= dirEnd p /\
  v = sub s 0 (volEnd p) /\ d = sub s (volEnd p) (dirEnd p) /\
  f = sub s (dirEnd p) (length s).
Proof.
  intros H p s.
  assert (L : volEnd p <= dirEnd p).
  { pose proof (ParseSpec_bounds fs) as (B1 & B2 & _).
    unfold Split3, obind in H.
    destruct (range _ (volBegin _) _); [|discriminate].
    destruct (range _ (dirBegin _) _) eqn:D; [|discriminate].
    apply range_inv in D. rewrite B2 in D. apply D. }
  split; [exact L|].
  rewrite (Split3_defined fs L) in H. fold p s in H.
  injection H as <- <- <-. repeat split.
Qed.

(** ** What [Split] returns *)

Lemma at_sub (s : str) (a b i : nat) :
  i < b - a -> at_ (sub s a b) i = at_ s (a + i).
Proof.
  intros H. unfold at_, sub. rewrite nth_firstn.
  apply Nat.ltb_lt in H. rewrite H. apply nth_skipn.
Qed.

Lemma sub_nil_iff (s : str) (a b : nat) :
  a <= b -> b <= length s -> (sub s a b = [] <-> a = b).
Proof.
  intros Hab Hb. split; intros H.
  - pose proof (sub_length s a b Hab Hb) as L. rewrite H in L. simpl in L. lia.
  - subst b. apply sub_same.
Qed.

Lemma Split3_undefined (fs : FileSpec) :
  dirEnd (ParseSpec fs) < volEnd (ParseSpec fs) -> Split3 fs = None.
Proof.
  intros H. destruct (Split3 fs) as [[[v d] f]|] eqn:E; [|reflexivity].
  apply Split3_inv in E. lia.
Qed.

Lemma Split3_app (fs : FileSpec) (v d f : str) :
  Split3 fs = Some (v, d, f) -> v ++ d ++ f = mFileSpec fs.
Proof.
  intros H. apply Split3_inv in H. destruct H as (L & -> & -> & ->).
  pose proof (ParseSpec_bounds fs) as (_ & _ & _ & _ & _ & _ & B & _).
  rewrite (sub_app _ _ _ _ L B).
  rewrite sub_app by lia. apply sub_full.
Qed.

(** The volume is the first two characters when the second one is the colon,
    and nothing otherwise. *)
Lemma vol_span (s : str) :
  let v := sub s 0 (volEnd (ParseSpec (mkFileSpec s))) in
  (bHaveVolSep s = true /\ 1 < length s /\ at_ s 1 = ":"%char /\
   v = firstn 2 s /\ length v = 2 /\ at_ v 0 = at_ s 0 /\ at_ v 1 = ":"%char) \/
  (bHaveVolSep s = false /\ ~ (1 < length s /\ at_ s 1 = ":"%char) /\ v = []).
Proof.
  pose proof (ParseSpec_bounds (mkFileSpec s)) as (_ & _ & _ & _ & B & _).
  change (mFileSpec (mkFileSpec s)) with s in B. cbv zeta. rewrite B.
  unfold bHaveVolSep.
  destruct (firstVolSep_cases s) as [(-> & L & C)|(-> & N)]; simpl isSome; cbv iota.
  - left. split; [reflexivity|]. split; [exact L|]. split; [exact C|].
    split; [apply sub_prefix|]. split; [apply sub_length; lia|].
    split; rewrite at_sub by lia; [reflexivity | exact C].
  - right. split; [reflexivity|]. split; [exact N | reflexivity].
Qed.

(** ** Validated specs *)

Section Validated.

Context {CU : CharUtil}.

(** [Validate] passes exactly when the directory span is not reversed, the
    letter check of a volume passes and both name checks pass; its other
    assertions cannot fail. *)
Lemma Validate_iff (fs : FileSpec) :
  let p := ParseSpec fs in
  let s := mFileSpec fs in
  Validate fs = Some tt <->
  volEnd p <= dirEnd p /\
  (bHaveVolSep s = true -> IsAlpha (at_ s 0) = true) /\
  IsGoodFileName (sub s (volEnd p) (dirEnd p)) = true /\
  IsGoodFileName (sub s (dirEnd p) (length s)) = true.
Proof.
  intros p s. unfold Validate.
  destruct (le_lt_dec (volEnd p) (dirEnd p)) as [L|L].
  2:{ rewrite (Split3_undefined fs L). cbn [obind].
      split; [discriminate | intros (H & _); lia]. }
  pose proof (Split3_app fs _ _ _ (Split3_defined fs L)) as App.
  rewrite (Split3_defined fs L). fold p s in App |- *. cbn [obind].
  rewrite App.
  replace (str_eqb s s) with true by (symmetry; apply str_eqb_eq; reflexivity).
  destruct fs as [s0]. simpl in s. subst s.
  destruct (vol_span s0) as [(HV & _ & _ & _ & Len & A0 & A1)|(HV & _ & E)];
    fold p in Len, A0, A1 || fold p in E.
  - assert (NE : empty (sub s0 0 (volEnd p)) = false).
    { destruct (sub s0 0 (volEnd p)); [discriminate Len | reflexivity]. }
    rewrite NE, Len, A0, A1. simpl negb. cbv iota. simpl (2 =? 2). simpl (Ascii.eqb _ _).
    cbn [assert obind].
    destruct (IsAlpha (at_ s0 0)); cbn [assert obind].
    + destruct (IsGoodFileName (sub s0 (volEnd p) (dirEnd p))); cbn [assert obind].
      * destruct (IsGoodFileName (sub s0 (dirEnd p) (length s0))); cbn [assert obind].
        -- split; [intros _; repeat split; auto | reflexivity].
        -- split; [discriminate | intros (_ & _ & _ & H); discriminate H].
      * split; [discriminate | intros (_ & _ & H & _); discriminate H].
    + split; [discriminate | intros (_ & H & _); specialize (H HV); discriminate H].
  - rewrite E. cbn [empty negb obind].
    destruct (IsGoodFileName (sub s0 (volEnd p) (dirEnd p))); cbn [assert obind].
    + destruct (IsGoodFileName (sub s0 (dirEnd p) (length s0))); cbn [assert obind].
      * split; [intros _; repeat split; auto | reflexivity].
        rewrite HV. discriminate.
      * split; [discriminate | intros (_ & _ & _ & H); discriminate H].
    + split; [discriminate | intros (_ & _ & H & _); discriminate H].
Qed.

Lemma FileSpec1_inv (P : str) (fs : FileSpec) :
  FileSpec1 P = Some fs -> fs = mkFileSpec P /\ Validate fs = Some tt.
Proof.
  unfold FileSpec1. destruct (Validate (mkFileSpec P)) as [[]|] eqn:V; simpl;
    [|discriminate].
  intros H. injection H as <-. split; [reflexivity | exact V].
Qed.

(** A validated spec has its parse points in order, when the letter check
    rejects the extension separator. *)
Lemma Validate_ordered (fs : FileSpec) :
  IsAlpha "." = false -> Validate fs = Some tt -> ordered fs.
Proof.
  intros Hdot V. apply Validate_iff in V. destruct V as (L & HA & _).
  split; [exact L|].
  pose proof (ParseSpec_bounds fs) as (_ & _ & _ & _ & VE & _ & DE & _ & EB & F).
  destruct (bHaveFileSep (mFileSpec fs)) eqn:HF; [|destruct F as (-> & _); exact DE].
  destruct F as (EBS & Cdot & LF & HD).
  destruct (bHaveDirSep (mFileSpec fs)) eqn:HDS; [apply HD; reflexivity|].
  (* no directory separator: the directory span is empty *)
  assert (DV : dirEnd (ParseSpec fs) = volEnd (ParseSpec fs)).
  { unfold bHaveDirSep in HDS. destruct fs as [s]. simpl in *.
    destruct (lastDirSep s); [discriminate HDS | reflexivity]. }
  rewrite DV, VE.
  destruct (bHaveVolSep (mFileSpec fs)) eqn:HV; [|lia].
  specialize (HA eq_refl).
  destruct (vol_span (mFileSpec fs)) as [(_ & _ & C1 & _)|(HV' & _)];
    [|congruence].
  destruct (fileEnd (ParseSpec fs)) as [|[|n]] eqn:FE; [| |lia].
  - rewrite Cdot in HA. congruence.
  - rewrite Cdot in C1. discriminate C1.
Qed.

End Validated.

(** ** The extension separator *)

Lemma bHaveFileSep_iff (s : str) : bHaveFileSep s = true <-> has_ext_sep s.
Proof.
  unfold bHaveFileSep, has_ext_sep, lastFileSep, lastDirSep. split.
  - destruct (rfind "." s) as [f|] eqn:F; [|discriminate].
    intros H. exists f. split; [apply rfind_Some; exact F|].
    intros d Hd. apply rightmost_rfind in Hd. rewrite Hd in H.
    apply Nat.ltb_lt. exact H.
  - intros (f & Hf & Hd). rewrite (rightmost_rfind _ _ _ Hf).
    destruct (rfind "\" s) as [d|] eqn:D; [|reflexivity].
    apply Nat.ltb_lt. apply Hd. apply rfind_Some. exact D.
Qed.

Lemma lastFileSep_iff (s : str) (f : nat) :
  lastFileSep s = Some f <-> rightmost "." s f.
Proof.
  unfold lastFileSep. split; [apply rfind_Some | apply rightmost_rfind].
Qed.

(** The file part is the stem, followed by the separator and the extension
    when the parse found a separator. *)
Lemma file_span (fs : FileSpec) :
  ordered fs ->
  let p := ParseSpec fs in
  let s := mFileSpec fs in
  sub s (dirEnd p) (length s) =
  sub s (dirEnd p) (fileEnd p) ++
  (if bHaveFileSep s then "."%char :: sub s (extBegin p) (length s) else []).
Proof.
  intros [H1 H2] p s. fold p in H1, H2.
  pose proof (ParseSpec_bounds fs) as (_ & _ & _ & _ & _ & _ & _ & FE & EB & F).
  fold p s in FE, EB, F.
  destruct (bHaveFileSep s).
  - destruct F as (E & C & _). 
    assert (L : fileEnd p < length s) by lia.
    change ("."%char :: sub s (extBegin p) (length s))
      with (["."%char] ++ sub s (extBegin p) (length s)).
    rewrite <- C, <- (sub_one s _ L), E.
    rewrite sub_app by lia. rewrite sub_app by lia. reflexivity.
  - destruct F as (-> & _). rewrite app_nil_r. reflexivity.
Qed.

Lemma parts_app (fs : FileSpec) :
  ordered fs ->
  let p := ParseSpec fs in
  let s := mFileSpec fs in
  sub s 0 (volEnd p) ++ sub s (volEnd p) (dirEnd p) ++
  sub s (dirEnd p) (fileEnd p) ++
  (if bHaveFileSep s then "."%char :: sub s (extBegin p) (length s) else []) = s.
Proof.
  intros O p s. pose proof (file_span fs O) as FS. cbv zeta in FS.
  fold p s in FS. rewrite <- FS.
  destruct O as [H1 H2].
  pose proof (ParseSpec_bounds fs) as (_ & _ & _ & _ & _ & _ & B & _).
  fold p s in B, H1, H2.
  rewrite sub_app by lia. rewrite sub_app by lia. apply sub_full.
Qed.

Lemma GetFile_defined (fs : FileSpec) :
  GetFile fs =
  Some (sub (mFileSpec fs) (dirEnd (ParseSpec fs)) (length (mFileSpec fs))).
Proof.
  pose proof (ParseSpec_bounds fs) as (_ & _ & B3 & B4 & _ & _ & B & _).
  unfold GetFile. rewrite B3, B4. apply range_Some. exact B.
Qed.

Lemma GetExtension_defined (fs : FileSpec) :
  GetExtension fs =
  Some (sub (mFileSpec fs) (extBegin (ParseSpec fs)) (length (mFileSpec fs))).
Proof.
  pose proof (ParseSpec_bounds fs) as (_ & _ & _ & B4 & _ & _ & _ & _ & B & _).
  unfold GetExtension. rewrite B4. apply range_Some. exact B.
Qed.

Lemma GetVol_defined (fs : FileSpec) :
  GetVol fs = Some (sub (mFileSpec fs) 0 (volEnd (ParseSpec fs))).
Proof.
  pose proof (ParseSpec_bounds fs) as (B1 & _).
  unfold GetVol. rewrite B1. apply range_Some. lia.
Qed.

Lemma GetFileNoExtension_ordered (fs : FileSpec) :
  ordered fs ->
  GetFileNoExtension fs =
  Some (sub (mFileSpec fs) (dirEnd (ParseSpec fs)) (fileEnd (ParseSpec fs))).
Proof.
  intros [_ H]. pose proof (ParseSpec_bounds fs) as (_ & _ & B3 & _).
  unfold GetFileNoExtension. rewrite B3. apply range_Some. exact H.
Qed.

(** A path that ends in the extension separator has that separator as its
    valid one, with nothing after it. *)
Lemma ends_in_dot_sep (s : str) :
  ends_in_dot s ->
  bHaveFileSep s = true /\ extBegin (ParseSpec (mkFileSpec s)) = length s.
Proof.
  intros (q & ->).
  assert (R : rightmost "." (q ++ ["."%char]) (length q)).
  { unfold rightmost, at_. rewrite length_app. simpl.
    split; [lia|]. split; [apply nth_middle|]. intros j H1 H2. lia. }
  assert (HF : bHaveFileSep (q ++ ["."%char]) = true).
  { apply bHaveFileSep_iff. exists (length q). split; [exact R|].
    intros d (Hd & Cd & _). rewrite length_app in Hd. simpl in Hd.
    assert (d <> length q); [|lia].
    intros ->. unfold at_ in Cd. rewrite nth_middle in Cd. discriminate Cd. }
  split; [exact HF|].
  pose proof (ParseSpec_bounds (mkFileSpec (q ++ ["."%char])))
    as (_ & _ & _ & _ & _ & _ & _ & _ & _ & F).
  change (mFileSpec (mkFileSpec (q ++ ["."%char]))) with (q ++ ["."%char]) in F.
  rewrite HF in F. destruct F as (E & _ & LF & _).
  apply lastFileSep_iff in LF.
  rewrite E, (rightmost_unique _ _ _ _ LF R), length_app. simpl. lia.
Qed.

(** ** Round trip (C1) *)

(** C1, as the specification states it, fails: the path [file.] is accepted
    by [Validate], its parts are an empty volume, an empty directory, the
    stem [file] and an empty extension, and reassembling them with the
    separator written only before a non-empty extension gives [file]. *)
Lemma reassemble_trailing_dot_counterexample :
  let P := lit "file." in
  FileSpec1 (CU := ascii_CharUtil) P = Some (mkFileSpec P) /\
  Split4 (mkFileSpec P) = Some ([], [], lit "file", []) /\
  reassemble [] [] (lit "file") [] <> P.
Proof.
  cbv zeta. split; [vm_compute; reflexivity|].
  split; [vm_compute; reflexivity|].
  vm_compute. discriminate.
Qed.

(** C1 (amended): for every path [P] held by a FileSpec, the four parts of
    [Split] followed, in order, with the separator written whenever the parse
    found a valid extension separator, give [P] back; the reassembly that
    writes the separator only before a non-empty extension gives [P] back
    exactly when [P] does not end in the separator. *)
Theorem split_parts_reassemble {CU : CharUtil} (P : str) (fs : FileSpec) :
  IsAlpha "." = false ->
  FileSpec1 P = Some fs ->
  exists vol dir stem ext,
    Split4 fs = Some (vol, dir, stem, ext) /\
    vol ++ dir ++ stem ++ (if bHaveFileSep P then "."%char :: ext else []) = P /\
    (reassemble vol dir stem ext = P <-> ~ ends_in_dot P).
Proof.
  intros Hdot HP. apply FileSpec1_inv in HP. destruct HP as (-> & V).
  pose proof (Validate_ordered _ Hdot V) as O.
  pose proof (Split4_ordered _ O) as S4. cbv zeta in S4.
  pose proof (parts_app _ O) as PA. cbv zeta in PA.
  change (mFileSpec (mkFileSpec P)) with P in S4, PA.
  set (p := ParseSpec (mkFileSpec P)) in *.
  exists (sub P 0 (volEnd p)), (sub P (volEnd p) (dirEnd p)),
         (sub P (dirEnd p) (fileEnd p)), (sub P (extBegin p) (length P)).
  split; [exact S4|]. split; [exact PA|].
  pose proof (ParseSpec_bounds (mkFileSpec P))
    as (_ & _ & _ & _ & _ & _ & _ & _ & EB & F).
  change (mFileSpec (mkFileSpec P)) with P in EB, F. fold p in EB, F.
  unfold reassemble.
  destruct (bHaveFileSep P) eqn:HF.
  - destruct (empty (sub P (extBegin p) (length P))) eqn:EE.
    + (* the separator is the last character *)
      apply empty_true in EE. rewrite EE in PA.
      split.
      * intros H. exfalso. rewrite <- PA in H at 4.
        apply (f_equal (@length ascii)) in H.
        repeat rewrite length_app in H. simpl in H. lia.
      * intros N. exfalso. apply N.
        exists (sub P 0 (volEnd p) ++ sub P (volEnd p) (dirEnd p) ++
                sub P (dirEnd p) (fileEnd p)).
        rewrite <- PA at 1. repeat rewrite <- app_assoc. reflexivity.
    + split; [|intros _; exact PA].
      intros _ D. apply ends_in_dot_sep in D. destruct D as (_ & D).
      fold p in D. rewrite D, sub_same in EE. discriminate EE.
  - destruct F as (_ & ->). rewrite sub_same in *. simpl.
    split; [|intros _; exact PA].
    intros _ D. apply ends_in_dot_sep in D. destruct D as (D & _). congruence.
Qed.

Lemma split_parts_reassemble_witness :
  exists vol dir stem ext,
    Split4 (mkFileSpec (lit "a:\dir\file.ext")) = Some (vol, dir, stem, ext) /\
    vol ++ dir ++ stem ++
      (if bHaveFileSep (lit "a:\dir\file.ext") then "."%char :: ext else [])
      = lit "a:\dir\file.ext" /\
    (reassemble vol dir stem ext = lit "a:\dir\file.ext" <->
     ~ ends_in_dot (lit "a:\dir\file.ext")).
Proof.
  apply (split_parts_reassemble (CU := ascii_CharUtil) (lit "a:\dir\file.ext")
           (mkFileSpec (lit "a:\dir\file.ext")));
    vm_compute; reflexivity.
Defined.

(** ** The extension separator (C2) *)

(** C2: the separator that [ParseSpec] looks at is the last [.] of the
    string; it counts exactly when no directory separator follows it; the
    stem then ends before it and the extension begins after it, and without
    it the stem runs to the end of the string.  The two paths of the
    specification split as it says. *)
Theorem extension_separator_is_last_dot :
  (forall s f, lastFileSep s = Some f <-> rightmost "." s f) /\
  (forall s d, lastDirSep s = Some d <-> rightmost "\" s d) /\
  (forall s, bHaveFileSep s = true <-> has_ext_sep s) /\
  (forall s,
     let p := ParseSpec (mkFileSpec s) in
     if bHaveFileSep s
     then rightmost "." s (fileEnd p) /\ extBegin p = S (fileEnd p)
     else fileEnd p = length s /\ extBegin p = length s) /\
  Split4 (mkFileSpec (lit "dir.ext\file.ext"))
    = Some ([], lit "dir.ext\", lit "file", lit "ext") /\
  Split4 (mkFileSpec (lit "file.ex.longext"))
    = Some ([], [], lit "file.ex", lit "longext").
Proof.
  split; [exact lastFileSep_iff|].
  split.
  { intros s d. unfold lastDirSep.
    split; [apply rfind_Some | apply rightmost_rfind]. }
  split; [exact bHaveFileSep_iff|].
  split.
  { intros s p.
    pose proof (ParseSpec_bounds (mkFileSpec s))
      as (_ & _ & _ & _ & _ & _ & _ & _ & _ & F).
    change (mFileSpec (mkFileSpec s)) with s in F. fold p in F.
    destruct (bHaveFileSep s).
    - destruct F as (E & _ & LF & _). split; [|exact E].
      apply lastFileSep_iff. exact LF.
    - exact F. }
  split; vm_compute; reflexivity.
Qed.

(** ** The volume (C4) *)

(** C4: the volume of a path is never undefined; it is the first two
    characters when the second character is the colon and empty otherwise,
    so it is non-empty exactly in the first case, and [Split] returns the
    same volume; the path [a:] has the volume [a:] and nothing else. *)
Theorem volume_is_two_characters_before_colon :
  (forall s,
     GetVol (mkFileSpec s)
     = Some (if (1 <? length s) && Ascii.eqb (at_ s 1) ":"
             then firstn 2 s else []) /\
     (GetVol (mkFileSpec s) <> Some [] <-> 1 < length s /\ at_ s 1 = ":"%char) /\
     (forall v d f e,
        Split4 (mkFileSpec s) = Some (v, d, f, e) ->
        GetVol (mkFileSpec s) = Some v)) /\
  Split4 (mkFileSpec (lit "a:")) = Some (lit "a:", [], [], []).
Proof.
  split; [|vm_compute; reflexivity].
  intros s.
  assert (G : GetVol (mkFileSpec s)
              = Some (if (1 <? length s) && Ascii.eqb (at_ s 1) ":"
                      then firstn 2 s else [])).
  { rewrite GetVol_defined. change (mFileSpec (mkFileSpec s)) with s.
    f_equal.
    destruct (vol_span s) as [(_ & L & C & E & _)|(_ & N & E)]; cbv zeta in E;
      rewrite E.
    - apply Nat.ltb_lt in L. rewrite L, C. reflexivity.
    - destruct (1 <? length s) eqn:L; [|reflexivity].
      destruct (Ascii.eqb (at_ s 1) ":") eqn:C; [|reflexivity].
      exfalso. apply N. apply Nat.ltb_lt in L. apply Ascii.eqb_eq in C. auto. }
  split; [exact G|]. split.
  - rewrite G. split.
    + intros H. destruct (1 <? length s) eqn:L; [|simpl in H; congruence].
      destruct (Ascii.eqb (at_ s 1) ":") eqn:C; [|simpl in H; congruence].
      apply Nat.ltb_lt in L. apply Ascii.eqb_eq in C. auto.
    + intros (L & C). pose proof L as L'. apply Nat.ltb_lt in L'.
      rewrite L', C. simpl. destruct s as [|a [|b s]]; simpl in L; try lia.
      simpl. discriminate.
  - intros v d f e H. unfold Split4 in H. unfold GetVol.
    destruct (range _ (volBegin _) _) as [v'|]; cbn [obind] in H; [|discriminate].
    destruct (range _ (dirBegin _) _) as [d'|]; cbn [obind] in H; [|discriminate].
    destruct (range _ (fileBegin _) _) as [f'|]; cbn [obind] in H; [|discriminate].
    destruct (range _ (extBegin _) _) as [e'|]; cbn [obind] in H; [|discriminate].
    congruence.
Qed.

(** ** Classification (C3) *)

(** C3, as the specification states it, fails: the path [.gitignore] is
    accepted by [Validate] and has an empty stem, and [IsFile] is true of it;
    the path [dir\.] has an empty stem, an empty extension and a directory,
    and [IsFolder] is false of it. *)
Lemma classification_counterexample :
  let P := lit ".gitignore" in
  let Q := lit "dir\." in
  (FileSpec1 (CU := ascii_CharUtil) P = Some (mkFileSpec P) /\
   Split4 (mkFileSpec P) = Some ([], [], [], lit "gitignore") /\
   IsFile (mkFileSpec P) = Some true) /\
  (FileSpec1 (CU := ascii_CharUtil) Q = Some (mkFileSpec Q) /\
   Split4 (mkFileSpec Q) = Some ([], lit "dir\", [], []) /\
   IsFolder (mkFileSpec Q) = Some false).
Proof.
  cbv zeta. repeat split; vm_compute; reflexivity.
Qed.

(** C3 (amended): for every FileSpec, [IsFolder] and [IsFile] return; they
    look at the file part with its extension, which is what [GetFile]
    returns.  [IsFolder] is true iff that part is empty and the volume or the
    directory is not; [IsFile] is true iff that part is not empty; and that
    part is empty iff the stem is empty and the path has no valid extension
    separator.  Both are false of the empty path, validated or not. *)
Theorem classification_by_file_part {CU : CharUtil} (P : str) (fs : FileSpec) :
  IsAlpha "." = false ->
  FileSpec1 P = Some fs ->
  (exists vol dir stem ext file,
     Split4 fs = Some (vol, dir, stem, ext) /\
     GetFile fs = Some file /\
     IsFolder fs = Some (empty file && (negb (empty vol) || negb (empty dir))) /\
     IsFile fs = Some (negb (empty file)) /\
     (file = [] <-> stem = [] /\ ~ has_ext_sep P)) /\
  IsFolder (mkFileSpec []) = Some false /\ IsFile (mkFileSpec []) = Some false.
Proof.
  intros Hdot HP. apply FileSpec1_inv in HP. destruct HP as (-> & V).
  pose proof (Validate_ordered _ Hdot V) as O.
  pose proof (Split4_ordered _ O) as S4. cbv zeta in S4.
  pose proof (Split3_defined _ (proj1 O)) as S3. cbv zeta in S3.
  pose proof (file_span _ O) as FS. cbv zeta in FS.
  change (mFileSpec (mkFileSpec P)) with P in S4, S3, FS.
  set (p := ParseSpec (mkFileSpec P)) in *.
  split.
  - exists (sub P 0 (volEnd p)), (sub P (volEnd p) (dirEnd p)),
           (sub P (dirEnd p) (fileEnd p)), (sub P (extBegin p) (length P)),
           (sub P (dirEnd p) (length P)).
    split; [exact S4|]. split; [apply GetFile_defined|].
    unfold IsFolder, IsFile. rewrite S3. cbn [obind].
    split.
    { destruct (empty (sub P (dirEnd p) (length P))); reflexivity. }
    split; [reflexivity|].
    rewrite FS. rewrite <- bHaveFileSep_iff.
    destruct (bHaveFileSep P).
    + split.
      * intros H. apply app_eq_nil in H. destruct H as (_ & H). discriminate H.
      * intros (_ & H). exfalso. apply H. reflexivity.
    + rewrite app_nil_r. split; [intros H; split; [exact H | discriminate]|].
      intros (H & _). exact H.
  - split; reflexivity.
Qed.

Lemma classification_by_file_part_witness :
  (exists vol dir stem ext file,
     Split4 (mkFileSpec (lit "a:\dir\")) = Some (vol, dir, stem, ext) /\
     GetFile (mkFileSpec (lit "a:\dir\")) = Some file /\
     IsFolder (mkFileSpec (lit "a:\dir\"))
       = Some (empty file && (negb (empty vol) || negb (empty dir))) /\
     IsFile (mkFileSpec (lit "a:\dir\")) = Some (negb (empty file)) /\
     (file = [] <-> stem = [] /\ ~ has_ext_sep (lit "a:\dir\"))) /\
  IsFolder (mkFileSpec []) = Some false /\ IsFile (mkFileSpec []) = Some false.
Proof.
  apply (classification_by_file_part (CU := ascii_CharUtil) (lit "a:\dir\")
           (mkFileSpec (lit "a:\dir\")));
    vm_compute; reflexivity.
Defined.

(** ** Construction from parts (C5) *)

(** C5: the constructor tests the last character of [ext], not its first
    one.  From the parts [file] and [.txt] it assembles [file..txt], which
    [Validate] accepts, where the claim asks for [file.txt]; from [file] and
    [txt.] it assembles [filetxt.], where the claim asks for [file.txt.]. *)
Theorem extension_separator_test_reads_last_character :
  join4 [] [] (lit "file") (lit ".txt") = lit "file..txt" /\
  FileSpec4 (CU := ascii_CharUtil) [] [] (lit "file") (lit ".txt")
    = Some (mkFileSpec (lit "file..txt")) /\
  join4 [] [] (lit "file") (lit "txt.") = lit "filetxt." /\
  FileSpec4 (CU := ascii_CharUtil) [] [] (lit "file") (lit "txt.")
    = Some (mkFileSpec (lit "filetxt.")).
Proof.
  repeat split; vm_compute; reflexivity.
Qed.

(** ** File, stem and extension (C10) *)

(** C10: for every FileSpec the three queries return; when the path has a
    valid extension separator, [GetFile] is the stem, the separator and the
    extension, also when the extension is empty; when it has none, [GetFile]
    is the stem. *)
Theorem file_is_stem_dot_extension {CU : CharUtil} (P : str) (fs : FileSpec) :
  IsAlpha "." = false ->
  FileSpec1 P = Some fs ->
  exists stem ext file,
    GetFileNoExtension fs = Some stem /\
    GetExtension fs = Some ext /\
    GetFile fs = Some file /\
    (has_ext_sep P -> file = stem ++ "."%char :: ext) /\
    (~ has_ext_sep P -> file = stem).
Proof.
  intros Hdot HP. apply FileSpec1_inv in HP. destruct HP as (-> & V).
  pose proof (Validate_ordered _ Hdot V) as O.
  pose proof (file_span _ O) as FS. cbv zeta in FS.
  change (mFileSpec (mkFileSpec P)) with P in FS.
  exists (sub P (dirEnd (ParseSpec (mkFileSpec P)))
                (fileEnd (ParseSpec (mkFileSpec P)))),
         (sub P (extBegin (ParseSpec (mkFileSpec P))) (length P)),
         (sub P (dirEnd (ParseSpec (mkFileSpec P))) (length P)).
  split; [apply (GetFileNoExtension_ordered _ O)|].
  split; [apply GetExtension_defined|].
  split; [apply GetFile_defined|].
  rewrite FS. rewrite <- bHaveFileSep_iff.
  destruct (bHaveFileSep P).
  - split; [reflexivity | intros H; exfalso; apply H; reflexivity].
  - split; [discriminate | intros _; apply app_nil_r].
Qed.

Lemma file_is_stem_dot_extension_witness :
  exists stem ext file,
    GetFileNoExtension (mkFileSpec (lit "file.")) = Some stem /\
    GetExtension (mkFileSpec (lit "file.")) = Some ext /\
    GetFile (mkFileSpec (lit "file.")) = Some file /\
    (has_ext_sep (lit "file.") -> file = stem ++ "."%char :: ext) /\
    (~ has_ext_sep (lit "file.") -> file = stem).
Proof.
  apply (file_is_stem_dot_extension (CU := ascii_CharUtil) (lit "file.")
           (mkFileSpec (lit "file.")));
    vm_compute; reflexivity.
Defined.

(** ** Sequencing *)

Lemma bind_ret_l {A B : Type} (a : A) (k : A -> M B) : bind (ret a) k = k a.
Proof.
  unfold bind, ret. destruct (k a) as [t o]. reflexivity.
Qed.

Lemma bind_ret_r {A : Type} (m : M A) : bind m ret = m.
Proof.
  destruct m as [t [a| |]]; simpl; [rewrite app_nil_r|..]; reflexivity.
Qed.

Lemma bind_ret_tt (m : M unit) : bind m (fun _ => ret tt) = m.
Proof.
  destruct m as [t [[]| |]]; simpl; [rewrite app_nil_r|..]; reflexivity.
Qed.

Lemma bind_assoc {A B C : Type} (m : M A) (k : A -> M B) (h : B -> M C) :
  bind (bind m k) h = bind m (fun a => bind (k a) h).
Proof.
  destruct m as [t [a| |]]; simpl; try reflexivity.
  destruct (k a) as [t' [b| |]]; simpl; try reflexivity.
  destruct (h b) as [t'' o]. rewrite app_assoc. reflexivity.
Qed.

Lemma bind_ext {A B : Type} (m : M A) (k k' : A -> M B) :
  (forall a, k a = k' a) -> bind m k = bind m k'.
Proof.
  intros H. destruct m as [t [a| |]]; simpl; try reflexivity.
  rewrite H. reflexivity.
Qed.

Lemma bind_Returned {A B : Type} (m : M A) (k : A -> M B) (t : list Event) (b : B) :
  bind m k = (t, Returned b) ->
  exists a t1 t2, m = (t1, Returned a) /\ k a = (t2, Returned b) /\ t = t1 ++ t2.
Proof.
  destruct m as [t1 [a| |]]; simpl; try discriminate.
  destruct (k a) as [t2 o] eqn:K. intros H. injection H as <- ->.
  exists a, t1, t2. auto.
Qed.

Lemma lift_Returned {A : Type} (o : option A) (t : list Event) (a : A) :
  lift o = (t, Returned a) -> o = Some a /\ t = [].
Proof.
  destruct o; simpl; unfold ret; intros H; [|discriminate].
  injection H as <- <-. auto.
Qed.

(** ** The directory flag *)

Lemma land_pow2_testbit (f k : N) :
  negb (N.land f (2 ^ k) =? 0)%N = N.testbit f k.
Proof.
  destruct (N.testbit f k) eqn:T.
  - apply negb_true_iff. apply N.eqb_neq. intros H.
    assert (B : N.testbit (N.land f (2 ^ k)) k = true)
      by (rewrite N.land_spec, T, N.pow2_bits_true; reflexivity).
    rewrite H, N.bits_0 in B. discriminate B.
  - apply negb_false_iff. apply N.eqb_eq. apply N.bits_inj. intros n.
    rewrite N.land_spec, N.pow2_bits_eqb, N.bits_0.
    destruct (N.eqb_spec k n) as [<- | _]; [rewrite T; reflexivity|].
    apply andb_false_r.
Qed.

Lemma IsFolder_directory_flag (d : WIN32_FIND_DATAA) :
  FileAttrib.IsFolder (FileAttrib.of_find_data d) = directory_flag d.
Proof.
  unfold FileAttrib.IsFolder, FILE_ATTRIBUTE_DIRECTORY, directory_flag.
  exact (land_pow2_testbit (dwFileAttributes d) 4).
Qed.

(** ** The steps of the iterator *)

Section IteratorSteps.

Context {CU : CharUtil} {OS : Win32}.

Lemma store_spec_fields (i i' : FileItr) :
  FileItr.store_spec i = Some i' ->
  mpFindData i' = mpFindData i /\ mFindHandle i' = mFindHandle i /\
  mVol i' = mVol i /\ mDir i' = mDir i /\ mNetworkAvail i' = mNetworkAvail i.
Proof.
  unfold FileItr.store_spec.
  destruct (FileSpec3 _ _ _) as [tmp|]; cbn [obind]; [|discriminate].
  destruct (AssignSpec _ _) as [spec|]; cbn [obind]; [|discriminate].
  intros H. injection H as <-. repeat split.
Qed.

Lemma store_spec_valid (i : FileItr) :
  Validate (mkFileSpec (join3 (mVol i) (mDir i) (cFileName (mpFindData i))))
    = Some tt ->
  FileItr.store_spec i =
  Some (set_mSpec
          (mkFileSpec (join3 (mVol i) (mDir i) (cFileName (mpFindData i)))) i).
Proof.
  intros V. unfold FileItr.store_spec, FileSpec3, AssignSpec, Assign.
  rewrite V. cbn [obind mFileSpec]. rewrite V. reflexivity.
Qed.

Lemma Close_closed (i : FileItr) : mFindHandle (FileItr.Close i) = None.
Proof.
  unfold FileItr.Close. destruct (mFindHandle i) eqn:E; [reflexivity | exact E].
Qed.

Lemma SkipSpecialFolders_eq (inc : FileItr -> option FileItr) (i : FileItr) :
  FileItr.Exists i = true ->
  FileItr.SkipSpecialFolders inc i =
  if FileAttrib.IsFolder (FileAttrib.of_find_data (mpFindData i))
     && name_test (cFileName (mpFindData i))
  then inc i else Some i.
Proof.
  intros E. unfold FileItr.SkipSpecialFolders, FileItr.GetAttrib, name_test.
  rewrite E. cbn [assert obind].
  destruct (FileAttrib.IsFolder _); cbn [negb andb]; [|reflexivity].
  destruct (Ascii.eqb (at_ _ 0) "."); [|reflexivity].
  destruct (Ascii.eqb (at_ _ 1) zero); [reflexivity|].
  destruct (Ascii.eqb (at_ _ 1) "." && Ascii.eqb (at_ _ 2) zero); reflexivity.
Qed.

Lemma special_name_test (name : str) :
  special_name name = true -> name_test name = true.
Proof.
  unfold special_name. intros H. apply orb_true_iff in H.
  destruct H as [H|H]; apply str_eqb_eq in H; subst name; reflexivity.
Qed.

Lemma os_name_In (name : str) (c : ascii) :
  os_name name = true -> In c name ->
  c <> "\"%char /\ c <> ":"%char /\ c <> zero.
Proof.
  unfold os_name. intros H I. rewrite forallb_forall in H.
  specialize (H c I). rewrite !andb_true_iff, !negb_true_iff in H.
  destruct H as ((H1 & H2) & H3).
  repeat split; apply Ascii.eqb_neq; assumption.
Qed.

Lemma name_test_special (name : str) :
  os_name name = true -> name_test name = true -> special_name name = true.
Proof.
  unfold name_test, special_name, at_. intros N T.
  destruct name as [|a [|b [|c r]]]; simpl in T.
  - discriminate T.
  - destruct (Ascii.eqb a ".") eqn:A; [|discriminate T].
    apply Ascii.eqb_eq in A. subst a. reflexivity.
  - destruct (Ascii.eqb a ".") eqn:A; [|discriminate T].
    apply Ascii.eqb_eq in A. subst a.
    destruct (Ascii.eqb b zero) eqn:B.
    + apply Ascii.eqb_eq in B. exfalso.
      apply (os_name_In _ b N); [simpl; auto | exact B].
    + destruct (Ascii.eqb b ".") eqn:B'; [|discriminate T].
      apply Ascii.eqb_eq in B'. subst b. reflexivity.
  - destruct (Ascii.eqb a ".") eqn:A; [|discriminate T].
    destruct (Ascii.eqb b zero) eqn:B.
    + apply Ascii.eqb_eq in B. exfalso.
      apply (os_name_In _ b N); [simpl; auto | exact B].
    + destruct (Ascii.eqb b ".") eqn:B'; [|discriminate T].
      simpl in T. apply Ascii.eqb_eq in T. exfalso.
      apply (os_name_In _ c N); [simpl; auto | exact T].
Qed.

End IteratorSteps.

(** ** The iterator never rests on [.] or [..] (C8) *)

Section NoSpecialFolder.

Context {CU : CharUtil} {OS : Win32}.

Lemma special_folder_false (d : WIN32_FIND_DATAA) :
  FileAttrib.IsFolder (FileAttrib.of_find_data d) && name_test (cFileName d)
    = false ->
  special_folder d = false.
Proof.
  unfold special_folder. intros H.
  destruct (FileAttrib.IsFolder _); [|reflexivity].
  destruct (special_name (cFileName d)) eqn:S; [|reflexivity].
  apply special_name_test in S. rewrite S in H. discriminate H.
Qed.

Lemma SkipSpecialFolders_no_special (inc : FileItr -> option FileItr)
    (i i' : FileItr) :
  (forall x y, inc x = Some y ->
     FileItr.Exists y = true -> special_folder (mpFindData y) = false) ->
  FileItr.SkipSpecialFolders inc i = Some i' ->
  FileItr.Exists i' = true -> special_folder (mpFindData i') = false.
Proof.
  intros Hinc H.
  destruct (FileItr.Exists i) eqn:E.
  - rewrite (SkipSpecialFolders_eq inc i E) in H.
    destruct (FileAttrib.IsFolder _ && name_test _) eqn:T.
    + intros E'. exact (Hinc _ _ H E').
    + injection H as <-. intros _. apply special_folder_false. exact T.
  - unfold FileItr.SkipSpecialFolders in H. rewrite E in H. discriminate H.
Qed.

Lemma advance_no_special (pending : list WIN32_FIND_DATAA) :
  forall i i', FileItr.advance pending i = Some i' ->
  FileItr.Exists i' = true -> special_folder (mpFindData i') = false.
Proof.
  induction pending as [|e pending IH]; intros i i' H.
  - simpl in H. injection H as <-. unfold FileItr.Exists.
    rewrite Close_closed. discriminate.
  - cbn [FileItr.advance] in H.
    destruct (FileItr.SkipSpecialFolders _ _) as [i2|] eqn:Sk;
      cbn [obind] in H; [|discriminate].
    apply store_spec_fields in H. destruct H as (D & Hd & _).
    unfold FileItr.Exists. rewrite D, Hd.
    apply (SkipSpecialFolders_no_special _ _ _ (IH) Sk).
Qed.

Lemma operator_inc_no_special (i i' : FileItr) :
  FileItr.operator_inc i = Some i' ->
  FileItr.Exists i' = true -> special_folder (mpFindData i') = false.
Proof.
  unfold FileItr.operator_inc.
  destruct (FileItr.Exists i); cbn [assert obind]; [|discriminate].
  destruct (mFindHandle i) as [pending|]; [|discriminate].
  apply advance_no_special.
Qed.

Lemma ctor_no_special (spec : FileSpec) (t : list Event) (i : FileItr) :
  FileItr.ctor spec = (t, Returned i) ->
  FileItr.Exists i = true -> special_folder (mpFindData i) = false.
Proof.
  unfold FileItr.ctor. intros H.
  apply bind_Returned in H. destruct H as ([b i0] & t1 & t2 & HI & HR & _).
  injection HR as _ ->.
  unfold FileItr.Init in HI.
  apply bind_Returned in HI. destruct HI as ([path fs] & t3 & t4 & _ & HI & _).
  apply bind_Returned in HI. destruct HI as ([] & t5 & t6 & _ & HI & _).
  destruct (FindFirstFileExA path) as [first pending|err].
  - apply bind_Returned in HI. destruct HI as (i1 & t7 & t8 & HS & HI & _).
    apply lift_Returned in HS. destruct HS as (HS & _).
    apply bind_Returned in HI. destruct HI as ([[vol dir] sFile] & t9 & t10 & _ & HI & _).
    apply bind_Returned in HI. destruct HI as (i2 & t11 & t12 & HST & HI & _).
    apply lift_Returned in HST. destruct HST as (HST & _).
    injection HI as _ _ <-.
    apply store_spec_fields in HST. destruct HST as (D & Hd & _).
    unfold FileItr.Exists. rewrite D, Hd. cbn [mpFindData mFindHandle set_mVolDir].
    apply (SkipSpecialFolders_no_special _ _ _ operator_inc_no_special HS).
  - injection HI as _ _ <-. unfold FileItr.Exists.
    destruct (err =? ERROR_BAD_NETPATH)%N; cbn; discriminate.
Qed.

(** The entry of an iterator and the entries to come on its handle are
    entries of the listing that the handle was opened on. *)
Lemma advance_from (L pending : list WIN32_FIND_DATAA) :
  forall i i', incl pending L -> FileItr.advance pending i = Some i' ->
  forall p, mFindHandle i' = Some p -> In (mpFindData i') L /\ incl p L.
Proof.
  induction pending as [|e pending IH]; intros i i' HL H p Hp.
  - simpl in H. injection H as <-. rewrite Close_closed in Hp. discriminate Hp.
  - cbn [FileItr.advance] in H.
    destruct (FileItr.SkipSpecialFolders _ _) as [i2|] eqn:Sk;
      cbn [obind] in H; [|discriminate].
    apply store_spec_fields in H. destruct H as (D & Hd & _).
    rewrite D. rewrite Hd in Hp.
    assert (HL' : incl pending L) by (intros x I; apply HL; right; exact I).
    rewrite SkipSpecialFolders_eq in Sk by reflexivity.
    destruct (_ && _) in Sk.
    + exact (IH _ _ HL' Sk p Hp).
    + injection Sk as <-. cbn in Hp |- *. injection Hp as <-.
      split; [apply HL; left; reflexivity | exact HL'].
Qed.

Lemma operator_inc_from (L : list WIN32_FIND_DATAA) (i i' : FileItr) :
  (forall p, mFindHandle i = Some p -> In (mpFindData i) L /\ incl p L) ->
  FileItr.operator_inc i = Some i' ->
  forall p, mFindHandle i' = Some p -> In (mpFindData i') L /\ incl p L.
Proof.
  intros HI. unfold FileItr.operator_inc.
  destruct (FileItr.Exists i); cbn [assert obind]; [|discriminate].
  destruct (mFindHandle i) as [pending|]; [|discriminate].
  apply advance_from. exact (proj2 (HI pending eq_refl)).
Qed.

Lemma ctor_from (spec : FileSpec) (t : list Event) (i : FileItr) :
  FileItr.ctor spec = (t, Returned i) ->
  exists path, forall p, mFindHandle i = Some p ->
    In (mpFindData i) (listing (FindFirstFileExA path)) /\
    incl p (listing (FindFirstFileExA path)).
Proof.
  unfold FileItr.ctor. intros H.
  apply bind_Returned in H. destruct H as ([b i0] & t1 & t2 & HI & HR & _).
  injection HR as _ ->.
  unfold FileItr.Init in HI.
  apply bind_Returned in HI. destruct HI as ([path fs] & t3 & t4 & _ & HI & _).
  apply bind_Returned in HI. destruct HI as ([] & t5 & t6 & _ & HI & _).
  exists path.
  destruct (FindFirstFileExA path) as [first pending|err].
  - apply bind_Returned in HI. destruct HI as (i1 & t7 & t8 & HS & HI & _).
    apply lift_Returned in HS. destruct HS as (HS & _).
    apply bind_Returned in HI. destruct HI as ([[vol dir] sFile] & t9 & t10 & _ & HI & _).
    apply bind_Returned in HI. destruct HI as (i2 & t11 & t12 & HST & HI & _).
    apply lift_Returned in HST. destruct HST as (HST & _).
    injection HI as _ _ <-.
    apply store_spec_fields in HST. destruct HST as (D & Hd & _).
    rewrite D, Hd. cbn [mpFindData mFindHandle set_mVolDir listing].
    rewrite SkipSpecialFolders_eq in HS by reflexivity.
    destruct (_ && _) in HS.
    + refine (operator_inc_from (first :: pending) _ _ _ HS).
      cbn. intros p Hp. injection Hp as <-.
      split; [left; reflexivity | intros x I; right; exact I].
    + injection HS as <-. cbn. intros p Hp. injection Hp as <-.
      split; [left; reflexivity | intros x I; right; exact I].
  - injection HI as _ _ <-.
    destruct (err =? ERROR_BAD_NETPATH)%N; cbn; discriminate.
Qed.

Lemma reachable_from (i : FileItr) :
  reachable i ->
  exists path, forall p, mFindHandle i = Some p ->
    In (mpFindData i) (listing (FindFirstFileExA path)) /\
    incl p (listing (FindFirstFileExA path)).
Proof.
  induction 1 as [spec t i H | i i' R IH H].
  - exact (ctor_from spec t i H).
  - destruct IH as (path & IH). exists path.
    exact (operator_inc_from _ _ _ IH H).
Qed.

Lemma reachable_no_special (i : FileItr) :
  reachable i -> FileItr.Exists i = true ->
  special_folder (mpFindData i) = false.
Proof.
  intros R E. destruct R as [spec t i H | i0 i R H].
  - exact (ctor_no_special spec t i H E).
  - exact (operator_inc_no_special i0 i H E).
Qed.

End NoSpecialFolder.

Lemma small_OS_dots_are_directories : @dots_are_directories small_OS.
Proof.
  intros path d. cbn [FindFirstFileExA small_OS].
  repeat (destruct (str_eqb path _));
    cbn [listing In]; intros I S;
    repeat (destruct I as [<- | I]; [try reflexivity; discriminate S|]);
    contradiction I.
Qed.

(** C8: on a file system that delivers [.] and [..] as directories, in every
    state of an iterator that a caller can get hold of, from the constructor
    or from [operator ++], in which the iterator has a current entry, the
    name of that entry is neither [.] nor [..]: at open time and after every
    advance the iterator has passed over the entries with these names before
    the caller sees it. *)
Theorem current_entry_is_never_dot_or_dotdot {CU : CharUtil} {OS : Win32}
    (i : FileItr) :
  dots_are_directories ->
  reachable i ->
  FileItr.Exists i = true ->
  cFileName (mpFindData i) <> lit "." /\ cFileName (mpFindData i) <> lit "..".
Proof.
  intros HD R E.
  pose proof (reachable_no_special i R E) as S.
  destruct (reachable_from i R) as (path & F).
  unfold FileItr.Exists in E.
  destruct (mFindHandle i) as [p|] eqn:Hh; [|discriminate E].
  destruct (F p eq_refl) as (I & _).
  assert (N : special_name (cFileName (mpFindData i)) = false).
  { destruct (special_name (cFileName (mpFindData i))) eqn:SN; [|reflexivity].
    pose proof (HD path _ I SN) as DF.
    unfold special_folder in S.
    rewrite IsFolder_directory_flag, DF, SN in S. discriminate S. }
  unfold special_name in N. apply orb_false_iff in N. destruct N as (N1 & N2).
  split; intros Heq; rewrite Heq in *; discriminate.
Qed.

Lemma current_entry_is_never_dot_or_dotdot_witness :
  let i := mkFileItr (plain_file (lit "a.txt")) (Some [folder (lit "sub")]) [] []
             (mkFileSpec (lit "a.txt")) true in
  cFileName (mpFindData i) <> lit "." /\ cFileName (mpFindData i) <> lit "..".
Proof.
  apply (@current_entry_is_never_dot_or_dotdot ascii_CharUtil small_OS).
  - exact small_OS_dots_are_directories.
  - apply (reach_ctor (mkFileSpec (lit "*")) [EvFindFirst (lit "*")]).
    vm_compute. reflexivity.
  - reflexivity.
Defined.

(** ** Failure to open a listing (C9) *)

(** C9: when [FindFirstFileExA] fails on the path that the constructor hands
    to it, the constructor returns an iterator without a current entry, and
    its network flag is false exactly when the error is
    [ERROR_BAD_NETPATH]. *)
Theorem open_failure_is_reported {CU : CharUtil} {OS : Win32}
    (spec fs : FileSpec) (path : str) (lastError : N) :
  FileItr.strip_trailing spec = Some (path, fs) ->
  FindFirstFileExA path = FindFailed lastError ->
  exists i,
    FileItr.ctor spec = ([EvFindFirst path], Returned i) /\
    FileItr.Exists i = false /\
    (FileItr.IsNetworkAvailable i = false <-> lastError = ERROR_BAD_NETPATH).
Proof.
  intros HS HF. unfold FileItr.ctor, FileItr.Init.
  rewrite HS. cbn [lift]. rewrite bind_assoc, bind_ret_l.
  cbn [FileItr.Close set_mpFindData mFindHandle INVALID_HANDLE_VALUE].
  rewrite HF.
  destruct (lastError =? ERROR_BAD_NETPATH)%N eqn:E.
  - eexists. split; [reflexivity|]. split; [reflexivity|].
    apply N.eqb_eq in E. split; [intros _; exact E | reflexivity].
  - eexists. split; [reflexivity|]. split; [reflexivity|].
    apply N.eqb_neq in E. split; [discriminate | intros H; contradiction].
Qed.

Lemma open_failure_is_reported_witness :
  exists i,
    @FileItr.ctor ascii_CharUtil small_OS (mkFileSpec (lit "n:\*"))
      = ([EvFindFirst (lit "n:\*")], Returned i) /\
    FileItr.Exists i = false /\
    (FileItr.IsNetworkAvailable i = false <-> ERROR_BAD_NETPATH = ERROR_BAD_NETPATH).
Proof.
  apply (@open_failure_is_reported ascii_CharUtil small_OS
           (mkFileSpec (lit "n:\*")) (mkFileSpec (lit "n:\*")) (lit "n:\*")
           ERROR_BAD_NETPATH);
    vm_compute; reflexivity.
Defined.

(** ** Loops over the iterator *)

Arguments FileItr.store_spec : simpl never.
Arguments FileItr.SkipSpecialFolders : simpl never.
Arguments FileItr.operator_inc : simpl never.
Arguments FileItr.strip_trailing : simpl never.
Arguments Split3 : simpl never.
Arguments FileSpec3 : simpl never.
Arguments GetFile : simpl never.
Arguments Validate : simpl never.

Section Loops.

Context {CU : CharUtil} {OS : Win32}.

Lemma remaining_Close (i : FileItr) : FileItr.remaining (FileItr.Close i) = 0.
Proof.
  unfold FileItr.remaining. rewrite Close_closed. reflexivity.
Qed.

Lemma store_spec_remaining (i i' : FileItr) :
  FileItr.store_spec i = Some i' -> FileItr.remaining i' = FileItr.remaining i.
Proof.
  intros H. apply store_spec_fields in H. destruct H as (_ & H & _).
  unfold FileItr.remaining. rewrite H. reflexivity.
Qed.

(** Each call of [operator ++] takes at least one entry off the handle. *)
Lemma advance_remaining (pending : list WIN32_FIND_DATAA) :
  forall i i', FileItr.advance pending i = Some i' ->
  FileItr.remaining i' <= length pending.
Proof.
  induction pending as [|e pending IH]; intros i i' H.
  - simpl in H. injection H as <-. rewrite remaining_Close. simpl. lia.
  - cbn [FileItr.advance] in H.
    destruct (FileItr.SkipSpecialFolders _ _) as [i2|] eqn:Sk;
      cbn [obind] in H; [|discriminate].
    rewrite (store_spec_remaining _ _ H).
    rewrite SkipSpecialFolders_eq in Sk by reflexivity.
    destruct (_ && _) in Sk.
    + apply IH in Sk. simpl. lia.
    + injection Sk as <-. unfold FileItr.remaining. cbn. lia.
Qed.

Lemma operator_inc_remaining (i i' : FileItr) :
  FileItr.operator_inc i = Some i' ->
  FileItr.remaining i' < FileItr.remaining i.
Proof.
  unfold FileItr.operator_inc, FileItr.remaining at 2.
  destruct (FileItr.Exists i); cbn [assert obind]; [|discriminate].
  destruct (mFindHandle i) as [pending|]; [|discriminate].
  intros H. apply advance_remaining in H. lia.
Qed.

Lemma Exists_remaining (i : FileItr) :
  FileItr.Exists i = true -> 0 < FileItr.remaining i.
Proof.
  unfold FileItr.Exists, FileItr.remaining.
  destruct (mFindHandle i); simpl; [lia | discriminate].
Qed.

Lemma visit_eq (i : FileItr) :
  FileItr.Exists i = true ->
  DirTree.visit i = ([EvVisit (mSpec i)], Returned tt).
Proof.
  intros E. unfold DirTree.visit, FileItr.deref. rewrite E. reflexivity.
Qed.

Lemma iterate_S (k : nat) (body : FileItr -> M unit) (i : FileItr) :
  FileItr.iterate (S k) body i =
  if FileItr.Exists i then
    _ <~ body i ;;
    i' <~ lift (FileItr.operator_inc i) ;;
    FileItr.iterate k body i'
  else ret tt.
Proof.
  reflexivity.
Qed.

Lemma iterate_closed (k : nat) (body : FileItr -> M unit) (i : FileItr) :
  FileItr.Exists i = false -> FileItr.iterate k body i = ret tt.
Proof.
  intros E. destruct k; simpl; rewrite E; reflexivity.
Qed.

(** The match pass calls the visitor and does nothing else; the fuel of the
    loop suffices. *)
Lemma iterate_visit (k : nat) :
  forall i, FileItr.remaining i <= k ->
  let r := FileItr.iterate k DirTree.visit i in
  result r <> OutOfFuel /\ opens (trace r) = [] /\ calls (trace r) = [].
Proof.
  induction k as [|k IH]; intros i Hk.
  - destruct (FileItr.Exists i) eqn:E.
    + apply Exists_remaining in E. lia.
    + rewrite (iterate_closed _ _ _ E). cbn. repeat split. discriminate.
  - destruct (FileItr.Exists i) eqn:E.
    + rewrite iterate_S, E, (visit_eq i E).
      destruct (FileItr.operator_inc i) as [i'|] eqn:I.
      * pose proof (operator_inc_remaining _ _ I) as L.
        specialize (IH i' ltac:(lia)). cbv zeta in IH.
        cbn [lift]. rewrite bind_ret_l.
        destruct (FileItr.iterate k DirTree.visit i') as [t o].
        cbn in IH |- *. exact IH.
      * cbn. repeat split. discriminate.
    + rewrite (iterate_closed _ _ _ E). cbn. repeat split. discriminate.
Qed.

(** The constructor opens at most one listing, on the path that
    [strip_trailing] computes. *)
Lemma ctor_trace (spec : FileSpec) :
  (FileItr.strip_trailing spec = None /\ FileItr.ctor spec = ([], Stopped)) \/
  (exists path fs, FileItr.strip_trailing spec = Some (path, fs) /\
     trace (FileItr.ctor spec) = [EvFindFirst path] /\
     result (FileItr.ctor spec) <> OutOfFuel).
Proof.
  unfold FileItr.ctor, FileItr.Init.
  destruct (FileItr.strip_trailing spec) as [[path fs]|]; [right | left; auto].
  exists path, fs. split; [reflexivity|].
  cbn [lift]. rewrite bind_assoc, bind_ret_l.
  cbn [FileItr.Close set_mpFindData mFindHandle INVALID_HANDLE_VALUE].
  destruct (FindFirstFileExA path) as [first pending|err].
  - destruct (FileItr.SkipSpecialFolders _ _) as [i1|];
      [|cbn; split; [reflexivity | discriminate]].
    destruct (Split3 fs) as [[[vol dir] sFile]|];
      [|cbn; split; [reflexivity | discriminate]].
    cbn.
    destruct (FileItr.store_spec _) as [i2|]; cbn; split;
      try reflexivity; discriminate.
  - cbn. split; [reflexivity | discriminate].
Qed.

End Loops.

(** ** The shallow walk (C7) *)

(** C7: in the mode [NoSubFolders] a call of [ForEach] does the same for
    every amount of fuel, so it makes no call of [ForEach]: the only call the
    run records is the one that was made; it does not run out of fuel; it
    opens at most one listing, and that listing is on the pattern of the
    caller, without its trailing separator. *)
Theorem shallow_walk_opens_one_listing {CU : CharUtil} {OS : Win32}
    (n : nat) (fs : FileSpec) :
  let r := DirTree.ForEach (S n) fs NoSubFolders in
  r = DirTree.ForEach 1 fs NoSubFolders /\
  result r <> OutOfFuel /\
  calls (trace r) = [(fs, NoSubFolders)] /\
  length (opens (trace r)) <= 1 /\
  (forall path fs', FileItr.strip_trailing fs = Some (path, fs') ->
     opens (trace r) = [path]).
Proof.
  cbv zeta. split; [reflexivity|].
  cbn [DirTree.ForEach]. rewrite bind_ret_tt.
  unfold FileItr.for_each_entry.
  destruct (ctor_trace fs) as [(HS & HC)|(path & fs0 & HS & HT & HR)].
  - rewrite HC. cbn. split; [discriminate|]. split; [reflexivity|].
    split; [lia|]. intros path fs' H. congruence.
  - destruct (FileItr.ctor fs) as [t [i| |]]; cbn in HT, HR; subst t.
    + pose proof (iterate_visit (FileItr.remaining i) i (le_n _)) as IV.
      cbv zeta in IV. cbn.
      destruct (FileItr.iterate _ _ i) as [t o]. cbn in IV |- *.
      destruct IV as (IV1 & IV2 & IV3). rewrite IV2, IV3.
      split; [exact IV1|]. split; [reflexivity|]. split; [simpl; lia|].
      intros p f H. congruence.
    + cbn. split; [discriminate|]. split; [reflexivity|]. split; [lia|].
      intros p f H. congruence.
    + contradiction.
Qed.

(** ** The parts of [Split] characterised *)

Lemma rfind_app (c : ascii) (a b : str) :
  rfind c (a ++ b) =
  match rfind c b with
  | Some i => Some (length a + i)
  | None => rfind c a
  end.
Proof.
  induction a as [|x a IH]; simpl.
  - destruct (rfind c b); reflexivity.
  - rewrite IH. destruct (rfind c b); reflexivity.
Qed.

Lemma rfind_None_In (c : ascii) (s : str) : rfind c s = None <-> ~ In c s.
Proof.
  induction s as [|x s IH]; simpl.
  - split; [intros _ [] | reflexivity].
  - destruct (rfind c s) as [i|].
    + split; [discriminate|]. intros H. exfalso. apply H. right.
      destruct (in_dec ascii_dec c s) as [I|I]; [exact I|].
      apply IH in I. discriminate I.
    + destruct (Ascii.eqb x c) eqn:E.
      * apply Ascii.eqb_eq in E. split; [discriminate|]. intros H. exfalso. auto.
      * apply Ascii.eqb_neq in E. split; [|reflexivity].
        intros _ [H|H]; [contradiction|]. apply IH in H; auto.
Qed.

Lemma rfind_last (c : ascii) (a : str) : rfind c (a ++ [c]) = Some (length a).
Proof.
  rewrite rfind_app. simpl. rewrite Ascii.eqb_refl. f_equal. lia.
Qed.

Lemma sub_app_l (a b : str) : sub (a ++ b) 0 (length a) = a.
Proof.
  unfold sub. rewrite Nat.sub_0_r. simpl. rewrite firstn_app, Nat.sub_diag.
  simpl. rewrite app_nil_r. apply firstn_all.
Qed.

Lemma sub_app_r (a b : str) : sub (a ++ b) (length a) (length (a ++ b)) = b.
Proof.
  unfold sub. rewrite skipn_app, Nat.sub_diag, skipn_all. simpl.
  rewrite length_app. apply firstn_all2. lia.
Qed.

Lemma sub_app_m (a b c : str) :
  sub (a ++ b ++ c) (length a) (length a + length b) = b.
Proof.
  unfold sub. rewrite skipn_app, Nat.sub_diag, skipn_all. simpl.
  replace (length a + length b - length a) with (length b) by lia.
  rewrite firstn_app, Nat.sub_diag. simpl. rewrite app_nil_r. apply firstn_all.
Qed.

Lemma exists_last_char (d : str) :
  d <> [] -> exists d', d = d' ++ [rbegin d].
Proof.
  intros H. destruct (exists_last H) as (d' & c & ->).
  exists d'. unfold rbegin. rewrite last_last. reflexivity.
Qed.

Lemma In_sub (s : str) (a b : nat) (c : ascii) :
  In c (sub s a b) ->
  exists j, a <= j /\ j < b /\ j < length s /\ at_ s j = c.
Proof.
  unfold sub, at_. intros H.
  destruct (In_nth _ _ zero H) as (i & Hi & Hc).
  rewrite length_firstn, length_skipn in Hi.
  rewrite nth_firstn in Hc.
  destruct (i <? b - a) eqn:L; [|apply Nat.ltb_ge in L; lia].
  apply Nat.ltb_lt in L. rewrite nth_skipn in Hc.
  exists (a + i). repeat split; try lia. exact Hc.
Qed.

Lemma no_sep_after_dirEnd (s : str) (j : nat) :
  dirEnd (ParseSpec (mkFileSpec s)) <= j -> j < length s ->
  at_ s j <> "\"%char.
Proof.
  intros H L.
  assert (DS : dirEnd (ParseSpec (mkFileSpec s))
               = match lastDirSep s with
                 | Some k => k + 1
                 | None => volEnd (ParseSpec (mkFileSpec s))
                 end) by reflexivity.
  unfold lastDirSep in DS. destruct (rfind "\" s) as [k|] eqn:R.
  - apply rfind_Some in R. destruct R as (_ & _ & R). apply R; lia.
  - exact (rfind_None _ _ R j L).
Qed.

(** Three strings are the parts of their concatenation when the volume has
    its shape, the directory is empty or ends in the separator, and no
    separator stands after the directory. *)
Lemma Split3_intro (v d x : str) :
  vol_shape (v ++ d ++ x) v ->
  (d = [] \/ rbegin d = "\"%char) ->
  (d = [] -> ~ In "\"%char v) ->
  ~ In "\"%char x ->
  Split3 (mkFileSpec (v ++ d ++ x)) = Some (v, d, x).
Proof.
  intros HV HD HVD HX.
  set (s := v ++ d ++ x).
  assert (VE : volEnd (ParseSpec (mkFileSpec s)) = length v).
  { pose proof (ParseSpec_bounds (mkFileSpec s)) as (_ & _ & _ & _ & B & _).
    change (mFileSpec (mkFileSpec s)) with s in B. rewrite B.
    unfold bHaveVolSep.
    destruct (firstVolSep_cases s) as [(-> & L & C)|(-> & N)]; simpl.
    - destruct HV as [(_ & HV)|(HV & _)]; [|congruence].
      exfalso. apply HV. auto.
    - destruct HV as [(-> & _)|(L & C)]; [reflexivity|].
      exfalso. apply N. unfold s, at_. rewrite length_app.
      split; [lia|]. rewrite app_nth1 by lia. exact C. }
  assert (DE : dirEnd (ParseSpec (mkFileSpec s)) = length v + length d).
  { assert (DS : dirEnd (ParseSpec (mkFileSpec s))
                 = match lastDirSep s with
                   | Some k => k + 1
                   | None => volEnd (ParseSpec (mkFileSpec s))
                   end) by reflexivity.
    rewrite DS, VE. unfold lastDirSep, s. rewrite !rfind_app.
    apply rfind_None_In in HX. rewrite HX.
    destruct d as [|c d0].
    - simpl rfind. specialize (HVD eq_refl). apply rfind_None_In in HVD.
      rewrite HVD. simpl. lia.
    - destruct HD as [HD|HD]; [discriminate HD|].
      destruct (exists_last_char (c :: d0)) as (d' & E); [discriminate|].
      rewrite HD in E. rewrite E, rfind_last, length_app. simpl. lia. }
  pose proof (Split3_defined (mkFileSpec s)) as S3. cbv zeta in S3.
  rewrite VE, DE in S3. change (mFileSpec (mkFileSpec s)) with s in S3.
  rewrite S3 by lia. unfold s. f_equal. f_equal; [f_equal|].
  - apply sub_app_l.
  - apply sub_app_m.
  - rewrite app_assoc. rewrite <- length_app. apply sub_app_r.
Qed.

Lemma sub_last (s : str) (a k : nat) :
  a <= k -> k < length s -> rbegin (sub s a (S k)) = at_ s k.
Proof.
  intros H1 H2. rewrite <- (sub_app s a k (S k)) by lia.
  rewrite (sub_one s k H2). unfold rbegin. apply last_last.
Qed.

(** The parts that [Split] returns have that shape. *)
Lemma Split3_shape (s v d f : str) :
  Split3 (mkFileSpec s) = Some (v, d, f) ->
  v ++ d ++ f = s /\
  ((v = [] /\ ~ (1 < length s /\ at_ s 1 = ":"%char)) \/
   (length v = 2 /\ at_ v 1 = ":"%char /\ at_ v 0 = at_ s 0 /\
    1 < length s /\ at_ s 1 = ":"%char)) /\
  (d = [] \/ (d <> [] /\ rbegin d = "\"%char)) /\
  (d = [] -> ~ In "\"%char v).
Proof.
  intros H. pose proof (Split3_app _ _ _ _ H) as App.
  change (mFileSpec (mkFileSpec s)) with s in App.
  split; [exact App|].
  apply Split3_inv in H. cbv zeta in H.
  change (mFileSpec (mkFileSpec s)) with s in H.
  destruct H as (L & Hv & Hd & Hf).
  pose proof (ParseSpec_bounds (mkFileSpec s))
    as (_ & _ & _ & _ & VE & _ & DEL & _).
  change (mFileSpec (mkFileSpec s)) with s in VE, DEL.
  set (p := ParseSpec (mkFileSpec s)) in *.
  assert (SV : (v = [] /\ ~ (1 < length s /\ at_ s 1 = ":"%char) /\ volEnd p = 0) \/
               (length v = 2 /\ at_ v 1 = ":"%char /\ at_ v 0 = at_ s 0 /\
                1 < length s /\ at_ s 1 = ":"%char /\ volEnd p = 2)).
  { destruct (vol_span s) as [(B & L1 & C & _ & Len & A0 & A1)|(B & N & E)];
      cbv zeta in *; fold p in Len, A0, A1 || fold p in E; rewrite B in VE.
    - right. rewrite Hv. auto 10.
    - left. rewrite Hv. auto. }
  split; [tauto|].
  assert (DS : dirEnd p = match lastDirSep s with
                          | Some k => k + 1 | None => volEnd p end)
    by reflexivity.
  unfold lastDirSep in DS.
  destruct (rfind "\" s) as [k|] eqn:R.
  - apply rfind_Some in R. destruct R as (Rk & Rc & _).
    assert (NE : volEnd p <= k).
    { destruct SV as [(_ & _ & E)|(_ & _ & _ & _ & C & E)]; [lia|].
      assert (k <> 1) by (intros ->; rewrite Rc in C; discriminate C). lia. }
    assert (D : d <> []).
    { rewrite Hd. intros E. apply sub_nil_iff in E; lia. }
    split; [|intros E; contradiction].
    right. split; [exact D|]. rewrite Hd, DS.
    replace (k + 1) with (S k) by lia. rewrite sub_last by lia. exact Rc.
  - split.
    + left. rewrite Hd, DS. apply sub_same.
    + intros _ I. apply rfind_None_In in R. apply R.
      rewrite <- App. apply in_or_app. auto.
Qed.

(** Replacing the file part of a split path by a name of the file system
    leaves the volume and the directory as they were. *)
Lemma Split3_compose (s v d f x : str) :
  Split3 (mkFileSpec s) = Some (v, d, f) ->
  os_name x = true ->
  Split3 (mkFileSpec (v ++ d ++ x)) = Some (v, d, x).
Proof.
  intros H X. apply Split3_shape in H. destruct H as (App & HV & HD & HVD).
  assert (NoSep : ~ In "\"%char x).
  { intros I. apply (os_name_In _ _ X) in I. destruct I as (I & _). auto. }
  assert (NoCol : ~ In ":"%char x).
  { intros I. apply (os_name_In _ _ X) in I. destruct I as (_ & I & _). auto. }
  apply Split3_intro; [|tauto|exact HVD|exact NoSep].
  destruct HV as [(-> & N)|(L & C & _)]; [left | right; auto].
  split; [reflexivity|]. simpl app in *. subst s.
  intros (L & C). unfold at_ in *.
  destruct d as [|c1 [|c2 d']].
  - simpl in *. apply NoCol. rewrite <- C. apply nth_In. exact L.
  - simpl in *. destruct x as [|y x]; [simpl in L; lia|].
    simpl in C. apply NoCol. left. exact C.
  - simpl in *. apply N. split; [lia | exact C].
Qed.

(** The file part that [Split] returns holds no directory separator. *)
Lemma Split3_file_no_sep (s v d f : str) :
  Split3 (mkFileSpec s) = Some (v, d, f) -> ~ In "\"%char f.
Proof.
  intros H I. pose proof (Split3_inv _ _ _ _ H) as R. cbv zeta in R.
  change (mFileSpec (mkFileSpec s)) with s in R.
  destruct R as (_ & _ & _ & Hf). rewrite Hf in I.
  destruct (In_sub s _ (length s) _ I) as (j & J1 & _ & J3 & J4).
  exact (no_sep_after_dirEnd s j J1 J3 J4).
Qed.

(** Appending the name of an entry and a separator to the directory of a
    split path gives a path with the same volume, the longer directory and
    the same file. *)
Lemma Split3_child (s v d f x : str) :
  Split3 (mkFileSpec s) = Some (v, d, f) ->
  os_name x = true -> x <> [] ->
  Split3 (mkFileSpec (v ++ (d ++ x ++ ["\"%char]) ++ f))
  = Some (v, d ++ x ++ ["\"%char], f).
Proof.
  intros H X NE. pose proof (Split3_file_no_sep _ _ _ _ H) as NoSep.
  apply Split3_shape in H. destruct H as (App & HV & HD & HVD).
  assert (NoCol : ~ In ":"%char x).
  { intros I. apply (os_name_In _ _ X) in I. destruct I as (_ & I & _). auto. }
  assert (NoSepX : ~ In "\"%char x).
  { intros I. apply (os_name_In _ _ X) in I. destruct I as (I & _). auto. }
  apply Split3_intro.
  - destruct HV as [(-> & N)|(L & C & _)]; [left | right; auto].
    split; [reflexivity|]. simpl app in *. subst s.
    intros (L & C). unfold at_ in *.
    destruct x as [|y x]; [contradiction|].
    destruct d as [|c1 [|c2 d']].
    + simpl in *. destruct x as [|z x].
      * simpl in C. discriminate C.
      * simpl in C. apply NoCol. right. left. exact C.
    + simpl in *. apply NoCol. left. exact C.
    + simpl in *. apply N. split; [lia | exact C].
  - right. rewrite app_assoc. unfold rbegin. apply last_last.
  - intros E. apply app_eq_nil in E. destruct E as (_ & E).
    apply app_eq_nil in E. destruct E as (_ & E). discriminate E.
  - exact NoSep.
Qed.

(** [FileSpec( vol, dir + name, file )] writes a separator after the name
    of an entry. *)
Lemma join3_child (v d x f : str) :
  os_name x = true -> entry_name x = true ->
  join3 v (d ++ x) f = v ++ d ++ x ++ ["\"%char] ++ f.
Proof.
  intros X E. unfold entry_name in E. apply andb_true_iff in E.
  destruct E as (NE & NS).
  assert (N : x <> []) by (intros ->; discriminate NE).
  destruct (exists_last_char x N) as (x' & Ex).
  assert (I : In (rbegin x) x).
  { rewrite Ex at 2. apply in_or_app. right. left. reflexivity. }
  assert (R : rbegin (d ++ x) = rbegin x).
  { rewrite Ex at 1. rewrite app_assoc. unfold rbegin at 1. apply last_last. }
  assert (B : Ascii.eqb (rbegin x) "\" = false).
  { apply Ascii.eqb_neq. exact (proj1 (os_name_In _ _ X I)). }
  assert (F : Ascii.eqb (rbegin x) "/" = false).
  { rewrite forallb_forall in NS. specialize (NS _ I).
    apply negb_true_iff in NS. exact NS. }
  assert (M : empty (d ++ x) = false).
  { destruct d; [destruct x; [contradiction | reflexivity] | reflexivity]. }
  unfold join3. rewrite R, B, F, M. cbn [negb andb].
  rewrite <- !app_assoc. reflexivity.
Qed.

Lemma GetFile_Split3 (fs : FileSpec) (v d f : str) :
  Split3 fs = Some (v, d, f) -> GetFile fs = Some f.
Proof.
  intros H. apply Split3_inv in H. destruct H as (_ & _ & _ & ->).
  apply GetFile_defined.
Qed.

(** [FileSpec( vol, dir, file )] adds no separator after a directory that
    [Split] returned. *)
Lemma join3_Split3 (s v d f x : str) :
  Split3 (mkFileSpec s) = Some (v, d, f) -> join3 v d x = v ++ d ++ x.
Proof.
  intros H. apply Split3_shape in H. destruct H as (_ & _ & HD & _).
  unfold join3. destruct HD as [->|(_ & ->)].
  - simpl. rewrite app_nil_r. reflexivity.
  - simpl. rewrite andb_false_r. simpl. rewrite <- app_assoc. reflexivity.
Qed.

Section ComposeValid.

Context {CU : CharUtil}.

(** What [Validate] asks of a path whose parts are known. *)
Lemma Validate_Split3 (s v d f : str) :
  Split3 (mkFileSpec s) = Some (v, d, f) ->
  (Validate (mkFileSpec s) = Some tt <->
   (v <> [] -> IsAlpha (at_ v 0) = true) /\
   IsGoodFileName d = true /\ IsGoodFileName f = true).
Proof.
  intros H. pose proof (Split3_shape _ _ _ _ H) as (App & HV & _).
  unfold Validate. rewrite H. cbn [obind mFileSpec]. rewrite App.
  replace (str_eqb s s) with true by (symmetry; apply str_eqb_eq; reflexivity).
  assert (T : forall P : Prop, (Some tt = Some tt <-> P) <-> P)
    by (intros P; split; [intros [Q _]; apply Q; reflexivity | tauto]).
  destruct HV as [(-> & _)|(L & C & _)].
  - cbn [empty negb obind].
    destruct (IsGoodFileName d), (IsGoodFileName f); cbn [assert obind];
      split; try discriminate; try tauto.
    all: intros (_ & A & B); discriminate.
  - assert (NE : empty v = false) by (destruct v; [discriminate L | reflexivity]).
    assert (NN : v <> []) by (intros ->; discriminate L).
    rewrite NE, L, C. cbn [negb]. simpl (2 =? 2). rewrite Ascii.eqb_refl.
    cbn [assert obind].
    destruct (IsAlpha (at_ v 0)), (IsGoodFileName d), (IsGoodFileName f);
      cbn [assert obind]; split; try discriminate; try tauto.
    all: intros (A & B & D); try discriminate; specialize (A NN); discriminate.
Qed.

Lemma FileSpec3_Split3 (s v d f x : str) :
  Split3 (mkFileSpec s) = Some (v, d, f) ->
  Validate (mkFileSpec s) = Some tt ->
  os_name x = true ->
  IsGoodFileName x = true ->
  FileSpec3 v d x = Some (mkFileSpec (v ++ d ++ x)) /\
  Validate (mkFileSpec (v ++ d ++ x)) = Some tt /\
  GetFile (mkFileSpec (v ++ d ++ x)) = Some x.
Proof.
  intros H V X G.
  pose proof (Split3_compose _ _ _ _ _ H X) as C.
  assert (V' : Validate (mkFileSpec (v ++ d ++ x)) = Some tt).
  { apply (Validate_Split3 _ _ _ _ C).
    apply (Validate_Split3 _ _ _ _ H) in V. tauto. }
  split; [|split; [exact V' | exact (GetFile_Split3 _ _ _ _ C)]].
  unfold FileSpec3. rewrite (join3_Split3 _ _ _ _ _ H), V'. reflexivity.
Qed.

(** The child pattern of the descend pass: the constructor assembles
    volume, directory, name, separator and file, and accepts the text exactly
    when the name check accepts the new directory. *)
Lemma FileSpec3_child (s v d f x : str) :
  Split3 (mkFileSpec s) = Some (v, d, f) ->
  Validate (mkFileSpec s) = Some tt ->
  os_name x = true -> entry_name x = true ->
  FileSpec3 v (d ++ x) f =
  if IsGoodFileName (d ++ x ++ ["\"%char])
  then Some (mkFileSpec (v ++ d ++ x ++ ["\"%char] ++ f))
  else None.
Proof.
  intros H V X E.
  assert (NE : x <> []).
  { intros ->. discriminate E. }
  pose proof (Split3_child _ _ _ _ _ H X NE) as C.
  rewrite <- !app_assoc in C.
  unfold FileSpec3. rewrite (join3_child v d x f X E).
  apply (Validate_Split3 _ _ _ _ H) in V. destruct V as (VA & _ & VF).
  pose proof (Validate_Split3 _ _ _ _ C) as W.
  destruct (IsGoodFileName (d ++ x ++ ["\"%char])) eqn:G.
  - rewrite (proj2 W) by tauto. reflexivity.
  - destruct (Validate _) as [[]|] eqn:VV; [|reflexivity].
    destruct (proj1 W eq_refl) as (_ & VV' & _). discriminate VV'.
Qed.

End ComposeValid.

(** ** Where the iterator rests *)

Lemma skip_special_filter (l : list WIN32_FIND_DATAA) :
  filter (fun d => negb (special_folder d)) l =
  match skip_special l with
  | [] => []
  | e :: rest => e :: filter (fun d => negb (special_folder d)) rest
  end.
Proof.
  induction l as [|e l IH]; simpl; [reflexivity|].
  destruct (special_folder e) eqn:S; simpl; [exact IH | reflexivity].
Qed.

Lemma skip_special_cons (l : list WIN32_FIND_DATAA) (e : WIN32_FIND_DATAA)
    (rest : list WIN32_FIND_DATAA) (P : WIN32_FIND_DATAA -> bool) :
  skip_special l = e :: rest ->
  special_folder e = false /\ length rest < length l /\
  (forallb P l = true -> P e = true /\ forallb P rest = true).
Proof.
  induction l as [|x l IH]; simpl; [discriminate|].
  destruct (special_folder x) eqn:S.
  - intros H. destruct (IH H) as (A & B & C).
    split; [exact A|]. split; [lia|].
    intros F. apply andb_true_iff in F. apply C, F.
  - intros H. injection H as -> ->. split; [exact S|]. split; [lia|].
    intros F. apply andb_true_iff in F. exact F.
Qed.

Lemma for_each_ext {A : Type} (l : list A) (f g : A -> M unit) :
  (forall a, In a l -> f a = g a) -> for_each l f = for_each l g.
Proof.
  induction l as [|a l IH]; intros H; simpl; [reflexivity|].
  rewrite (H a) by (left; reflexivity).
  apply bind_ext. intros _. apply IH. intros b I. apply H. right. exact I.
Qed.

Lemma for_each_filter {A : Type} (p : A -> bool) (l : list A)
    (body : A -> M unit) :
  for_each l (fun a => if p a then body a else ret tt)
  = for_each (filter p l) body.
Proof.
  induction l as [|a l IH]; [reflexivity|].
  cbn [for_each filter]. destruct (p a).
  - cbn [for_each]. apply bind_ext. intros _. exact IH.
  - rewrite bind_ret_l. exact IH.
Qed.

(** The entries that the iterator yields and that carry the directory flag
    are the subfolders of the listing. *)
Lemma subfolders_yielded (r : FindFirstResult) :
  filter directory_flag (yielded r) = subfolders (listing r).
Proof.
  unfold yielded, subfolders. induction (listing r) as [|a l IH]; [reflexivity|].
  cbn [filter]. unfold special_folder at 1. rewrite IsFolder_directory_flag.
  destruct (directory_flag a) eqn:D, (special_name (cFileName a));
    cbn [negb andb filter]; rewrite ?D; rewrite IH; reflexivity.
Qed.

Lemma special_folder_eq (d : WIN32_FIND_DATAA) :
  os_name (cFileName d) = true ->
  FileAttrib.IsFolder (FileAttrib.of_find_data d) && name_test (cFileName d)
  = special_folder d.
Proof.
  intros N. unfold special_folder.
  destruct (FileAttrib.IsFolder _); [|reflexivity]. cbn [andb].
  destruct (name_test (cFileName d)) eqn:T.
  - symmetry. apply name_test_special; assumption.
  - destruct (special_name (cFileName d)) eqn:S; [|reflexivity].
    apply special_name_test in S. congruence.
Qed.

Section Positions.

Context {CU : CharUtil} {OS : Win32}.

(** The volume and the directory that the iterator composes its specs with:
    the parts of a validated path [s0]. *)
Variables (vol dir s0 f0 : str).
Hypothesis Hsplit : Split3 (mkFileSpec s0) = Some (vol, dir, f0).
Hypothesis Hvalid : Validate (mkFileSpec s0) = Some tt.

Lemma store_spec_ok (i : FileItr) :
  mVol i = vol -> mDir i = dir -> entry_ok (mpFindData i) = true ->
  FileItr.store_spec i =
  Some (set_mSpec (mkFileSpec (vol ++ dir ++ cFileName (mpFindData i))) i).
Proof.
  intros HV HD E. unfold entry_ok in E. apply andb_true_iff in E.
  destruct E as (N & G).
  destruct (FileSpec3_Split3 _ _ _ _ _ Hsplit Hvalid N G) as (_ & V & _).
  rewrite <- (join3_Split3 _ _ _ _ (cFileName (mpFindData i)) Hsplit) in V |- *.
  rewrite <- HV, <- HD in V |- *. apply store_spec_valid. exact V.
Qed.

(** [operator ++] moves to the next entry that is not a special folder, and
    closes the handle when there is none. *)
Lemma advance_spec (pending : list WIN32_FIND_DATAA) :
  forall i,
  mVol i = vol -> mDir i = dir -> entry_ok (mpFindData i) = true ->
  forallb entry_ok pending = true ->
  exists i',
    FileItr.advance pending i = Some i' /\
    mVol i' = vol /\ mDir i' = dir /\ entry_ok (mpFindData i') = true /\
    match skip_special pending with
    | [] => mFindHandle i' = None
    | e :: rest =>
        mpFindData i' = e /\ mFindHandle i' = Some rest /\
        mSpec i' = mkFileSpec (vol ++ dir ++ cFileName e)
    end.
Proof.
  induction pending as [|e pending IH]; intros i HV HD HE HP.
  - exists (FileItr.Close i). split; [reflexivity|].
    unfold FileItr.Close. destruct (mFindHandle i) eqn:Hh; cbn; auto.
  - cbn [forallb] in HP. apply andb_true_iff in HP. destruct HP as (Ee & HP).
    cbn [FileItr.advance skip_special].
    set (i1 := set_mFindHandle (Some pending) (set_mpFindData e i)).
    rewrite (SkipSpecialFolders_eq _ i1 eq_refl).
    change (mpFindData i1) with e.
    assert (Ne : os_name (cFileName e) = true)
      by (unfold entry_ok in Ee; apply andb_true_iff in Ee; tauto).
    rewrite (special_folder_eq e Ne).
    destruct (special_folder e) eqn:S.
    + destruct (IH i1 HV HD Ee HP) as (i2 & A & V2 & D2 & E2 & M).
      rewrite A. cbn [obind]. rewrite (store_spec_ok i2 V2 D2 E2).
      eexists. split; [reflexivity|]. cbn. split; [exact V2|].
      split; [exact D2|]. split; [exact E2|].
      destruct (skip_special pending) as [|e' rest]; [exact M|].
      destruct M as (M1 & M2 & _). rewrite M1. auto.
    + cbn [obind]. rewrite (store_spec_ok i1 HV HD Ee).
      eexists. split; [reflexivity|]. cbn. auto 10.
Qed.

(** The loop over an iterator that rests on [e], with [pending] still to
    come, runs its body on [e] and on the entries of [pending] that are not
    special folders. *)
Lemma iterate_spec (b : WIN32_FIND_DATAA -> FileSpec -> M unit)
    (body : FileItr -> M unit) :
  (forall j, FileItr.Exists j = true -> body j = b (mpFindData j) (mSpec j)) ->
  forall k e pending i,
  mpFindData i = e -> mFindHandle i = Some pending ->
  mVol i = vol -> mDir i = dir ->
  mSpec i = mkFileSpec (vol ++ dir ++ cFileName e) ->
  entry_ok e = true -> forallb entry_ok pending = true ->
  length pending < k ->
  FileItr.iterate k body i =
  for_each (e :: filter (fun d => negb (special_folder d)) pending)
    (fun d => b d (mkFileSpec (vol ++ dir ++ cFileName d))).
Proof.
  intros Hbody. induction k as [|k IH]; intros e pending i D H V Dr Sp Ee Ep L;
    [lia|].
  assert (Ex : FileItr.Exists i = true) by (unfold FileItr.Exists; rewrite H; reflexivity).
  rewrite iterate_S, Ex, (Hbody i Ex), D, Sp. cbn [for_each].
  apply bind_ext. intros _.
  unfold FileItr.operator_inc. rewrite Ex, H. cbn [assert obind].
  rewrite <- D in Ee.
  destruct (advance_spec pending i V Dr Ee Ep) as (i' & A & V' & D' & E' & M).
  rewrite A. cbn [lift]. rewrite bind_ret_l.
  rewrite skip_special_filter.
  destruct (skip_special pending) as [|e' rest] eqn:Sk.
  - apply iterate_closed. unfold FileItr.Exists. rewrite M. reflexivity.
  - destruct M as (M1 & M2 & M3).
    destruct (skip_special_cons _ _ _ entry_ok Sk) as (_ & Len & F).
    destruct (F Ep) as (F1 & F2).
    apply (IH e' rest i' M1 M2 V' D' M3 F1 F2). lia.
Qed.

End Positions.

(** ** The listing that a loop walks over *)

Section Listing.

Context {CU : CharUtil} {OS : Win32}.

Lemma Validate_empty :
  IsGoodFileName [] = true -> Validate (mkFileSpec []) = Some tt.
Proof.
  intros G. apply (Validate_Split3 [] [] [] []); [reflexivity|].
  split; [intros H; contradiction | auto].
Qed.

(** The constructor rests on the first entry of the listing that is not a
    special folder, and has no current entry when there is none. *)
Lemma ctor_spec (fs0 : FileSpec) (path s1 vol dir f : str) :
  FileItr.strip_trailing fs0 = Some (path, mkFileSpec s1) ->
  Split3 (mkFileSpec s1) = Some (vol, dir, f) ->
  Validate (mkFileSpec s1) = Some tt ->
  IsGoodFileName [] = true ->
  forallb entry_ok (listing (FindFirstFileExA path)) = true ->
  exists i,
    FileItr.ctor fs0 = ([EvFindFirst path], Returned i) /\
    match skip_special (listing (FindFirstFileExA path)) with
    | [] => mFindHandle i = None
    | e :: rest =>
        mpFindData i = e /\ mFindHandle i = Some rest /\
        mVol i = vol /\ mDir i = dir /\
        mSpec i = mkFileSpec (vol ++ dir ++ cFileName e)
    end.
Proof.
  intros HS H3 HV G0 HL. unfold FileItr.ctor, FileItr.Init.
  rewrite HS. cbn [lift]. rewrite bind_assoc, bind_ret_l.
  cbn [FileItr.Close set_mpFindData mFindHandle INVALID_HANDLE_VALUE].
  destruct (FindFirstFileExA path) as [first pending|err].
  2:{ eexists. split; [reflexivity|]. cbn.
      destruct (err =? ERROR_BAD_NETPATH)%N; reflexivity. }
  cbn [listing forallb] in HL. apply andb_true_iff in HL.
  destruct HL as (Ef & Ep).
  assert (Nf : os_name (cFileName first) = true)
    by (unfold entry_ok in Ef; apply andb_true_iff in Ef; tauto).
  cbn [listing skip_special].
  match goal with
  | |- context [FileItr.SkipSpecialFolders _ ?x] => set (i1 := x)
  end.
  rewrite (SkipSpecialFolders_eq _ i1 eq_refl).
  change (mpFindData i1) with first.
  rewrite (special_folder_eq first Nf).
  destruct (special_folder first) eqn:S.
  - destruct (advance_spec [] [] [] [] eq_refl (Validate_empty G0) pending i1
                eq_refl eq_refl Ef Ep) as (i2 & A & V2 & D2 & E2 & M).
    assert (I : FileItr.operator_inc i1 = Some i2) by exact A.
    rewrite I. cbn [lift]. rewrite !bind_assoc, !bind_ret_l.
    rewrite bind_assoc. rewrite H3. cbn [lift]. rewrite !bind_ret_l.
    rewrite (store_spec_ok vol dir s1 f H3 HV (set_mVolDir vol dir i2)
               eq_refl eq_refl E2).
    eexists. split; [reflexivity|]. cbn.
    destruct (skip_special pending) as [|e rest]; [exact M|].
    destruct M as (M1 & M2 & _). rewrite M1. auto.
  - cbn [lift]. rewrite !bind_assoc, !bind_ret_l.
    rewrite bind_assoc. rewrite H3. cbn [lift]. rewrite !bind_ret_l.
    rewrite (store_spec_ok vol dir s1 f H3 HV (set_mVolDir vol dir i1)
               eq_refl eq_refl Ef).
    eexists. split; [reflexivity|]. cbn. auto.
Qed.

(** A loop over the entries of a pattern opens the listing of the pattern
    and runs its body on the entries that are not special folders, each with
    the spec composed from the volume and directory of the pattern and the
    name of the entry. *)
Lemma for_each_entry_spec (fs0 : FileSpec) (path s1 vol dir f : str)
    (b : WIN32_FIND_DATAA -> FileSpec -> M unit) (body : FileItr -> M unit) :
  FileItr.strip_trailing fs0 = Some (path, mkFileSpec s1) ->
  Split3 (mkFileSpec s1) = Some (vol, dir, f) ->
  Validate (mkFileSpec s1) = Some tt ->
  IsGoodFileName [] = true ->
  forallb entry_ok (listing (FindFirstFileExA path)) = true ->
  (forall j, FileItr.Exists j = true -> body j = b (mpFindData j) (mSpec j)) ->
  FileItr.for_each_entry fs0 body =
  (_ <~ emit (EvFindFirst path) ;;
   for_each (yielded (FindFirstFileExA path))
     (fun d => b d (mkFileSpec (vol ++ dir ++ cFileName d)))).
Proof.
  intros HS H3 HV G0 HL Hb. unfold FileItr.for_each_entry, yielded.
  destruct (ctor_spec fs0 path s1 vol dir f HS H3 HV G0 HL) as (i & C & M).
  rewrite C. rewrite skip_special_filter.
  change ([EvFindFirst path], Returned i) with (_ <~ emit (EvFindFirst path) ;; ret i).
  rewrite bind_assoc. apply bind_ext. intros _. rewrite bind_ret_l.
  destruct (skip_special (listing (FindFirstFileExA path))) as [|e rest] eqn:Sk.
  - apply iterate_closed. unfold FileItr.Exists. rewrite M. reflexivity.
  - destruct M as (M1 & M2 & M3 & M4 & M5).
    destruct (skip_special_cons _ _ _ entry_ok Sk) as (_ & _ & F).
    destruct (F HL) as (F1 & F2).
    apply (iterate_spec vol dir s1 f H3 HV b body Hb _ e rest i M1 M2 M3 M4 M5 F1 F2).
    unfold FileItr.remaining. rewrite M2. lia.
Qed.

(** A pattern that ends in the wildcard is handed to the operating system
    as it is. *)
Lemma strip_trailing_star (q : str) :
  FileItr.strip_trailing (mkFileSpec (q ++ lit "*"))
  = Some (q ++ lit "*", mkFileSpec (q ++ lit "*")).
Proof.
  unfold FileItr.strip_trailing, GetFullPath, find_last_of. cbn [mFileSpec].
  replace (match rfind "\" (q ++ lit "*") with
           | Some i => i =? length (q ++ lit "*") - 1
           | None => false
           end) with false; [rewrite andb_false_r; reflexivity|].
  rewrite rfind_app. cbn [lit String.list_ascii_of_string rfind Ascii.eqb].
  simpl (Ascii.eqb _ _). cbv iota.
  destruct (rfind "\" q) as [i|] eqn:R; [|reflexivity].
  apply rfind_Some in R. destruct R as (R & _).
  rewrite length_app. simpl. symmetry. apply Nat.eqb_neq. lia.
Qed.

End Listing.

(** ** The descend pass (C6) *)

Section Descend.

Context {CU : CharUtil} {OS : Win32}.

(** The descend pass, as the loop over the wildcard listing. *)
Lemma descend_pass_eq (n : nat) (s vol dir file : str) :
  Split3 (mkFileSpec s) = Some (vol, dir, file) ->
  Validate (mkFileSpec s) = Some tt ->
  IsGoodFileName [] = true ->
  IsGoodFileName (lit "*") = true ->
  forallb entry_ok (listing (FindFirstFileExA (vol ++ dir ++ lit "*"))) = true ->
  DirTree.ForEach (S n) (mkFileSpec s) YesSubFolders =
    (_ <~ emit (EvForEach (mkFileSpec s) YesSubFolders) ;;
     _ <~ FileItr.for_each_entry (mkFileSpec s) DirTree.visit ;;
     _ <~ emit (EvFindFirst (vol ++ dir ++ lit "*")) ;;
     for_each (yielded (FindFirstFileExA (vol ++ dir ++ lit "*")))
       (fun d =>
          if FileAttrib.IsFolder (FileAttrib.of_find_data d) then
            subFolder <~ lift (FileSpec3 vol (dir ++ cFileName d) file) ;;
            DirTree.ForEach n subFolder YesSubFolders
          else ret tt)).
Proof.
  intros H3 HV G0 GS HL.
  destruct (FileSpec3_Split3 s vol dir file (lit "*") H3 HV eq_refl GS)
    as (F3 & VS & _).
  pose proof (Split3_compose s vol dir file (lit "*") H3 eq_refl) as SS.
  cbn [DirTree.ForEach].
  apply bind_ext. intros _. apply bind_ext. intros _.
  rewrite H3. cbn [lift]. rewrite bind_ret_l.
  rewrite F3. cbn [lift]. rewrite bind_ret_l.
  rewrite (for_each_entry_spec (mkFileSpec (vol ++ dir ++ lit "*"))
             (vol ++ dir ++ lit "*") (vol ++ dir ++ lit "*") vol dir (lit "*")
             (fun d sp =>
                if FileAttrib.IsFolder (FileAttrib.of_find_data d) then
                  name <~ lift (GetFile sp) ;;
                  subFolder <~ lift (FileSpec3 vol (dir ++ name) file) ;;
                  DirTree.ForEach n subFolder YesSubFolders
                else ret tt)).
  - apply bind_ext. intros _. apply for_each_ext. intros d I.
    destruct (FileAttrib.IsFolder (FileAttrib.of_find_data d)); [|reflexivity].
    unfold yielded in I. apply filter_In in I. destruct I as (I & _).
    rewrite forallb_forall in HL. specialize (HL d I).
    unfold entry_ok in HL. apply andb_true_iff in HL. destruct HL as (N & G).
    destruct (FileSpec3_Split3 s vol dir file (cFileName d) H3 HV N G)
      as (_ & _ & GF).
    rewrite GF. cbn [lift]. rewrite bind_ret_l. reflexivity.
  - rewrite app_assoc. rewrite strip_trailing_star. rewrite <- app_assoc.
    reflexivity.
  - exact SS.
  - exact VS.
  - exact G0.
  - exact HL.
  - intros j E. unfold FileItr.GetAttrib, FileItr.deref. rewrite E.
    cbn [assert obind lift]. rewrite bind_ret_l.
    destruct (FileAttrib.IsFolder _); [|reflexivity].
    rewrite bind_ret_l. reflexivity.
Qed.

End Descend.

(** C6: in the mode [YesSubFolders] a call of [ForEach] on a validated
    pattern with the parts [vol], [dir] and [file] runs the match pass, which
    is the loop of the mode [NoSubFolders]; then it opens a second listing on
    [vol ++ dir ++ "*"], in which [file] does not occur; and for every
    subfolder of that listing, that is every entry whose attributes carry the
    directory bit, [.] and [..] apart, in the order of the listing, it calls
    [ForEach] in the same mode on the child pattern: the volume, the
    directory, the name of the entry, a separator and the file of the caller.
    The constructor of the child pattern validates it, so the walk stops
    there when the name check rejects the new directory.  On the other
    entries the descend pass does nothing.  The names of the listing are
    names of the file system, not empty and without separators, that the name
    check accepts, as it accepts the empty string and the wildcard. *)
Theorem descend_pass_recurses_into_every_folder {CU : CharUtil} {OS : Win32}
    (n : nat) (fs : FileSpec) (vol dir file : str) :
  Split3 fs = Some (vol, dir, file) ->
  Validate fs = Some tt ->
  IsGoodFileName [] = true ->
  IsGoodFileName (lit "*") = true ->
  forallb (fun d => entry_ok d && entry_name (cFileName d))
    (listing (FindFirstFileExA (vol ++ dir ++ lit "*"))) = true ->
  DirTree.ForEach (S n) fs NoSubFolders =
    (_ <~ emit (EvForEach fs NoSubFolders) ;;
     FileItr.for_each_entry fs DirTree.visit) /\
  DirTree.ForEach (S n) fs YesSubFolders =
    (_ <~ emit (EvForEach fs YesSubFolders) ;;
     _ <~ FileItr.for_each_entry fs DirTree.visit ;;
     _ <~ emit (EvFindFirst (vol ++ dir ++ lit "*")) ;;
     for_each (subfolders (listing (FindFirstFileExA (vol ++ dir ++ lit "*"))))
       (fun d =>
          if IsGoodFileName (dir ++ cFileName d ++ lit "\") then
            DirTree.ForEach n
              (mkFileSpec (vol ++ dir ++ cFileName d ++ lit "\" ++ file))
              YesSubFolders
          else ([], Stopped))).
Proof.
  intros H3 HV G0 GS HA. split.
  { cbn [DirTree.ForEach]. rewrite bind_ret_tt. reflexivity. }
  destruct fs as [s].
  assert (HL : forallb entry_ok
                 (listing (FindFirstFileExA (vol ++ dir ++ lit "*"))) = true).
  { rewrite forallb_forall in HA |- *. intros d I.
    specialize (HA d I). apply andb_true_iff in HA. tauto. }
  rewrite (descend_pass_eq n s vol dir file H3 HV G0 GS HL).
  apply bind_ext. intros _. apply bind_ext. intros _.
  apply bind_ext. intros _.
  rewrite <- subfolders_yielded, <- for_each_filter.
  apply for_each_ext. intros d I.
  rewrite IsFolder_directory_flag.
  destruct (directory_flag d); [|reflexivity].
  unfold yielded in I. apply filter_In in I. destruct I as (I & _).
  rewrite forallb_forall in HA. specialize (HA d I).
  apply andb_true_iff in HA. destruct HA as (EO & EN).
  unfold entry_ok in EO. apply andb_true_iff in EO. destruct EO as (ON & _).
  rewrite (FileSpec3_child s vol dir file (cFileName d) H3 HV ON EN).
  change (lit "\") with ["\"%char].
  destruct (IsGoodFileName (dir ++ cFileName d ++ ["\"%char]));
    [cbn [lift]; rewrite bind_ret_l; reflexivity | reflexivity].
Qed.

Lemma descend_pass_recurses_into_every_folder_witness :
  @DirTree.ForEach ascii_CharUtil small_OS 2 (mkFileSpec (lit "*.txt"))
    NoSubFolders =
    (_ <~ emit (EvForEach (mkFileSpec (lit "*.txt")) NoSubFolders) ;;
     @FileItr.for_each_entry ascii_CharUtil small_OS (mkFileSpec (lit "*.txt"))
       DirTree.visit) /\
  @DirTree.ForEach ascii_CharUtil small_OS 2 (mkFileSpec (lit "*.txt"))
    YesSubFolders =
    (_ <~ emit (EvForEach (mkFileSpec (lit "*.txt")) YesSubFolders) ;;
     _ <~ @FileItr.for_each_entry ascii_CharUtil small_OS
            (mkFileSpec (lit "*.txt")) DirTree.visit ;;
     _ <~ emit (EvFindFirst ([] ++ [] ++ lit "*")) ;;
     for_each
       (subfolders (listing (@FindFirstFileExA small_OS ([] ++ [] ++ lit "*"))))
       (fun d =>
          if @IsGoodFileName ascii_CharUtil ([] ++ cFileName d ++ lit "\") then
            @DirTree.ForEach ascii_CharUtil small_OS 1
              (mkFileSpec ([] ++ [] ++ cFileName d ++ lit "\" ++ lit "*.txt"))
              YesSubFolders
          else ([], Stopped))).
Proof.
  apply (@descend_pass_recurses_into_every_folder ascii_CharUtil small_OS 1
           (mkFileSpec (lit "*.txt")) [] [] (lit "*.txt"));
    vm_compute; reflexivity.
Defined.

(** * Further properties *)

(** ** The parts of a path *)

(** A directory that [Split] returns ends in the separator, and an
    extension that it returns holds no extension separator. *)
Lemma split_parts_hold_no_separator_aux (s vol dir stem ext : str) :
  Split4 (mkFileSpec s) = Some (vol, dir, stem, ext) ->
  (dir = [] \/ rbegin dir = "\"%char) /\ ~ In "."%char ext.
Proof.
  intros H. pose proof (Split4_inv _ _ _ _ _ H) as O.
  pose proof (Split4_ordered _ O) as E. cbv zeta in E.
  change (mFileSpec (mkFileSpec s)) with s in E.
  rewrite E in H. injection H as <- <- <- <-.
  pose proof (Split3_defined _ (proj1 O)) as S3. cbv zeta in S3.
  change (mFileSpec (mkFileSpec s)) with s in S3.
  apply Split3_shape in S3. destruct S3 as (_ & _ & HD & _).
  pose proof (ParseSpec_bounds (mkFileSpec s))
    as (_ & _ & _ & _ & _ & _ & _ & FE & EB & F).
  change (mFileSpec (mkFileSpec s)) with s in F, EB.
  set (p := ParseSpec (mkFileSpec s)) in *.
  split; [tauto|].
  intros I.
  destruct (In_sub s (extBegin p) (length s) _ I) as (j & J1 & _ & J3 & J4).
  destruct (bHaveFileSep s).
  - destruct F as (E1 & _ & LF & _). apply lastFileSep_iff in LF.
    destruct LF as (_ & _ & LF). apply (LF j); [lia | exact J3 | exact J4].
  - destruct F as (_ & E2). lia.
Qed.

(** X1: in the four parts that [Split] returns, a directory that is not
    empty ends in the directory separator, the stem and the extension hold no
    directory separator, and the extension holds no extension separator. *)
Theorem split_parts_hold_no_separator (s vol dir stem ext : str) :
  Split4 (mkFileSpec s) = Some (vol, dir, stem, ext) ->
  (dir = [] \/ rbegin dir = "\"%char) /\
  ~ In "\"%char stem /\ ~ In "\"%char ext /\ ~ In "."%char ext.
Proof.
  intros H. pose proof (Split4_inv _ _ _ _ _ H) as O.
  pose proof (Split4_ordered _ O) as E. cbv zeta in E.
  change (mFileSpec (mkFileSpec s)) with s in E.
  rewrite E in H. injection H as <- <- <- <-.
  pose proof (Split3_defined _ (proj1 O)) as S3. cbv zeta in S3.
  change (mFileSpec (mkFileSpec s)) with s in S3.
  apply Split3_shape in S3. destruct S3 as (_ & _ & HD & _).
  pose proof (ParseSpec_bounds (mkFileSpec s))
    as (_ & _ & _ & _ & _ & _ & _ & FE & EB & F).
  change (mFileSpec (mkFileSpec s)) with s in F, EB.
  destruct O as (O1 & O2).
  set (p := ParseSpec (mkFileSpec s)) in *.
  split; [tauto|]. split; [|split].
  - intros I.
    destruct (In_sub s (dirEnd p) (fileEnd p) _ I) as (j & J1 & _ & J3 & J4).
    exact (no_sep_after_dirEnd s j J1 J3 J4).
  - intros I.
    destruct (In_sub s (extBegin p) (length s) _ I) as (j & J1 & _ & J3 & J4).
    apply (no_sep_after_dirEnd s j); [fold p; lia | exact J3 | exact J4].
  - intros I.
    destruct (In_sub s (extBegin p) (length s) _ I) as (j & J1 & _ & J3 & J4).
    destruct (bHaveFileSep s).
    + destruct F as (E1 & _ & LF & _). apply lastFileSep_iff in LF.
      destruct LF as (_ & _ & LF). apply (LF j); [lia | exact J3 | exact J4].
    + destruct F as (_ & E2). lia.
Qed.

Lemma split_parts_hold_no_separator_witness :
  (lit "\dir\" = [] \/ rbegin (lit "\dir\") = "\"%char) /\
  ~ In "\"%char (lit "file.ex") /\ ~ In "\"%char (lit "longext") /\
  ~ In "."%char (lit "longext").
Proof.
  apply (split_parts_hold_no_separator (lit "a:\dir\file.ex.longext")
           (lit "a:")).
  vm_compute. reflexivity.
Defined.

(** X2: [Split] builds a string from a reversed pair of iterators exactly
    on the following paths.  With three parts: the second character is the
    colon and the only directory separator is the first character.  With
    four parts: those paths, and the paths whose second character is the
    colon, that hold no directory separator, and whose only extension
    separator is the first character. *)
Theorem split_is_undefined_iff (s : str) :
  (Split3 (mkFileSpec s) = None <->
   bHaveVolSep s = true /\ rightmost "\" s 0) /\
  (Split4 (mkFileSpec s) = None <->
   bHaveVolSep s = true /\
   (rightmost "\" s 0 \/ (lastDirSep s = None /\ rightmost "." s 0))).
Proof.
  pose proof (ParseSpec_bounds (mkFileSpec s))
    as (_ & _ & _ & _ & VE & _ & DL & _ & _ & F).
  change (mFileSpec (mkFileSpec s)) with s in VE, DL, F.
  assert (DS : dirEnd (ParseSpec (mkFileSpec s))
               = match lastDirSep s with
                 | Some k => k + 1
                 | None => volEnd (ParseSpec (mkFileSpec s))
                 end) by reflexivity.
  set (p := ParseSpec (mkFileSpec s)) in *.
  assert (Colon : bHaveVolSep s = true -> at_ s 1 = ":"%char).
  { unfold bHaveVolSep.
    destruct (firstVolSep_cases s) as [(-> & _ & C)|(-> & _)];
      [auto | discriminate]. }
  assert (A : dirEnd p < volEnd p <->
              bHaveVolSep s = true /\ rightmost "\" s 0).
  { split.
    - intros L. destruct (bHaveVolSep s) eqn:B; [|lia].
      split; [reflexivity|].
      destruct (lastDirSep s) as [k|] eqn:R; [|lia].
      assert (k = 0) by lia. subst k.
      unfold lastDirSep in R. apply rfind_Some. exact R.
    - intros (B & R). rewrite B in VE.
      apply rightmost_rfind in R. unfold lastDirSep in DS. rewrite R in DS. lia. }
  split.
  - rewrite <- A. split.
    + intros H. destruct (le_lt_dec (volEnd p) (dirEnd p)) as [L|L]; [|exact L].
      rewrite (Split3_defined _ L) in H. discriminate H.
    + apply Split3_undefined.
  - split.
    + intros H.
      destruct (le_lt_dec (volEnd p) (dirEnd p)) as [L1|L1];
        [|apply A in L1; tauto].
      destruct (le_lt_dec (dirEnd p) (fileEnd p)) as [L2|L2].
      { rewrite (Split4_ordered _ (conj L1 L2)) in H. discriminate H. }
      destruct (bHaveFileSep s) eqn:HF; [|destruct F as (F1 & _); lia].
      destruct F as (_ & Cd & LF & HD).
      destruct (lastDirSep s) as [k|] eqn:R.
      { unfold bHaveDirSep in HD. rewrite R in HD. specialize (HD eq_refl). lia. }
      destruct (bHaveVolSep s) eqn:B; [|lia].
      split; [reflexivity|]. right. split; [reflexivity|].
      apply lastFileSep_iff in LF.
      assert (fileEnd p <> 1).
      { intros E1. rewrite E1 in Cd. rewrite (Colon eq_refl) in Cd.
        discriminate Cd. }
      assert (E0 : fileEnd p = 0) by lia. rewrite E0 in LF. exact LF.
    + intros (B & [R|(R & D)]).
      * destruct (Split4 (mkFileSpec s)) as [[[[v d] f] e]|] eqn:E; [|reflexivity].
        apply Split4_inv in E. destruct E as (E & _). fold p in E.
        assert (dirEnd p < volEnd p) by (apply A; auto). lia.
      * destruct (Split4 (mkFileSpec s)) as [[[[v d] f] e]|] eqn:E; [|reflexivity].
        apply Split4_inv in E. destruct E as (_ & E). fold p in E.
        rewrite R, VE, B in DS.
        assert (HF : bHaveFileSep s = true).
        { apply bHaveFileSep_iff. exists 0. split; [exact D|].
          intros k Hk. apply rightmost_rfind in Hk. unfold lastDirSep in R.
          congruence. }
        rewrite HF in F. destruct F as (_ & _ & LF & _).
        apply lastFileSep_iff in LF.
        pose proof (rightmost_unique _ _ _ _ LF D). lia.
Qed.

Section ValidateAsserts.

Context {CU : CharUtil}.

(** X3: of the assertions of [Validate], only the letter check of the
    volume and the two name checks can fail: whenever [Split] returns, the
    checks of the length of the volume, of its colon and of the rebuilt
    string pass. *)
Theorem validate_fails_only_on_letter_or_names (fs : FileSpec)
    (vol dir file : str) :
  Split3 fs = Some (vol, dir, file) ->
  (vol <> [] -> length vol = 2 /\ at_ vol 1 = ":"%char) /\
  vol ++ dir ++ file = mFileSpec fs /\
  (Validate fs = Some tt <->
   (vol <> [] -> IsAlpha (at_ vol 0) = true) /\
   IsGoodFileName dir = true /\ IsGoodFileName file = true).
Proof.
  destruct fs as [s]. intros H.
  pose proof (Split3_shape _ _ _ _ H) as (App & HV & _).
  split; [|split; [exact App | exact (Validate_Split3 _ _ _ _ H)]].
  intros NE. destruct HV as [(E & _)|(L & C & _)]; [contradiction | auto].
Qed.

(** X4: the three parts of a validated path construct the same path
    again. *)
Theorem split_then_construct (P : str) (fs : FileSpec) (vol dir file : str) :
  FileSpec1 P = Some fs ->
  Split3 fs = Some (vol, dir, file) ->
  FileSpec3 vol dir file = Some fs.
Proof.
  intros HP H. apply FileSpec1_inv in HP. destruct HP as (-> & V).
  unfold FileSpec3. rewrite (join3_Split3 _ _ _ _ file H).
  rewrite (Split3_app _ _ _ _ H). cbn [mFileSpec]. rewrite V. reflexivity.
Qed.

End ValidateAsserts.

Lemma validate_fails_only_on_letter_or_names_witness :
  (lit "a:" <> [] -> length (lit "a:") = 2 /\ at_ (lit "a:") 1 = ":"%char) /\
  lit "a:" ++ lit "\dir\" ++ lit "file.ext"
    = mFileSpec (mkFileSpec (lit "a:\dir\file.ext")) /\
  (@Validate ascii_CharUtil (mkFileSpec (lit "a:\dir\file.ext")) = Some tt <->
   (lit "a:" <> [] -> @IsAlpha ascii_CharUtil (at_ (lit "a:") 0) = true) /\
   @IsGoodFileName ascii_CharUtil (lit "\dir\") = true /\
   @IsGoodFileName ascii_CharUtil (lit "file.ext") = true).
Proof.
  apply (@validate_fails_only_on_letter_or_names ascii_CharUtil
           (mkFileSpec (lit "a:\dir\file.ext"))).
  vm_compute. reflexivity.
Defined.

Lemma split_then_construct_witness :
  @FileSpec3 ascii_CharUtil (lit "a:") (lit "\dir\") (lit "file.ext")
  = Some (mkFileSpec (lit "a:\dir\file.ext")).
Proof.
  apply (@split_then_construct ascii_CharUtil (lit "a:\dir\file.ext"));
    vm_compute; reflexivity.
Defined.

(** ** From parts to a path and back *)

Lemma rbegin_In (s : str) : s <> [] -> In (rbegin s) s.
Proof.
  intros H. destruct (exists_last_char s H) as (q & E).
  rewrite E at 2. apply in_or_app. right. left. reflexivity.
Qed.

Lemma join_dir_closed (dir : str) :
  dir = [] \/ rbegin dir = "\"%char ->
  negb (empty dir) && negb (Ascii.eqb (rbegin dir) "\")
    && negb (Ascii.eqb (rbegin dir) "/") = false.
Proof.
  intros [-> | ->]; [reflexivity|]. simpl. rewrite andb_false_r. reflexivity.
Qed.

(** The reassembly of the specification gives the path back exactly when
    the path does not end in the extension separator. *)
Lemma reassemble_iff (P : str) :
  ordered (mkFileSpec P) ->
  let p := ParseSpec (mkFileSpec P) in
  reassemble (sub P 0 (volEnd p)) (sub P (volEnd p) (dirEnd p))
    (sub P (dirEnd p) (fileEnd p)) (sub P (extBegin p) (length P)) = P
  <-> ~ ends_in_dot P.
Proof.
  intros O p. pose proof (parts_app _ O) as PA. cbv zeta in PA.
  change (mFileSpec (mkFileSpec P)) with P in PA. fold p in PA.
  pose proof (ParseSpec_bounds (mkFileSpec P))
    as (_ & _ & _ & _ & _ & _ & _ & _ & EB & F).
  change (mFileSpec (mkFileSpec P)) with P in EB, F. fold p in EB, F.
  unfold reassemble.
  destruct (bHaveFileSep P) eqn:HF.
  - destruct (empty (sub P (extBegin p) (length P))) eqn:EE.
    + apply empty_true in EE. rewrite EE in PA. split.
      * intros H. exfalso. rewrite <- PA in H at 4.
        apply (f_equal (@length ascii)) in H.
        repeat rewrite length_app in H. simpl in H. lia.
      * intros N. exfalso. apply N.
        exists (sub P 0 (volEnd p) ++ sub P (volEnd p) (dirEnd p) ++
                sub P (dirEnd p) (fileEnd p)).
        rewrite <- PA at 1. repeat rewrite <- app_assoc. reflexivity.
    + split; [|intros _; exact PA].
      intros _ D. apply ends_in_dot_sep in D. destruct D as (_ & D).
      fold p in D. rewrite D, sub_same in EE. discriminate EE.
  - destruct F as (_ & ->). rewrite sub_same in *. simpl.
    split; [|intros _; exact PA].
    intros _ D. apply ends_in_dot_sep in D. destruct D as (D & _). congruence.
Qed.

Section ConstructFromParts.

Context {CU : CharUtil}.

(** X5: on the four parts of a validated path the constructor writes the
    extension separator exactly before an extension that is not empty, for an
    extension that [Split] returns holds no separator; so it constructs the
    same path again exactly when the path does not end in the separator. *)
Theorem split_then_construct_with_extension (P : str) (fs : FileSpec)
    (vol dir stem ext : str) :
  FileSpec1 P = Some fs ->
  Split4 fs = Some (vol, dir, stem, ext) ->
  join4 vol dir stem ext = reassemble vol dir stem ext /\
  (FileSpec4 vol dir stem ext = Some fs <-> ~ ends_in_dot P).
Proof.
  intros HP H. apply FileSpec1_inv in HP. destruct HP as (-> & V).
  assert (HX := H). apply split_parts_hold_no_separator_aux in HX.
  destruct HX as (HD & ND).
  assert (J : join4 vol dir stem ext = reassemble vol dir stem ext).
  { unfold join4, reassemble. rewrite (join_dir_closed dir HD).
    destruct ext as [|c e]; simpl empty; cbn [negb andb].
    - rewrite !app_nil_r, app_assoc. reflexivity.
    - replace (Ascii.eqb (rbegin (c :: e)) ".") with false.
      + cbn [negb]. rewrite <- !app_assoc. reflexivity.
      + symmetry. apply Ascii.eqb_neq. intros E. apply ND. rewrite <- E.
        apply rbegin_In. discriminate. }
  split; [exact J|].
  pose proof (Split4_inv _ _ _ _ _ H) as O.
  pose proof (Split4_ordered _ O) as E. cbv zeta in E.
  change (mFileSpec (mkFileSpec P)) with P in E.
  pose proof (reassemble_iff P O) as R. cbv zeta in R.
  assert (Hv : vol = sub P 0 (volEnd (ParseSpec (mkFileSpec P)))) by congruence.
  assert (Hd : dir = sub P (volEnd (ParseSpec (mkFileSpec P)))
                       (dirEnd (ParseSpec (mkFileSpec P)))) by congruence.
  assert (Hs : stem = sub P (dirEnd (ParseSpec (mkFileSpec P)))
                        (fileEnd (ParseSpec (mkFileSpec P)))) by congruence.
  assert (He : ext = sub P (extBegin (ParseSpec (mkFileSpec P))) (length P))
    by congruence.
  rewrite <- Hv, <- Hd, <- Hs, <- He in R.
  rewrite <- R. rewrite <- J.
  unfold FileSpec4. split.
  - destruct (Validate (mkFileSpec (join4 vol dir stem ext)));
      cbn [obind]; [|discriminate].
    intros Q. injection Q as Q. exact Q.
  - intros Q. rewrite Q, V. reflexivity.
Qed.

End ConstructFromParts.

Lemma split_then_construct_with_extension_witness :
  @join4 (lit "a:") (lit "\dir\") (lit "file") (lit "ext")
    = reassemble (lit "a:") (lit "\dir\") (lit "file") (lit "ext") /\
  (@FileSpec4 ascii_CharUtil (lit "a:") (lit "\dir\") (lit "file") (lit "ext")
     = Some (mkFileSpec (lit "a:\dir\file.ext"))
   <-> ~ ends_in_dot (lit "a:\dir\file.ext")).
Proof.
  apply (@split_then_construct_with_extension ascii_CharUtil
           (lit "a:\dir\file.ext"));
    vm_compute; reflexivity.
Defined.

Lemma at_In (s : str) (j : nat) : j < length s -> In (at_ s j) s.
Proof.
  intros H. unfold at_. apply nth_In. exact H.
Qed.

(** X6: the text that the constructor assembles from a volume, a directory
    and a file splits into the same volume, the directory closed by a
    separator, and the same file, when the volume is empty or a character
    other than the separator and the colon, the directory and the file hold
    no colon, the file holds no separator, and the directory does not end in
    a forward slash. *)
Theorem construct_then_split (vol dir file : str) :
  (vol = [] \/ exists c, c <> "\"%char /\ vol = [c; ":"%char]) ->
  ~ In ":"%char dir -> ~ In ":"%char file -> ~ In "\"%char file ->
  (dir = [] \/ rbegin dir <> "/"%char) ->
  Split3 (mkFileSpec (join3 vol dir file))
  = Some (vol,
          if empty dir || Ascii.eqb (rbegin dir) "\" then dir
          else dir ++ ["\"%char],
          file).
Proof.
  intros HV CD CF SF HS.
  set (d' := if empty dir || Ascii.eqb (rbegin dir) "\" then dir
             else dir ++ ["\"%char]).
  assert (J : join3 vol dir file = vol ++ d' ++ file).
  { unfold join3, d'. destruct dir as [|c d];
      [simpl; rewrite app_nil_r; reflexivity|].
    cbn [empty negb andb orb].
    destruct HS as [HS|HS]; [discriminate HS|].
    apply Ascii.eqb_neq in HS. rewrite HS. cbn [negb]. rewrite andb_true_r.
    destruct (Ascii.eqb (rbegin (c :: d)) "\"); cbn [negb];
      rewrite <- ?app_assoc; reflexivity. }
  assert (D1 : d' = [] \/ rbegin d' = "\"%char).
  { unfold d'. destruct dir as [|c d]; [left; reflexivity|].
    right. cbn [empty orb].
    destruct (Ascii.eqb (rbegin (c :: d)) "\") eqn:E.
    - apply Ascii.eqb_eq. exact E.
    - unfold rbegin. apply last_last. }
  assert (D2 : d' = [] -> dir = []).
  { unfold d'. destruct dir as [|c d]; [reflexivity|]. cbn [empty orb].
    destruct (Ascii.eqb _ _); [discriminate|].
    intros E. apply app_eq_nil in E. destruct E as (_ & E). discriminate E. }
  assert (D3 : ~ In ":"%char d').
  { unfold d'. destruct (empty dir || Ascii.eqb (rbegin dir) "\"); [exact CD|].
    intros I. apply in_app_or in I. destruct I as [I|[I|[]]];
      [exact (CD I) | discriminate I]. }
  rewrite J. apply Split3_intro.
  - destruct HV as [-> | (c & _ & ->)]; [left | right; split; reflexivity].
    split; [reflexivity|]. simpl app. intros (L & C).
    pose proof (at_In _ 1 L) as I. rewrite C in I.
    apply in_app_or in I. tauto.
  - exact D1.
  - intros E. destruct HV as [-> | (c & N & ->)]; [intros []|].
    intros [I|[I|[]]]; [congruence | discriminate I].
  - exact SF.
Qed.

Lemma construct_then_split_witness :
  Split3 (mkFileSpec (join3 (lit "a:") (lit "\dir") (lit "file.ext")))
  = Some (lit "a:",
          if empty (lit "\dir") || Ascii.eqb (rbegin (lit "\dir")) "\"
          then lit "\dir" else lit "\dir" ++ ["\"%char],
          lit "file.ext").
Proof.
  apply construct_then_split.
  - right. exists "a"%char. split; [discriminate | reflexivity].
  - vm_compute. intuition discriminate.
  - vm_compute. intuition discriminate.
  - vm_compute. intuition discriminate.
  - right. vm_compute. discriminate.
Defined.

(** X7: the constructor takes a directory that ends in a forward slash for
    closed and adds no separator, but the parser knows the backslash only:
    when no backslash and no colon occurs, the text assembled from such a
    directory and a file splits into an empty directory and a file that
    holds the directory. *)
Theorem forward_slash_directory_becomes_file (q file : str) :
  ~ In "\"%char q -> ~ In "\"%char file ->
  ~ In ":"%char q -> ~ In ":"%char file ->
  join3 [] (q ++ ["/"%char]) file = q ++ "/"%char :: file /\
  Split3 (mkFileSpec (join3 [] (q ++ ["/"%char]) file))
  = Some ([], [], q ++ "/"%char :: file).
Proof.
  intros SQ SF CQ CF.
  assert (J : join3 [] (q ++ ["/"%char]) file = q ++ "/"%char :: file).
  { unfold join3. unfold rbegin. rewrite last_last. simpl (Ascii.eqb "/" "/").
    cbn [negb]. rewrite andb_false_r. simpl. rewrite <- app_assoc. reflexivity. }
  split; [exact J|]. rewrite J.
  assert (NS : ~ In "\"%char (q ++ "/"%char :: file)).
  { intros I. apply in_app_or in I. destruct I as [I|[I|I]];
      [exact (SQ I) | discriminate I | exact (SF I)]. }
  assert (NC : ~ In ":"%char (q ++ "/"%char :: file)).
  { intros I. apply in_app_or in I. destruct I as [I|[I|I]];
      [exact (CQ I) | discriminate I | exact (CF I)]. }
  apply (Split3_intro [] [] (q ++ "/"%char :: file)).
  - left. split; [reflexivity|]. simpl app. intros (L & C).
    pose proof (at_In _ 1 L) as I. rewrite C in I. exact (NC I).
  - left. reflexivity.
  - intros _ [].
  - exact NS.
Qed.

Lemma forward_slash_directory_becomes_file_witness :
  join3 [] (lit "dir" ++ ["/"%char]) (lit "file")
    = lit "dir" ++ "/"%char :: lit "file" /\
  Split3 (mkFileSpec (join3 [] (lit "dir" ++ ["/"%char]) (lit "file")))
  = Some ([], [], lit "dir" ++ "/"%char :: lit "file").
Proof.
  apply forward_slash_directory_becomes_file;
    vm_compute; intuition discriminate.
Defined.

(** ** The path that is handed to the operating system *)

Arguments FileSpec1 : simpl never.

Lemma last_index_test (q : str) (c : ascii) :
  match find_last_of "\" (q ++ [c]) with
  | Some i => i =? length (q ++ [c]) - 1
  | None => false
  end = Ascii.eqb c "\".
Proof.
  unfold find_last_of. rewrite rfind_app, length_app. simpl.
  destruct (Ascii.eqb c "\").
  - apply Nat.eqb_eq. lia.
  - destruct (rfind "\" q) as [i|] eqn:R; [|reflexivity].
    apply rfind_Some in R. destruct R as (R & _). apply Nat.eqb_neq. lia.
Qed.

Lemma firstn_app_last (q : str) (c : ascii) :
  firstn (length (q ++ [c]) - 1) (q ++ [c]) = q.
Proof.
  rewrite length_app. simpl. replace (length q + 1 - 1) with (length q) by lia.
  rewrite firstn_app, Nat.sub_diag. simpl. rewrite app_nil_r. apply firstn_all.
Qed.

Section OpenedPath.

Context {CU : CharUtil} {OS : Win32}.

(** X8: the constructor of the iterator removes one trailing directory
    separator from the pattern, and no more: on a pattern that ends in the
    separator it opens the listing of the pattern without its last
    character, when that shorter path passes [Validate] (it is stopped before
    it opens anything when it does not); on any other pattern it opens the
    listing of the pattern itself. *)
Theorem init_strips_one_trailing_separator (q : str) :
  (Validate (mkFileSpec q) = Some tt ->
   trace (FileItr.ctor (mkFileSpec (q ++ ["\"%char]))) = [EvFindFirst q]) /\
  (Validate (mkFileSpec q) = None ->
   FileItr.ctor (mkFileSpec (q ++ ["\"%char])) = ([], Stopped)) /\
  (forall c, c <> "\"%char ->
   trace (FileItr.ctor (mkFileSpec (q ++ [c]))) = [EvFindFirst (q ++ [c])]) /\
  trace (FileItr.ctor (mkFileSpec [])) = [EvFindFirst []].
Proof.
  assert (S : forall c,
    FileItr.strip_trailing (mkFileSpec (q ++ [c])) =
    if Ascii.eqb c "\" then
      _ <- Validate (mkFileSpec q) ;; Some (q, mkFileSpec q)
    else Some (q ++ [c], mkFileSpec (q ++ [c]))).
  { intros c. unfold FileItr.strip_trailing, GetFullPath. cbn [mFileSpec].
    rewrite last_index_test.
    replace (empty (q ++ [c])) with false by (destruct q; reflexivity).
    cbn [negb andb]. destruct (Ascii.eqb c "\"); [|reflexivity].
    rewrite firstn_app_last. unfold Assign.
    destruct (Validate (mkFileSpec q)); reflexivity. }
  assert (T : forall spec path fs,
    FileItr.strip_trailing spec = Some (path, fs) ->
    trace (FileItr.ctor spec) = [EvFindFirst path]).
  { intros spec path fs H.
    destruct (ctor_trace spec) as [(N & _)|(p & f & E & Tr & _)]; [congruence|].
    rewrite E in H. injection H as <- _. exact Tr. }
  split; [|split; [|split]].
  - intros V. apply (T _ q (mkFileSpec q)). rewrite S.
    simpl (Ascii.eqb _ _). cbv iota. rewrite V. reflexivity.
  - intros V. destruct (ctor_trace (mkFileSpec (q ++ ["\"%char])))
      as [(_ & E)|(p & f & E & _)]; [exact E|].
    rewrite S in E. simpl (Ascii.eqb _ _) in E. cbv iota in E. rewrite V in E.
    discriminate E.
  - intros c N. apply (T _ _ (mkFileSpec (q ++ [c]))). rewrite S.
    apply Ascii.eqb_neq in N. rewrite N. reflexivity.
  - apply (T _ _ (mkFileSpec [])). reflexivity.
Qed.

(** An iterator that the constructor returns with a current entry was given
    a listing by the operating system. *)
Lemma ctor_Exists_found (spec : FileSpec) (t : list Event) (i : FileItr) :
  FileItr.ctor spec = (t, Returned i) ->
  FileItr.Exists i = true ->
  exists path fs first pending,
    FileItr.strip_trailing spec = Some (path, fs) /\
    FindFirstFileExA path = FindFound first pending /\
    t = [EvFindFirst path].
Proof.
  intros H E.
  destruct (ctor_trace spec) as [(_ & C)|(path & fs & HS & Tr & _)];
    [congruence|].
  rewrite H in Tr. cbn in Tr. exists path, fs.
  unfold FileItr.ctor, FileItr.Init in H. rewrite HS in H.
  cbn [lift] in H. rewrite bind_assoc, bind_ret_l in H.
  cbn [FileItr.Close set_mpFindData mFindHandle INVALID_HANDLE_VALUE] in H.
  destruct (FindFirstFileExA path) as [first pending|err].
  - exists first, pending. auto.
  - exfalso. cbn in H. injection H as _ <-. unfold FileItr.Exists in E.
    destruct (err =? ERROR_BAD_NETPATH)%N; discriminate E.
Qed.

Lemma strip_trailing_path (spec : FileSpec) (path : str) (fs : FileSpec) :
  FileItr.strip_trailing spec = Some (path, fs) ->
  path =
  (let p := GetFullPath spec in
   if negb (empty p) &&
      match find_last_of "\" p with
      | Some i => i =? length p - 1
      | None => false
      end
   then firstn (length p - 1) p else p).
Proof.
  unfold FileItr.strip_trailing. cbv zeta.
  destruct (negb _ && _).
  - destruct (Assign _ _); cbn [obind]; [|discriminate].
    intros H. injection H as <- _. reflexivity.
  - intros H. injection H as <- _. reflexivity.
Qed.

Context {NET : Win32Net}.

(** X9: when the iterator over a validated pattern has a current entry,
    [Exists] of the pattern returns true, after opening the same listing. *)
Theorem iterator_entry_implies_exists (fs : FileSpec) (t : list Event)
    (i : FileItr) :
  Validate fs = Some tt ->
  FileItr.ctor fs = (t, Returned i) ->
  FileItr.Exists i = true ->
  FileSpecOS.Exists fs = (t, Returned true).
Proof.
  intros V H E.
  destruct (ctor_Exists_found fs t i H E)
    as (path & fs' & first & pending & HS & HF & ->).
  apply strip_trailing_path in HS. cbv zeta in HS.
  destruct fs as [s]. unfold FileSpecOS.Exists, FileSpec1.
  cbn [mFileSpec]. rewrite V. cbn [obind lift]. rewrite bind_ret_l.
  unfold GetFullPath in HS |- *. cbn [mFileSpec] in HS |- *.
  cbv zeta.
  match goal with
  | |- context [EvFindFirst ?p] => replace p with path by exact HS
  end.
  rewrite HF. reflexivity.
Qed.

(** X10: [Exists] does not see one trailing directory separator: a
    validated path that does not end in the separator and the path with a
    separator appended, when it is validated too, open the same listing and
    give the same answer. *)
Theorem exists_ignores_one_trailing_separator (q : str) :
  Validate (mkFileSpec q) = Some tt ->
  Validate (mkFileSpec (q ++ ["\"%char])) = Some tt ->
  q = [] \/ rbegin q <> "\"%char ->
  FileSpecOS.Exists (mkFileSpec (q ++ ["\"%char]))
  = FileSpecOS.Exists (mkFileSpec q).
Proof.
  intros V1 V2 HQ. unfold FileSpecOS.Exists, FileSpec1. cbn [mFileSpec].
  rewrite V1, V2. cbn [obind lift]. rewrite !bind_ret_l.
  unfold GetFullPath. cbn [mFileSpec]. cbv zeta.
  rewrite last_index_test. simpl (Ascii.eqb _ _).
  replace (empty (q ++ ["\"%char])) with false by (destruct q; reflexivity).
  cbn [negb andb]. rewrite firstn_app_last.
  replace (negb (empty q) &&
           match find_last_of "\" q with
           | Some i => i =? length q - 1
           | None => false
           end) with false; [reflexivity|].
  destruct HQ as [-> | HQ]; [reflexivity|].
  destruct (list_eq_dec ascii_dec q []) as [-> | NE]; [reflexivity|].
  destruct (exists_last_char q NE) as (q' & E). rewrite E.
  rewrite last_index_test. apply Ascii.eqb_neq in HQ. rewrite HQ.
  symmetry. apply andb_false_r.
Qed.

(** X11: a path without a volume is no network drive and no connected
    network drive; both queries answer without asking the operating
    system. *)
Theorem no_volume_is_no_network_drive (fs : FileSpec) :
  bHaveVolSep (mFileSpec fs) = false ->
  FileSpecOS.IsNetDrive fs = Some false /\
  FileSpecOS.IsConnectedNetDrive fs = ([], Returned false).
Proof.
  intros B. destruct fs as [s]. cbn [mFileSpec] in B.
  assert (N : FileSpecOS.IsNetDrive (mkFileSpec s) = Some false).
  { unfold FileSpecOS.IsNetDrive. rewrite GetVol_defined. cbn [obind mFileSpec].
    destruct (vol_span s) as [(B' & _)|(_ & _ & E)]; [congruence|].
    cbv zeta in E. rewrite E. reflexivity. }
  split; [exact N|].
  unfold FileSpecOS.IsConnectedNetDrive. rewrite N. reflexivity.
Qed.

(** X12: [IsConnectedNetDrive] returns true only of a network drive whose
    volume has a connection. *)
Theorem connected_implies_network_drive (fs : FileSpec) :
  result (FileSpecOS.IsConnectedNetDrive fs) = Returned true ->
  FileSpecOS.IsNetDrive fs = Some true /\
  exists vol, GetVol fs = Some vol /\ WNetGetConnectionA vol = NO_ERROR.
Proof.
  unfold FileSpecOS.IsConnectedNetDrive.
  destruct (FileSpecOS.IsNetDrive fs) as [[|]|]; cbn [lift];
    rewrite ?bind_ret_l; cbn [negb]; try (cbn; discriminate).
  rewrite GetVol_defined. cbn [lift]. rewrite bind_ret_l.
  set (vol := sub (mFileSpec fs) 0 (volEnd (ParseSpec fs))).
  intros H. split; [reflexivity|]. exists vol. split; [reflexivity|].
  destruct (_ || _) in H; [cbn in H; discriminate H|].
  destruct (WNetGetConnectionA vol =? NO_ERROR)%N eqn:E.
  - apply N.eqb_eq. exact E.
  - cbn in H. discriminate H.
Qed.

End OpenedPath.

Lemma iterator_entry_implies_exists_witness :
  @FileSpecOS.Exists ascii_CharUtil small_OS (mkFileSpec (lit "*.txt"))
  = ([EvFindFirst (lit "*.txt")], Returned true).
Proof.
  apply (@iterator_entry_implies_exists ascii_CharUtil small_OS
           (mkFileSpec (lit "*.txt")) [EvFindFirst (lit "*.txt")]
           (mkFileItr (plain_file (lit "a.txt")) (Some []) [] []
              (mkFileSpec (lit "a.txt")) true));
    vm_compute; reflexivity.
Defined.

Lemma exists_ignores_one_trailing_separator_witness :
  @FileSpecOS.Exists ascii_CharUtil small_OS
    (mkFileSpec (lit "sub" ++ ["\"%char]))
  = @FileSpecOS.Exists ascii_CharUtil small_OS (mkFileSpec (lit "sub")).
Proof.
  apply (@exists_ignores_one_trailing_separator ascii_CharUtil small_OS
           (lit "sub")).
  - vm_compute. reflexivity.
  - vm_compute. reflexivity.
  - right. vm_compute. discriminate.
Defined.

Lemma no_volume_is_no_network_drive_witness :
  @FileSpecOS.IsNetDrive small_NET (mkFileSpec (lit "dir\file.txt"))
    = Some false /\
  @FileSpecOS.IsConnectedNetDrive ascii_CharUtil small_OS small_NET
    (mkFileSpec (lit "dir\file.txt")) = ([], Returned false).
Proof.
  apply (@no_volume_is_no_network_drive ascii_CharUtil small_OS small_NET
           (mkFileSpec (lit "dir\file.txt"))).
  vm_compute. reflexivity.
Defined.

Lemma connected_implies_network_drive_witness :
  @FileSpecOS.IsNetDrive small_NET (mkFileSpec (lit "n:\dir\")) = Some true /\
  exists vol,
    GetVol (mkFileSpec (lit "n:\dir\")) = Some vol /\
    @WNetGetConnectionA small_NET vol = NO_ERROR.
Proof.
  apply (@connected_implies_network_drive ascii_CharUtil small_OS small_NET
           (mkFileSpec (lit "n:\dir\"))).
  vm_compute. reflexivity.
Defined.

(** ** The iterator *)

Section IteratorFacts.

Context {CU : CharUtil} {OS : Win32}.

Lemma advance_keeps_flag (pending : list WIN32_FIND_DATAA) :
  forall i i', FileItr.advance pending i = Some i' ->
  mNetworkAvail i = true -> mNetworkAvail i' = true.
Proof.
  induction pending as [|e pending IH]; intros i i' H T.
  - simpl in H. injection H as <-. unfold FileItr.Close.
    destruct (mFindHandle i); [reflexivity | exact T].
  - cbn [FileItr.advance] in H.
    destruct (FileItr.SkipSpecialFolders _ _) as [i2|] eqn:Sk;
      cbn [obind] in H; [|discriminate].
    apply store_spec_fields in H. destruct H as (_ & _ & _ & _ & ->).
    rewrite SkipSpecialFolders_eq in Sk by reflexivity.
    destruct (_ && _) in Sk.
    + exact (IH _ _ Sk T).
    + injection Sk as <-. exact T.
Qed.

(** The flag of an iterator that a caller can get hold of is true, or the
    iterator is the result of an open that failed on an unreachable
    network path. *)
Lemma reachable_flag (i : FileItr) :
  reachable i ->
  mNetworkAvail i = true \/
  (mFindHandle i = None /\
   exists spec path fs,
     FileItr.strip_trailing spec = Some (path, fs) /\
     FindFirstFileExA path = FindFailed ERROR_BAD_NETPATH /\
     FileItr.ctor spec = ([EvFindFirst path], Returned i)).
Proof.
  induction 1 as [spec t i H | i i' R IH H].
  - destruct (ctor_trace spec) as [(_ & C)|(path & fs & HS & _)]; [congruence|].
    pose proof H as H0.
    unfold FileItr.ctor, FileItr.Init in H. rewrite HS in H.
    cbn [lift] in H. rewrite bind_assoc, bind_ret_l in H.
    cbn [FileItr.Close set_mpFindData mFindHandle INVALID_HANDLE_VALUE] in H.
    destruct (FindFirstFileExA path) as [first pending|err] eqn:HF.
    + left.
      apply bind_Returned in H. destruct H as ([b i0] & t1 & t2 & HI & HR & _).
      injection HR as _ ->.
      apply bind_Returned in HI. destruct HI as ([] & t5 & t6 & _ & HI & _).
      apply bind_Returned in HI. destruct HI as (i1 & t7 & t8 & HSk & HI & _).
      apply lift_Returned in HSk. destruct HSk as (HSk & _).
      apply bind_Returned in HI.
      destruct HI as ([[vol dir] sFile] & t9 & t10 & _ & HI & _).
      apply bind_Returned in HI. destruct HI as (i2 & t11 & t12 & HST & HI & _).
      apply lift_Returned in HST. destruct HST as (HST & _).
      injection HI as _ _ <-.
      apply store_spec_fields in HST. destruct HST as (_ & _ & _ & _ & ->).
      cbn [mNetworkAvail set_mVolDir].
      rewrite SkipSpecialFolders_eq in HSk by reflexivity.
      destruct (_ && _) in HSk.
      * unfold FileItr.operator_inc in HSk. cbn in HSk.
        exact (advance_keeps_flag _ _ _ HSk eq_refl).
      * injection HSk as <-. reflexivity.
    + cbn in H. injection H as Ht <-. rewrite <- Ht in H0.
      destruct (err =? ERROR_BAD_NETPATH)%N eqn:E.
      * right. split; [reflexivity|]. apply N.eqb_eq in E. subst err.
        exists spec, path, fs. auto.
      * left. reflexivity.
  - left. unfold FileItr.operator_inc in H.
    destruct (FileItr.Exists i) eqn:E; cbn [assert obind] in H; [|discriminate].
    destruct (mFindHandle i) as [pending|] eqn:Hh; [|discriminate].
    destruct IH as [T|(N & _)]; [|congruence].
    exact (advance_keeps_flag _ _ _ H T).
Qed.

(** X13: in every state that a caller can get hold of, an iterator whose
    network flag is false has no current entry, and it is the iterator that
    the constructor returned for a pattern on whose path [FindFirstFileExA]
    failed with [ERROR_BAD_NETPATH], the only event of that construction
    being the open; an iterator with a current entry reports the network as
    available. *)
Theorem network_flag_is_false_only_after_bad_netpath (i : FileItr) :
  reachable i ->
  (FileItr.Exists i = true -> FileItr.IsNetworkAvailable i = true) /\
  (FileItr.IsNetworkAvailable i = false ->
   FileItr.Exists i = false /\
   exists spec path fs,
     FileItr.strip_trailing spec = Some (path, fs) /\
     FindFirstFileExA path = FindFailed ERROR_BAD_NETPATH /\
     FileItr.ctor spec = ([EvFindFirst path], Returned i)).
Proof.
  intros R. unfold FileItr.IsNetworkAvailable, FileItr.Exists.
  destruct (reachable_flag i R) as [T|(N & W)].
  - split; [intros _; exact T | intros F; congruence].
  - rewrite N. split; [discriminate | intros _; split; [reflexivity | exact W]].
Qed.

(** X14: a loop over the iterator needs no more passes than the handle has
    entries to come, plus one: with that much fuel or more it does the same,
    and it runs out of fuel only if its body does. *)
Theorem loop_fuel_suffices (body : FileItr -> M unit) (k : nat) (i : FileItr) :
  FileItr.remaining i <= k ->
  FileItr.iterate k body i = FileItr.iterate (FileItr.remaining i) body i /\
  ((forall j, result (body j) <> OutOfFuel) ->
   result (FileItr.iterate k body i) <> OutOfFuel).
Proof.
  intros Hk.
  assert (A : forall a b j, FileItr.remaining j <= a -> FileItr.remaining j <= b ->
              FileItr.iterate a body j = FileItr.iterate b body j).
  { induction a as [|a IH]; intros b j Ha Hb.
    - assert (E : FileItr.Exists j = false).
      { destruct (FileItr.Exists j) eqn:E; [|reflexivity].
        apply Exists_remaining in E. lia. }
      rewrite !iterate_closed by exact E. reflexivity.
    - destruct (FileItr.Exists j) eqn:E;
        [|rewrite !iterate_closed by exact E; reflexivity].
      pose proof (Exists_remaining _ E) as P.
      destruct b as [|b]; [lia|]. rewrite !iterate_S, E.
      apply bind_ext. intros _.
      destruct (FileItr.operator_inc j) as [j'|] eqn:I; [|reflexivity].
      cbn [lift]. rewrite !bind_ret_l.
      pose proof (operator_inc_remaining _ _ I). apply IH; lia. }
  split; [apply A; [exact Hk | lia]|].
  intros Hb. revert i Hk. induction k as [|k IH]; intros i Hk.
  - destruct (FileItr.Exists i) eqn:E.
    + apply Exists_remaining in E. lia.
    + rewrite iterate_closed by exact E. discriminate.
  - destruct (FileItr.Exists i) eqn:E;
      [|rewrite iterate_closed by exact E; discriminate].
    rewrite iterate_S, E. specialize (Hb i).
    destruct (body i) as [t [[]| |]]; cbn in Hb |- *; [|discriminate|contradiction].
    destruct (FileItr.operator_inc i) as [i'|] eqn:I; [|cbn; discriminate].
    pose proof (operator_inc_remaining _ _ I).
    specialize (IH i' ltac:(lia)). cbn [lift]. rewrite bind_ret_l.
    destruct (FileItr.iterate k body i') as [t' o]. cbn in IH |- *. exact IH.
Qed.

End IteratorFacts.

Lemma network_flag_is_false_only_after_bad_netpath_witness :
  let i := mkFileItr zero_find_data None [] [] (mkFileSpec []) false in
  (FileItr.Exists i = true -> FileItr.IsNetworkAvailable i = true) /\
  (FileItr.IsNetworkAvailable i = false ->
   FileItr.Exists i = false /\
   exists spec path fs,
     @FileItr.strip_trailing ascii_CharUtil spec = Some (path, fs) /\
     @FindFirstFileExA small_OS path = FindFailed ERROR_BAD_NETPATH /\
     @FileItr.ctor ascii_CharUtil small_OS spec
       = ([EvFindFirst path], Returned i)).
Proof.
  apply (@network_flag_is_false_only_after_bad_netpath ascii_CharUtil small_OS).
  apply (reach_ctor (mkFileSpec (lit "n:\*")) [EvFindFirst (lit "n:\*")]).
  vm_compute. reflexivity.
Defined.

Lemma loop_fuel_suffices_witness :
  let i := mkFileItr (plain_file (lit "a.txt")) (Some [folder (lit "sub")]) [] []
             (mkFileSpec (lit "a.txt")) true in
  @FileItr.iterate ascii_CharUtil 5 DirTree.visit i
    = @FileItr.iterate ascii_CharUtil (FileItr.remaining i) DirTree.visit i /\
  ((forall j, result (DirTree.visit j) <> OutOfFuel) ->
   result (@FileItr.iterate ascii_CharUtil 5 DirTree.visit i) <> OutOfFuel).
Proof.
  apply (@loop_fuel_suffices ascii_CharUtil). vm_compute. lia.
Defined.

(** ** The entries that the iterator delivers *)

Lemma for_each_emit {A : Type} (l : list A) (g : A -> Event) :
  for_each l (fun a => emit (g a)) = (map g l, Returned tt).
Proof.
  induction l as [|a l IH]; [reflexivity|].
  cbn [for_each map]. rewrite IH. reflexivity.
Qed.

Section Cursor.

Context {CU : CharUtil} {OS : Win32}.

(** X15: the match pass calls the visitor once for every entry of the
    listing of the pattern that is not a special folder, in the order of the
    listing, on the spec composed of the volume and directory of the pattern
    and the name of the entry; it opens that one listing and returns.  The
    names of the listing are names of the file system that the name check
    accepts, as it accepts the empty string. *)
Theorem match_pass_visits_every_entry_once (n : nat) (fs : FileSpec)
    (path s1 vol dir f : str) :
  FileItr.strip_trailing fs = Some (path, mkFileSpec s1) ->
  Split3 (mkFileSpec s1) = Some (vol, dir, f) ->
  Validate (mkFileSpec s1) = Some tt ->
  IsGoodFileName [] = true ->
  forallb entry_ok (listing (FindFirstFileExA path)) = true ->
  DirTree.ForEach (S n) fs NoSubFolders =
  (EvForEach fs NoSubFolders :: EvFindFirst path ::
     map (fun d => EvVisit (entry_spec vol dir d))
       (yielded (FindFirstFileExA path)),
   Returned tt).
Proof.
  intros HS H3 HV G0 HL. cbn [DirTree.ForEach]. rewrite bind_ret_tt.
  rewrite (for_each_entry_spec fs path s1 vol dir f
             (fun d sp => emit (EvVisit sp)) DirTree.visit HS H3 HV G0 HL visit_eq).
  rewrite (for_each_emit _ (fun d => EvVisit (mkFileSpec (vol ++ dir ++ cFileName d)))).
  reflexivity.
Qed.

Variables (vol dir s0 f0 : str).
Hypothesis Hsplit : Split3 (mkFileSpec s0) = Some (vol, dir, f0).
Hypothesis Hvalid : Validate (mkFileSpec s0) = Some tt.

(** From an iterator that rests on [e], [k] calls of [operator ++] lead to
    the [k]-th of the entries that follow, special folders left out, and
    to an iterator without a handle after the last one. *)
Lemma increments_spec (k : nat) :
  forall e pending i,
  mpFindData i = e -> mFindHandle i = Some pending ->
  mVol i = vol -> mDir i = dir ->
  mSpec i = entry_spec vol dir e ->
  entry_ok e = true -> forallb entry_ok pending = true ->
  let l := e :: filter (fun d => negb (special_folder d)) pending in
  (forall d, nth_error l k = Some d ->
     exists ik, increments k i = Some ik /\ FileItr.Exists ik = true /\
       mpFindData ik = d /\ mSpec ik = entry_spec vol dir d) /\
  (k = length l ->
     exists ik, increments k i = Some ik /\ FileItr.Exists ik = false).
Proof.
  induction k as [|k IH]; intros e pending i D H V Dr Sp Ee Ep l.
  - split.
    + intros d N. injection N as <-. exists i.
      unfold FileItr.Exists. rewrite H. auto.
    + intros N. discriminate N.
  - assert (Ex : FileItr.Exists i = true)
      by (unfold FileItr.Exists; rewrite H; reflexivity).
    rewrite <- D in Ee.
    destruct (advance_spec vol dir s0 f0 Hsplit Hvalid pending i V Dr Ee Ep)
      as (i' & A & V' & D' & E' & M).
    assert (I : FileItr.operator_inc i = Some i').
    { unfold FileItr.operator_inc. rewrite Ex, H. exact A. }
    cbn [increments]. rewrite I. cbn [obind].
    unfold l. rewrite skip_special_filter. cbn [nth_error length].
    destruct (skip_special pending) as [|e' rest] eqn:Sk.
    + split.
      * intros d N. destruct k; discriminate N.
      * intros N. assert (k = 0) by (simpl in N; lia). subst k.
        exists i'. split; [reflexivity|]. unfold FileItr.Exists. rewrite M.
        reflexivity.
    + destruct M as (M1 & M2 & M3).
      destruct (skip_special_cons _ _ _ entry_ok Sk) as (_ & _ & F).
      destruct (F Ep) as (F1 & F2).
      destruct (IH e' rest i' M1 M2 V' D' M3 F1 F2) as (IH1 & IH2).
      split; [exact IH1|]. intros N. apply IH2. simpl in N |- *. lia.
Qed.

End Cursor.

(** X16: the iterator is a cursor over the entries of the listing that are
    not special folders: after [k] calls of [operator ++] the iterator that
    the constructor returned rests on the [k]-th of them, its spec is the
    volume and directory of the pattern followed by the name of the entry,
    and [GetFile] of that spec is the name; after as many calls as there are
    such entries it has no current entry. *)
Theorem iterator_is_a_cursor_over_the_listing {CU : CharUtil} {OS : Win32}
    (fs : FileSpec) (path s1 vol dir f : str) (t : list Event) (i : FileItr) :
  FileItr.strip_trailing fs = Some (path, mkFileSpec s1) ->
  Split3 (mkFileSpec s1) = Some (vol, dir, f) ->
  Validate (mkFileSpec s1) = Some tt ->
  IsGoodFileName [] = true ->
  forallb entry_ok (listing (FindFirstFileExA path)) = true ->
  FileItr.ctor fs = (t, Returned i) ->
  (forall k d, nth_error (yielded (FindFirstFileExA path)) k = Some d ->
     exists ik, increments k i = Some ik /\ FileItr.Exists ik = true /\
       mpFindData ik = d /\ FileItr.deref ik = Some (entry_spec vol dir d) /\
       GetFile (entry_spec vol dir d) = Some (cFileName d)) /\
  (exists ik, increments (length (yielded (FindFirstFileExA path))) i = Some ik /\
     FileItr.Exists ik = false).
Proof.
  intros HS H3 HV G0 HL HC.
  destruct (ctor_spec fs path s1 vol dir f HS H3 HV G0 HL) as (i0 & C & M).
  rewrite C in HC. injection HC as _ <-.
  unfold yielded. rewrite skip_special_filter.
  destruct (skip_special (listing (FindFirstFileExA path))) as [|e rest] eqn:Sk.
  - split.
    + intros k d N. destruct k; discriminate N.
    + exists i0. split; [reflexivity|]. unfold FileItr.Exists. rewrite M.
      reflexivity.
  - destruct M as (M1 & M2 & M3 & M4 & M5).
    destruct (skip_special_cons _ _ _ entry_ok Sk) as (_ & _ & F).
    destruct (F HL) as (F1 & F2).
    split.
    + intros k d N.
      destruct (increments_spec vol dir s1 f H3 HV k e rest i0 M1 M2 M3 M4 M5 F1 F2)
        as (A & _).
      destruct (A d N) as (ik & I1 & I2 & I3 & I4).
      exists ik. split; [exact I1|]. split; [exact I2|]. split; [exact I3|].
      split; [unfold FileItr.deref; rewrite I2, I4; reflexivity|].
      assert (Ed : entry_ok d = true).
      { apply nth_error_In in N. destruct N as [<- | N]; [exact F1|].
        apply filter_In in N. destruct N as (N & _).
        rewrite forallb_forall in F2. exact (F2 d N). }
      unfold entry_ok in Ed. apply andb_true_iff in Ed. destruct Ed as (N1 & N2).
      exact (proj2 (proj2 (FileSpec3_Split3 s1 vol dir f (cFileName d) H3 HV N1 N2))).
    + destruct (increments_spec vol dir s1 f H3 HV
                  (length (e :: filter (fun d => negb (special_folder d)) rest))
                  e rest i0 M1 M2 M3 M4 M5 F1 F2) as (_ & B).
      exact (B eq_refl).
Qed.

Lemma match_pass_visits_every_entry_once_witness :
  @DirTree.ForEach ascii_CharUtil small_OS 1 (mkFileSpec (lit "sub\*"))
    NoSubFolders =
  (EvForEach (mkFileSpec (lit "sub\*")) NoSubFolders ::
   EvFindFirst (lit "sub\*") ::
     map (fun d => EvVisit (entry_spec [] (lit "sub\") d))
       (yielded (@FindFirstFileExA small_OS (lit "sub\*"))),
   Returned tt).
Proof.
  apply (@match_pass_visits_every_entry_once ascii_CharUtil small_OS 0
           (mkFileSpec (lit "sub\*")) (lit "sub\*") (lit "sub\*")
           [] (lit "sub\") (lit "*"));
    vm_compute; reflexivity.
Defined.

Lemma iterator_is_a_cursor_over_the_listing_witness :
  let i := mkFileItr (plain_file (lit "a.txt")) (Some [folder (lit "sub")]) [] []
             (mkFileSpec (lit "a.txt")) true in
  (forall k d, nth_error (yielded (@FindFirstFileExA small_OS (lit "*"))) k = Some d ->
     exists ik, @increments ascii_CharUtil k i = Some ik /\
       FileItr.Exists ik = true /\
       mpFindData ik = d /\ FileItr.deref ik = Some (entry_spec [] [] d) /\
       GetFile (entry_spec [] [] d) = Some (cFileName d)) /\
  (exists ik,
     @increments ascii_CharUtil
       (length (yielded (@FindFirstFileExA small_OS (lit "*")))) i = Some ik /\
     FileItr.Exists ik = false).
Proof.
  apply (@iterator_is_a_cursor_over_the_listing ascii_CharUtil small_OS
           (mkFileSpec (lit "*")) (lit "*") (lit "*") [] [] (lit "*")
           [EvFindFirst (lit "*")]);
    vm_compute; reflexivity.
Defined.

(** ** Attributes and flags *)

(** X17: [IsFolder] reads bit 4 of the attributes and nothing else. *)
Theorem is_folder_reads_the_directory_bit (a : FileAttrib.t) :
  FileAttrib.IsFolder a = N.testbit (FileAttrib.mFlags a) 4 /\
  (forall b, N.testbit (FileAttrib.mFlags b) 4 = N.testbit (FileAttrib.mFlags a) 4 ->
     FileAttrib.IsFolder b = FileAttrib.IsFolder a).
Proof.
  assert (E : forall x, FileAttrib.IsFolder x = N.testbit (FileAttrib.mFlags x) 4).
  { intros x. unfold FileAttrib.IsFolder, FILE_ATTRIBUTE_DIRECTORY.
    exact (land_pow2_testbit (FileAttrib.mFlags x) 4). }
  split; [apply E|]. intros b H. rewrite !E. exact H.
Qed.

(** X18: the size of an entry whose two halves are 32-bit values is the
    low half plus 2^32 times the high half; it is below 2^64, and the halves
    are its remainder and its quotient by 2^32. *)
Theorem size_combines_the_two_halves (d : WIN32_FIND_DATAA) :
  (nFileSizeLow d < 2 ^ 32)%N -> (nFileSizeHigh d < 2 ^ 32)%N ->
  let size := FileAttrib.GetSize (FileAttrib.of_find_data d) in
  (size = nFileSizeLow d + 2 ^ 32 * nFileSizeHigh d /\
   size < 2 ^ 64 /\
   size mod 2 ^ 32 = nFileSizeLow d /\
   size / 2 ^ 32 = nFileSizeHigh d)%N.
Proof.
  intros L H. cbv zeta. unfold FileAttrib.GetSize, FileAttrib.of_find_data.
  cbn [FileAttrib.mSize]. rewrite N.shiftl_mul_pow2.
  set (lo := nFileSizeLow d) in *. set (hi := nFileSizeHigh d) in *.
  assert (B : (lo + hi * 2 ^ 32 < 2 ^ 64)%N).
  { change (2 ^ 64)%N with (2 ^ 32 * 2 ^ 32)%N. nia. }
  rewrite (N.mod_small _ _ B).
  split; [lia|]. split; [exact B|]. split.
  - rewrite N.Div0.mod_add. apply N.mod_small. exact L.
  - rewrite N.div_add by (intros Z; discriminate Z).
    rewrite (N.div_small _ _ L). reflexivity.
Qed.

Lemma size_combines_the_two_halves_witness :
  let d := mkFindData 32 5 1 (lit "big.bin") in
  let size := FileAttrib.GetSize (FileAttrib.of_find_data d) in
  (size = nFileSizeLow d + 2 ^ 32 * nFileSizeHigh d /\
   size < 2 ^ 64 /\
   size mod 2 ^ 32 = nFileSizeLow d /\
   size / 2 ^ 32 = nFileSizeHigh d)%N.
Proof.
  apply (size_combines_the_two_halves (mkFindData 32 5 1 (lit "big.bin")));
    vm_compute; reflexivity.
Defined.

(** X19: the conjunction of flags distributes over their union, and the
    union of two 32-bit values is a 32-bit value, so the cast back to the
    enumeration loses nothing. *)
Theorem flag_test_distributes_over_union (a b c : FileFlags.t) :
  FileFlags.and (FileFlags.or a b) c
    = FileFlags.and a c || FileFlags.and b c /\
  ((a < 2 ^ 32)%N -> (b < 2 ^ 32)%N -> (FileFlags.or a b < 2 ^ 32)%N).
Proof.
  unfold FileFlags.and, FileFlags.or. split.
  - rewrite N.land_lor_distr_l.
    destruct (N.eqb_spec (N.lor (N.land a c) (N.land b c)) 0) as [H|H];
      cbn [negb].
    + apply N.lor_eq_0_iff in H. destruct H as (-> & ->). reflexivity.
    + destruct (N.eqb_spec (N.land a c) 0) as [E1|E1]; [|reflexivity].
      destruct (N.eqb_spec (N.land b c) 0) as [E2|E2]; [|reflexivity].
      exfalso. apply H. rewrite E1, E2. reflexivity.
  - intros A B.
    destruct (N.eq_dec (N.lor a b) 0) as [-> | NZ]; [reflexivity|].
    apply N.log2_lt_pow2; [lia|]. rewrite N.log2_lor.
    destruct (N.eq_dec a 0) as [-> | Na]; destruct (N.eq_dec b 0) as [-> | Nb].
    + contradiction.
    + simpl N.log2 at 1. rewrite N.max_0_l. apply N.log2_lt_pow2; lia.
    + simpl N.log2 at 2. rewrite N.max_0_r. apply N.log2_lt_pow2; lia.
    + apply N.max_lub_lt; apply N.log2_lt_pow2; lia.
Qed.

Lemma flag_tests (flags : FileFlags.t) :
  FileFlags.and flags FileFlags.Write = N.testbit flags 0 /\
  FileFlags.and flags FileFlags.Read = N.testbit flags 1 /\
  FileFlags.and flags FileFlags.SharedRead = N.testbit flags 2 /\
  FileFlags.and flags FileFlags.SharedWrite = N.testbit flags 3 /\
  FileFlags.and flags FileFlags.SharedDelete = N.testbit flags 4 /\
  FileFlags.and flags FileFlags.SequentialScan = N.testbit flags 5 /\
  FileFlags.and flags FileFlags.RandomAccess = N.testbit flags 6.
Proof.
  unfold FileFlags.and.
  repeat split;
    [ exact (land_pow2_testbit flags 0) | exact (land_pow2_testbit flags 1)
    | exact (land_pow2_testbit flags 2) | exact (land_pow2_testbit flags 3)
    | exact (land_pow2_testbit flags 4) | exact (land_pow2_testbit flags 5)
    | exact (land_pow2_testbit flags 6) ].
Qed.

(** X20: the parameters for [CreateFileW] are built exactly when the flags
    ask for reading or writing and not for both access patterns; then the
    access is never empty, the sharing mode is below 8, the attributes hold
    [FILE_ATTRIBUTE_NORMAL] and at most one of the two access patterns, and
    the disposition is the one given. *)
Theorem create_file_params_are_well_formed (howToOpen : N) (flags : FileFlags.t) :
  (CreateFileParams_ctor howToOpen flags <> None <->
   (N.testbit flags 1 || N.testbit flags 0) = true /\
   (N.testbit flags 5 && N.testbit flags 6) = false) /\
  (forall p, CreateFileParams_ctor howToOpen flags = Some p ->
     access p <> 0%N /\ (share p < 8)%N /\ create p = howToOpen /\
     N.testbit (attribs p) 7 = true /\
     (N.testbit (attribs p) 27 && N.testbit (attribs p) 28) = false).
Proof.
  unfold CreateFileParams_ctor.
  destruct (flag_tests flags) as (-> & -> & -> & -> & -> & -> & ->).
  destruct (N.testbit flags 0), (N.testbit flags 1), (N.testbit flags 2),
    (N.testbit flags 3), (N.testbit flags 4), (N.testbit flags 5),
    (N.testbit flags 6); cbn [negb andb orb assert obind];
    (split; [split; [intros H; try (exfalso; apply H; reflexivity); auto
                    | intros (A & B); try discriminate A; try discriminate B;
                      discriminate]
            | intros p H; try discriminate H; injection H as <-;
              cbn [access share create attribs];
              repeat split; try reflexivity; try discriminate]).
Qed.

(** X21: the parameters carry every flag: the read and write flags are bits
    31 and 30 of the access, the three sharing flags are bits 0, 1 and 2 of
    the sharing mode, and the two access patterns are bits 27 and 28 of the
    attributes. *)
Theorem create_file_params_carry_the_flags (howToOpen : N) (flags : FileFlags.t)
    (p : CreateFileParams) :
  CreateFileParams_ctor howToOpen flags = Some p ->
  N.testbit (access p) 31 = N.testbit flags 1 /\
  N.testbit (access p) 30 = N.testbit flags 0 /\
  N.testbit (share p) 0 = N.testbit flags 2 /\
  N.testbit (share p) 1 = N.testbit flags 3 /\
  N.testbit (share p) 2 = N.testbit flags 4 /\
  N.testbit (attribs p) 27 = N.testbit flags 5 /\
  N.testbit (attribs p) 28 = N.testbit flags 6.
Proof.
  unfold CreateFileParams_ctor.
  destruct (flag_tests flags) as (-> & -> & -> & -> & -> & -> & ->).
  destruct (N.testbit flags 0), (N.testbit flags 1), (N.testbit flags 2),
    (N.testbit flags 3), (N.testbit flags 4), (N.testbit flags 5),
    (N.testbit flags 6); cbn [negb andb orb assert obind];
    intros H; try discriminate H; injection H as <-;
    cbn [access share create attribs]; repeat split; reflexivity.
Qed.

Lemma create_file_params_carry_the_flags_witness :
  let flags := FileFlags.or (FileFlags.or FileFlags.Read FileFlags.SharedRead)
                 FileFlags.SequentialScan in
  let p := mkCreateFileParams GENERIC_READ FILE_SHARE_READ 3
             (N.lor FILE_ATTRIBUTE_NORMAL FILE_FLAG_SEQUENTIAL_SCAN) in
  N.testbit (access p) 31 = N.testbit flags 1 /\
  N.testbit (access p) 30 = N.testbit flags 0 /\
  N.testbit (share p) 0 = N.testbit flags 2 /\
  N.testbit (share p) 1 = N.testbit flags 3 /\
  N.testbit (share p) 2 = N.testbit flags 4 /\
  N.testbit (attribs p) 27 = N.testbit flags 5 /\
  N.testbit (attribs p) 28 = N.testbit flags 6.
Proof.
  apply (create_file_params_carry_the_flags 3
           (FileFlags.or (FileFlags.or FileFlags.Read FileFlags.SharedRead)
              FileFlags.SequentialScan)).
  vm_compute. reflexivity.
Defined.

(** ** The walk *)

Lemma for_each_ret {A : Type} (l : list A) (body : A -> M unit) :
  (forall a, In a l -> body a = ret tt) -> for_each l body = ret tt.
Proof.
  induction l as [|a l IH]; intros H; [reflexivity|].
  cbn [for_each]. rewrite (H a) by (left; reflexivity). rewrite bind_ret_l.
  apply IH. intros b I. apply H. right. exact I.
Qed.

Lemma bind_unit_split (m : M unit) (k : unit -> M unit) :
  exists t,
    bind m k = (trace m ++ t,
                match result m with
                | Returned _ => result (k tt)
                | o => o
                end) /\
    (result m <> Returned tt -> t = [] /\ True).
Proof.
  destruct m as [tm [[]| |]]; cbn.
  - destruct (k tt) as [tk ok]. exists tk. split; [reflexivity|].
    intros H. contradiction.
  - exists []. rewrite app_nil_r. auto.
  - exists []. rewrite app_nil_r. auto.
Qed.

Section WalkFacts.

Context {CU : CharUtil} {OS : Win32}.

(** X22: a deep walk begins with the match pass of the shallow walk: its
    events are the call, the events of the match pass, and then the events of
    the descend pass; when the match pass is stopped, the deep walk is
    stopped with it and nothing follows.  So every spec that the shallow walk
    visits is visited by the deep walk, first and in the same order. *)
Theorem deep_walk_begins_with_the_match_pass (n : nat) (fs : FileSpec) :
  let shallow := DirTree.ForEach 1 fs NoSubFolders in
  let deep := DirTree.ForEach (S n) fs YesSubFolders in
  exists t,
    trace deep = EvForEach fs YesSubFolders :: tl (trace shallow) ++ t /\
    visits (trace deep) = visits (trace shallow) ++ visits t /\
    (result shallow <> Returned tt -> t = [] /\ result deep = result shallow).
Proof.
  cbv zeta. cbn [DirTree.ForEach].
  match goal with
  | |- context [bind (FileItr.for_each_entry fs DirTree.visit) ?K] =>
      destruct (bind_unit_split (FileItr.for_each_entry fs DirTree.visit) K)
        as (t & E & N)
  end.
  rewrite E. rewrite bind_ret_tt.
  destruct (FileItr.for_each_entry fs DirTree.visit) as [tm o].
  exists t. cbn [trace result fst snd] in N |- *. cbn.
  split; [reflexivity|]. split.
  - unfold visits. cbn. rewrite !flat_map_app. reflexivity.
  - intros H. destruct (N H) as (-> & R). split; [reflexivity|].
    destruct o as [[]| |]; [contradiction | reflexivity | reflexivity].
Qed.

(** An open that fails gives an iterator without a current entry. *)
Lemma ctor_failed (spec fs : FileSpec) (path : str) (err : N) :
  FileItr.strip_trailing spec = Some (path, fs) ->
  FindFirstFileExA path = FindFailed err ->
  FileItr.for_each_entry spec DirTree.visit = ([EvFindFirst path], Returned tt) /\
  forall body,
    FileItr.for_each_entry spec body = ([EvFindFirst path], Returned tt).
Proof.
  intros HS HF.
  assert (A : forall body,
    FileItr.for_each_entry spec body = ([EvFindFirst path], Returned tt)).
  { intros body. unfold FileItr.for_each_entry, FileItr.ctor, FileItr.Init.
    rewrite HS. cbn [lift]. rewrite !bind_assoc, bind_ret_l.
    cbn [FileItr.Close set_mpFindData mFindHandle INVALID_HANDLE_VALUE].
    rewrite HF. rewrite !bind_assoc.
    destruct (err =? ERROR_BAD_NETPATH)%N; reflexivity. }
  split; [apply A | exact A].
Qed.

(** X23: a level that cannot be opened contributes nothing: when the
    listing of the pattern and the listing of the wildcard both fail, the
    deep walk opens the two, calls the visitor on nothing, makes no further
    call, and returns. *)
Theorem unopenable_level_contributes_nothing (n : nat) (fs fs' : FileSpec)
    (vol dir file path : str) (e1 e2 : N) :
  Validate fs = Some tt ->
  Split3 fs = Some (vol, dir, file) ->
  IsGoodFileName (lit "*") = true ->
  FileItr.strip_trailing fs = Some (path, fs') ->
  FindFirstFileExA path = FindFailed e1 ->
  FindFirstFileExA (vol ++ dir ++ lit "*") = FindFailed e2 ->
  DirTree.ForEach (S n) fs YesSubFolders =
  ([EvForEach fs YesSubFolders; EvFindFirst path;
    EvFindFirst (vol ++ dir ++ lit "*")], Returned tt).
Proof.
  intros HV H3 GS HS F1 F2. destruct fs as [s].
  destruct (FileSpec3_Split3 s vol dir file (lit "*") H3 HV eq_refl GS)
    as (F3 & _ & _).
  cbn [DirTree.ForEach].
  rewrite (proj1 (ctor_failed _ _ _ _ HS F1)).
  assert (SS : FileItr.strip_trailing (mkFileSpec (vol ++ dir ++ lit "*"))
               = Some (vol ++ dir ++ lit "*", mkFileSpec (vol ++ dir ++ lit "*"))).
  { rewrite app_assoc. rewrite strip_trailing_star. rewrite <- app_assoc.
    reflexivity. }
  rewrite H3. cbn [lift]. rewrite bind_ret_l.
  rewrite F3. cbn [lift]. rewrite bind_ret_l.
  rewrite (proj2 (ctor_failed _ _ _ _ SS F2)). reflexivity.
Qed.

(** The match pass makes no call of [ForEach]. *)
Lemma match_pass_calls (fs : FileSpec) :
  calls (trace (FileItr.for_each_entry fs DirTree.visit)) = [].
Proof.
  unfold FileItr.for_each_entry.
  destruct (ctor_trace fs) as [(HS & HC)|(path & fs0 & HS & HT & HR)].
  - rewrite HC. reflexivity.
  - destruct (FileItr.ctor fs) as [t [i| |]]; cbn in HT, HR; subst t.
    + pose proof (iterate_visit (FileItr.remaining i) i (le_n _)) as IV.
      cbv zeta in IV. cbn.
      destruct (FileItr.iterate _ _ i) as [t o]. cbn in IV |- *.
      destruct IV as (_ & _ & IV3). exact IV3.
    + reflexivity.
    + reflexivity.
Qed.

(** X24: on a level without folders, other than the special ones, the deep
    walk makes no further call: it runs the match pass, opens the wildcard
    listing and is done, for every amount of fuel, and it visits what the
    shallow walk visits. *)
Theorem level_without_folders_ends_the_descent (n : nat) (fs : FileSpec)
    (vol dir file : str) :
  Split3 fs = Some (vol, dir, file) ->
  Validate fs = Some tt ->
  IsGoodFileName [] = true ->
  IsGoodFileName (lit "*") = true ->
  forallb entry_ok (listing (FindFirstFileExA (vol ++ dir ++ lit "*"))) = true ->
  forallb (fun d => negb (FileAttrib.IsFolder (FileAttrib.of_find_data d)))
    (yielded (FindFirstFileExA (vol ++ dir ++ lit "*"))) = true ->
  DirTree.ForEach (S n) fs YesSubFolders =
    (_ <~ emit (EvForEach fs YesSubFolders) ;;
     _ <~ FileItr.for_each_entry fs DirTree.visit ;;
     emit (EvFindFirst (vol ++ dir ++ lit "*"))) /\
  calls (trace (DirTree.ForEach (S n) fs YesSubFolders))
    = [(fs, YesSubFolders)] /\
  visits (trace (DirTree.ForEach (S n) fs YesSubFolders))
    = visits (trace (DirTree.ForEach 1 fs NoSubFolders)).
Proof.
  intros H3 HV G0 GS HL NF. destruct fs as [s].
  assert (E : DirTree.ForEach (S n) (mkFileSpec s) YesSubFolders =
    (_ <~ emit (EvForEach (mkFileSpec s) YesSubFolders) ;;
     _ <~ FileItr.for_each_entry (mkFileSpec s) DirTree.visit ;;
     emit (EvFindFirst (vol ++ dir ++ lit "*")))).
  { rewrite (descend_pass_eq n s vol dir file H3 HV G0 GS HL).
    apply bind_ext. intros _. apply bind_ext. intros _.
    rewrite for_each_ret; [apply bind_ret_tt|].
    intros d I. rewrite forallb_forall in NF. specialize (NF d I).
    apply negb_true_iff in NF. rewrite NF. reflexivity. }
  split; [exact E|]. rewrite E.
  pose proof (match_pass_calls (mkFileSpec s)) as MC.
  cbn [DirTree.ForEach]. rewrite bind_ret_tt.
  destruct (FileItr.for_each_entry (mkFileSpec s) DirTree.visit)
    as [tm [[]| |]]; cbn [trace fst] in MC; cbn; unfold calls, visits in *;
    rewrite ?flat_map_app; cbn; rewrite ?app_nil_r;
    (split; [cbn in MC; rewrite ?MC; reflexivity | reflexivity]).
Qed.

End WalkFacts.

Lemma unopenable_level_contributes_nothing_witness :
  @DirTree.ForEach ascii_CharUtil small_OS 3 (mkFileSpec (lit "n:\*.txt"))
    YesSubFolders =
  ([EvForEach (mkFileSpec (lit "n:\*.txt")) YesSubFolders;
    EvFindFirst (lit "n:\*.txt");
    EvFindFirst (lit "n:" ++ lit "\" ++ lit "*")], Returned tt).
Proof.
  apply (@unopenable_level_contributes_nothing ascii_CharUtil small_OS 2
           (mkFileSpec (lit "n:\*.txt")) (mkFileSpec (lit "n:\*.txt"))
           (lit "n:") (lit "\") (lit "*.txt") (lit "n:\*.txt")
           ERROR_FILE_NOT_FOUND ERROR_BAD_NETPATH);
    vm_compute; reflexivity.
Defined.

Lemma level_without_folders_ends_the_descent_witness :
  @DirTree.ForEach ascii_CharUtil small_OS 3 (mkFileSpec (lit "sub\*.txt"))
    YesSubFolders =
    (_ <~ emit (EvForEach (mkFileSpec (lit "sub\*.txt")) YesSubFolders) ;;
     _ <~ @FileItr.for_each_entry ascii_CharUtil small_OS
            (mkFileSpec (lit "sub\*.txt")) DirTree.visit ;;
     emit (EvFindFirst ([] ++ lit "sub\" ++ lit "*"))) /\
  calls (trace (@DirTree.ForEach ascii_CharUtil small_OS 3
                  (mkFileSpec (lit "sub\*.txt")) YesSubFolders))
    = [(mkFileSpec (lit "sub\*.txt"), YesSubFolders)] /\
  visits (trace (@DirTree.ForEach ascii_CharUtil small_OS 3
                   (mkFileSpec (lit "sub\*.txt")) YesSubFolders))
    = visits (trace (@DirTree.ForEach ascii_CharUtil small_OS 1
                       (mkFileSpec (lit "sub\*.txt")) NoSubFolders)).
Proof.
  apply (@level_without_folders_ends_the_descent ascii_CharUtil small_OS 2
           (mkFileSpec (lit "sub\*.txt")) [] (lit "sub\") (lit "*.txt"));
    vm_compute; reflexivity.
Defined.
